(** * sp_lightglue_sfm.py: SuperPoint + LightGlue SfM driver, COLMAP layout

    A shallow embedding of [src/sp_lightglue_sfm.py].  The script is a
    sequence of file-system operations around four external HLOC stages, so
    the embedding threads an explicit [world] (file store, standard output,
    clock, history of calls made to the external stages) through a small
    state-and-exception monad.  Each Python function of the script is one
    definition below, under the name it has in the source. *)

From Stdlib Require Import List String Ascii ZArith Bool Arith Lia.
From Stdlib Require Import Permutation Sorted.
Import ListNotations.

Set Implicit Arguments.
Set Warnings "-register-all".
Local Open Scope string_scope.
Local Open Scope list_scope.

(* ================================================================== *)
(** ** Python strings *)

Module Str.

(** [str.lower()] restricted to ASCII.  The script only compares lowered
    text with ASCII literals made of letters that no non-ASCII code point
    lowers to, so the ASCII table decides every test of the script. *)
Definition lower_ascii (c : ascii) : ascii :=
  let n := nat_of_ascii c in
  if (65 <=? n)%nat && (n <=? 90)%nat then ascii_of_nat (n + 32) else c.

Fixpoint lower (s : string) : string :=
  match s with
  | EmptyString => EmptyString
  | String c r => String (lower_ascii c) (lower r)
  end.

(** [s.startswith(p)] *)
Fixpoint startswith (p s : string) : bool :=
  match p, s with
  | EmptyString, _ => true
  | String a p', String b s' => Ascii.eqb a b && startswith p' s'
  | String _ _, EmptyString => false
  end.

(** [needle in hay] *)
Fixpoint contains (needle hay : string) : bool :=
  startswith needle hay ||
  match hay with
  | EmptyString => false
  | String _ r => contains needle r
  end.

(** Split at the last ['.']: [rsplit_dot s = Some (s[:i], s[i:])] for
    [i = s.rfind('.')], and [None] when [s] has no dot. *)
Fixpoint rsplit_dot (s : string) : option (string * string) :=
  match s with
  | EmptyString => None
  | String c r =>
      match rsplit_dot r with
      | Some (pre, suf) => Some (String c pre, suf)
      | None => if Ascii.eqb c "." then Some (EmptyString, s) else None
      end
  end.

(** [fnmatch] for the patterns of the script: literal characters and
    ['*'] (any run of characters, possibly empty); case-sensitive, as
    pathlib matches on POSIX. *)
Fixpoint fnmatch (pat s : string) {struct pat} : bool :=
  match pat with
  | EmptyString => match s with EmptyString => true | _ => false end
  | String c pat' =>
      if Ascii.eqb c "*" then
        (fix star (t : string) : bool :=
           fnmatch pat' t ||
           match t with
           | EmptyString => false
           | String _ t' => star t'
           end) s
      else
        match s with
        | String d s' => Ascii.eqb c d && fnmatch pat' s'
        | EmptyString => false
        end
  end.

(** ["sep".join(xs)] *)
Fixpoint join (sep : string) (xs : list string) : string :=
  match xs with
  | [] => EmptyString
  | [x] => x
  | x :: r => x ++ sep ++ join sep r
  end.

(** [s * n] *)
Fixpoint repeat (s : string) (n : nat) : string :=
  match n with
  | O => EmptyString
  | S m => s ++ repeat s m
  end.

(** Order of [str] values: lexicographic on code units (on the bytes of
    the model, which is the order of code points for well-formed UTF-8). *)
Definition leb (a b : string) : bool := String.leb a b.

(** A [str] that comes from a file name is modelled by the bytes of that
    name; Python decodes them as UTF-8 and stands a lone surrogate for
    every byte that is not part of a well-formed sequence
    ([surrogateescape]).  [s.encode("utf-8")], which [write_text(...,
    encoding="utf-8")] performs, succeeds exactly when there is no such
    byte, that is, when the bytes are well-formed UTF-8 (RFC 3629), and it
    then gives the bytes back.  [valid_utf8_from s k lo hi] reads [s] with
    [k] continuation bytes still due, the next of them in [lo..hi]. *)
Fixpoint valid_utf8_from (s : string) (k : nat) (lo hi : N) : bool :=
  match s with
  | EmptyString => Nat.eqb k 0
  | String c r =>
      let b := N_of_ascii c in
      match k with
      | O =>
          if (b <? 128)%N then valid_utf8_from r 0 128 191
          else if (194 <=? b)%N && (b <=? 223)%N then valid_utf8_from r 1 128 191
          else if (b =? 224)%N then valid_utf8_from r 2 160 191
          else if (b =? 237)%N then valid_utf8_from r 2 128 159
          else if (225 <=? b)%N && (b <=? 239)%N then valid_utf8_from r 2 128 191
          else if (b =? 240)%N then valid_utf8_from r 3 144 191
          else if (241 <=? b)%N && (b <=? 243)%N then valid_utf8_from r 3 128 191
          else if (b =? 244)%N then valid_utf8_from r 3 128 143
          else false
      | S k' => (lo <=? b)%N && (b <=? hi)%N && valid_utf8_from r k' 128 191
      end
  end.

Definition valid_utf8 (s : string) : bool := valid_utf8_from s 0 128 191.

End Str.

(* ================================================================== *)
(** ** Python sequences: stable sorting *)

Module Seq.

Section Sorting.
Variable A : Type.
Variable le : A -> A -> bool.

(** Insertion that keeps an element after the ones already placed that
    are not greater: the order among equal keys is the input order. *)
Fixpoint insert (x : A) (l : list A) : list A :=
  match l with
  | [] => [x]
  | y :: r => if le x y then x :: l else y :: insert x r
  end.

(** [sorted(l)] / [l.sort()]: Python's sort is stable, and every stable
    sort computes the same list. *)
Definition sorted (l : list A) : list A := fold_right insert [] l.
End Sorting.

(** [sorted(l, key=k)] for integer keys. *)
Definition sorted_by_key (A : Type) (k : A -> Z) (l : list A) : list A :=
  sorted (fun a b => (k a <=? k b)%Z) l.

(** [l[-1]] of a non-empty list, [None] standing for the empty list. *)
Definition last_opt (A : Type) (l : list A) : option A :=
  match rev l with
  | [] => None
  | x :: _ => Some x
  end.

End Seq.

(* ================================================================== *)
(** ** pathlib.PurePosixPath *)

Module PurePath.

(** An absolute, normalised path: its components below ["/"].
    [resolve()] is the identity on such paths (no symbolic links are
    modelled). *)
Definition path := list string.

Definition eqb (p q : path) : bool :=
  if list_eq_dec string_dec p q then true else false.

(** [p / name] *)
Definition div (p : path) (n : string) : path := p ++ [n].

(** [p.name] *)
Definition name (p : path) : string := last p EmptyString.

(** [p.parent]; the root is its own parent. *)
Definition parent (p : path) : path := removelast p.

(** [len(p.parts)]: the anchor ["/"] counts as one part. *)
Definition parts_len (p : path) : nat := S (List.length p).

(** [p.suffix] and [p.stem], computed on the name:
    with [i = name.rfind('.')], the suffix is [name[i:]] when
    [0 < i < len(name) - 1] and empty otherwise. *)
Definition split_name (n : string) : string * string :=
  match Str.rsplit_dot n with
  | Some (pre, suf) =>
      if (0 <? String.length pre)%nat && (1 <? String.length suf)%nat
      then (pre, suf) else (n, EmptyString)
  | None => (n, EmptyString)
  end.

Definition suffix (p : path) : string := snd (split_name (name p)).
Definition stem (p : path) : string := fst (split_name (name p)).

(** [root] is a proper ancestor of [p]. *)
Fixpoint is_under (root p : path) : bool :=
  match root, p with
  | [], [] => false
  | [], _ :: _ => true
  | a :: r, b :: q => String.eqb a b && is_under r q
  | _ :: _, [] => false
  end.

(** [p.relative_to(root)] for [p] under [root]. *)
Definition relative_to (root p : path) : path := skipn (List.length root) p.

(** [str(p)] of an absolute path, and of a relative one. *)
Definition str_rel (p : path) : string := Str.join "/" p.
Definition str (p : path) : string := "/" ++ Str.join "/" p.

(** Order of paths (used when tuples holding paths are sorted):
    lexicographic on the components. *)
Fixpoint leb (p q : path) : bool :=
  match p, q with
  | [], _ => true
  | _ :: _, [] => false
  | a :: p', b :: q' =>
      if String.eqb a b then leb p' q' else String.ltb a b
  end.

End PurePath.

Abbreviation path := PurePath.path.
Infix "//" := PurePath.div (at level 40, left associativity).

(* ================================================================== *)
(** ** The file store *)

Module Fs.

(** What a path names.  A regular file has its bytes and its
    modification time; a directory has a modification time. *)
Inductive node : Type :=
| File (data : string) (mtime : Z)
| Dir (mtime : Z).

(** The entries of the store, in the order in which the operating system
    enumerates them ([os.scandir], hence [glob] and [rglob]): that order
    is unspecified, so it is part of the state and the theorems hold for
    every order.  The root directory is implicit. *)
Definition store := list (path * node).

Fixpoint assoc (p : path) (s : store) : option node :=
  match s with
  | [] => None
  | (q, n) :: r => if PurePath.eqb q p then Some n else assoc p r
  end.

Definition lookup (s : store) (p : path) : option node :=
  match p with
  | [] => Some (Dir 0)
  | _ :: _ => assoc p s
  end.

Definition remove (p : path) (s : store) : store :=
  filter (fun e => negb (PurePath.eqb (fst e) p)) s.

Definition remove_tree (p : path) (s : store) : store :=
  filter (fun e => negb (PurePath.eqb (fst e) p || PurePath.is_under p (fst e))) s.

Definition set (p : path) (n : node) (s : store) : store :=
  remove p s ++ [(p, n)].

(** [st_size] of a directory is specific to the file system; one block
    is what ext4 reports. *)
Definition dir_st_size : Z := 4096.

Definition st_size (n : node) : Z :=
  match n with
  | File d _ => Z.of_nat (String.length d)
  | Dir _ => dir_st_size
  end.

Definition st_mtime (n : node) : Z :=
  match n with
  | File _ t => t
  | Dir t => t
  end.

Definition is_file_node (n : option node) : bool :=
  match n with Some (File _ _) => true | _ => false end.

Definition is_dir_node (n : option node) : bool :=
  match n with Some (Dir _) => true | _ => false end.

(** [root.rglob(pat)]: every entry below [root], at any depth, whose name
    matches; directories are entries like the others. *)
Definition rglob (s : store) (root : path) (pat : string) : list path :=
  map fst (filter (fun e => PurePath.is_under root (fst e)
                            && Str.fnmatch pat (PurePath.name (fst e))) s).

(** [root.glob(pat)] for a pattern without separator: the entries
    directly in [root]. *)
Definition glob (s : store) (root : path) (pat : string) : list path :=
  map fst (filter (fun e => PurePath.is_under root (fst e)
                            && PurePath.eqb (PurePath.parent (fst e)) root
                            && Str.fnmatch pat (PurePath.name (fst e))) s).

(** Moving the entry [src], and everything below it, to [dst]. *)
Definition rebase (src dst p : path) : path :=
  dst ++ skipn (List.length src) p.

Definition rename_tree (src dst : path) (s : store) : store :=
  let moved := filter (fun e => PurePath.eqb (fst e) src || PurePath.is_under src (fst e)) s in
  remove_tree src s ++ map (fun e => (rebase src dst (fst e), snd e)) moved.

(** A directory with no entry below it. *)
Definition is_empty_dir (s : store) (p : path) : bool :=
  negb (existsb (fun e => PurePath.is_under p (fst e)) s).

(** Some proper ancestor of [p] names a regular file: for a [p] that names
    nothing the operating system then reports [ENOTDIR], not [ENOENT]. *)
Definition through_file (s : store) (p : path) : bool :=
  existsb (fun k => is_file_node (lookup s (firstn k p))) (seq 0 (List.length p)).

End Fs.

(* ================================================================== *)
(** ** Python values, exceptions and the world *)

(** The values the script hands to the external stages. *)
Inductive pyval : Type :=
| VNone
| VBool (b : bool)
| VInt (z : Z)
| VStr (s : string)
| VPath (p : path)
| VDict (items : list (string * pyval)).

(** [d.get(k, default)] and [{**d, k: v}] on the items of a dict. *)
Fixpoint dict_get (k : string) (items : list (string * pyval)) : option pyval :=
  match items with
  | [] => None
  | (k', v) :: r => if String.eqb k' k then Some v else dict_get k r
  end.

Fixpoint dict_set (k : string) (v : pyval) (items : list (string * pyval))
  : list (string * pyval) :=
  match items with
  | [] => [(k, v)]
  | (k', v') :: r => if String.eqb k' k then (k, v) :: r else (k', v') :: dict_set k v r
  end.

(** The exception classes that the script raises, catches or lets through.
    [except Exception] catches every one of them; [except TypeError] only
    [TypeError]. *)
Inductive exn_class : Type :=
| FileNotFoundError
| FileExistsError
| IsADirectoryError
| NotADirectoryError
| OSError
| TypeError
| UnicodeEncodeError
| OtherException.

Record exn : Type := mk_exn { exn_cls : exn_class; exn_msg : string }.

Definition is_TypeError (e : exn) : bool :=
  match exn_cls e with TypeError => true | _ => false end.

Definition is_FileNotFoundError (e : exn) : bool :=
  match exn_cls e with FileNotFoundError => true | _ => false end.

(** One call made to an external callable: its name, the positional
    arguments and the keyword arguments.  The history of calls is ghost
    state: the script does not read it. *)
Record call : Type := mk_call {
  callee : string;
  call_args : list pyval;
  call_kwargs : list (string * pyval)
}.

Record world : Type := mk_world {
  files : Fs.store;
  stdout : list string;      (* the lines printed so far *)
  clock : Z;                 (* [time.time()], in microseconds *)
  calls : list call
}.

Definition second : Z := 1000000.

Inductive outcome (A : Type) : Type :=
| Ret (a : A)
| Raise (e : exn).
Arguments Ret {A} a.
Arguments Raise {A} e.

(** A computation: from a world to the world it leaves and either a value
    or the exception it raised. *)
Definition M (A : Type) : Type := world -> world * outcome A.

Definition ret {A} (a : A) : M A := fun w => (w, Ret a).

Definition bind {A B} (m : M A) (k : A -> M B) : M B :=
  fun w => match m w with
           | (w', Ret a) => k a w'
           | (w', Raise e) => (w', Raise e)
           end.

Definition raise {A} (c : exn_class) (msg : string) : M A :=
  fun w => (w, Raise (mk_exn c msg)).

(** [try: m  except <handles>: h]; an exception outside [handles] goes
    through. *)
Definition try_except {A} (m : M A) (handles : exn -> bool) (h : M A) : M A :=
  fun w => match m w with
           | (w', Ret a) => (w', Ret a)
           | (w', Raise e) => if handles e then h w' else (w', Raise e)
           end.

Declare Scope py_scope.
Delimit Scope py_scope with py.
Notation "x <- m ;; k" := (bind m (fun x => k))
  (at level 61, m at next level, right associativity) : py_scope.
Notation "m ;; k" := (bind m (fun _ => k))
  (at level 61, right associativity) : py_scope.
Local Open Scope py_scope.

(** [for x in xs: body x] *)
Fixpoint for_each {A} (xs : list A) (body : A -> M unit) : M unit :=
  match xs with
  | [] => ret tt
  | x :: r => body x ;; for_each r body
  end.

Definition get_files : M Fs.store := fun w => (w, Ret (files w)).

Definition put_files (s : Fs.store) : M unit :=
  fun w => (mk_world s (stdout w) (clock w) (calls w), Ret tt).

(** [print(line)] *)
Definition print (line : string) : M unit :=
  fun w => (mk_world (files w) (stdout w ++ [line]) (clock w) (calls w), Ret tt).

(** [time.time()] *)
Definition time_time : M Z := fun w => (w, Ret (clock w)).

(* ================================================================== *)
(** ** pathlib.Path, os and shutil on the world *)

Module Os.

(** The error of a system call on a path that names nothing:
    [NotADirectoryError] when the path runs through a regular file,
    [FileNotFoundError] otherwise. *)
Definition no_entry {A} (s : Fs.store) (p : path) : M A :=
  raise (if Fs.through_file s p then NotADirectoryError else FileNotFoundError)
        (PurePath.str p).

(** [p.exists()], [p.is_dir()] *)
Definition exists_ (p : path) : M bool :=
  s <- get_files ;;
  ret (match Fs.lookup s p with Some _ => true | None => false end).

Definition is_dir (p : path) : M bool :=
  s <- get_files ;; ret (Fs.is_dir_node (Fs.lookup s p)).

(** [p.stat()] *)
Definition stat (p : path) : M Fs.node :=
  s <- get_files ;;
  match Fs.lookup s p with
  | Some n => ret n
  | None => no_entry s p
  end.

(** [p.unlink()] *)
Definition unlink (p : path) : M unit :=
  s <- get_files ;;
  match Fs.lookup s p with
  | Some (Fs.File _ _) => put_files (Fs.remove p s)
  | Some (Fs.Dir _) => raise IsADirectoryError (PurePath.str p)
  | None => no_entry s p
  end.

(** [os.mkdir(p)] *)
Definition mkdir (p : path) : M unit :=
  s <- get_files ;;
  match Fs.lookup s p with
  | Some _ => raise FileExistsError (PurePath.str p)
  | None =>
      match Fs.lookup s (PurePath.parent p) with
      | Some (Fs.Dir _) => fun w => put_files (Fs.set p (Fs.Dir (clock w)) s) w
      | Some (Fs.File _ _) => raise NotADirectoryError (PurePath.str p)
      | None => no_entry s p
      end
  end.

(** [Path.mkdir(parents=True, exist_ok=True)], as pathlib writes it:
    [os.mkdir]; on [FileNotFoundError] the parent is made first (with the
    same flags) and [os.mkdir] is tried again; any other [OSError] is
    swallowed when the path is a directory.  The recursion is on the
    reversed components, so that the parent is the tail. *)
Fixpoint mkdir_parents_rev (rp : list string) : M unit :=
  let p := rev rp in
  let swallow_if_dir (m : M unit) : M unit :=
    fun w => match m w with
             | (w', Raise e) =>
                 if Fs.is_dir_node (Fs.lookup (files w') p)
                 then (w', Ret tt) else (w', Raise e)
             | r => r
             end in
  fun w =>
    match mkdir p w with
    | (w', Raise e) =>
        if is_FileNotFoundError e then
          match rp with
          | [] => (w', Raise e)
          | _ :: rp' => (mkdir_parents_rev rp' ;; swallow_if_dir (mkdir p)) w'
          end
        else swallow_if_dir (fun w0 => (w0, Raise e)) w'
    | r => r
    end.

Definition mkdir_parents_exist_ok (p : path) : M unit :=
  mkdir_parents_rev (rev p).

(** [p.write_text(data, encoding="utf-8")]: the file is opened for
    writing, which creates it or empties it, and then [data] is encoded and
    written; data that does not encode raises [UnicodeEncodeError] and
    leaves the file empty. *)
Definition write_text (p : path) (data : string) : M unit :=
  s <- get_files ;;
  match Fs.lookup s p with
  | Some (Fs.Dir _) => raise IsADirectoryError (PurePath.str p)
  | _ =>
      match Fs.lookup s (PurePath.parent p) with
      | Some (Fs.Dir _) =>
          if Str.valid_utf8 data
          then fun w => put_files (Fs.set p (Fs.File data (clock w)) s) w
          else (fun w => put_files (Fs.set p (Fs.File "" (clock w)) s) w) ;;
               raise UnicodeEncodeError "'utf-8' codec can't encode: surrogates not allowed"
      | Some (Fs.File _ _) => raise NotADirectoryError (PurePath.str p)
      | None => no_entry s p
      end
  end.

(** [os.rename(src, dst)] on POSIX. *)
Definition rename (src dst : path) : M unit :=
  s <- get_files ;;
  match Fs.lookup s src with
  | None => no_entry s src
  | Some (Fs.File d t) =>
      match Fs.lookup s dst with
      | Some (Fs.Dir _) => raise IsADirectoryError (PurePath.str dst)
      | _ =>
          match Fs.lookup s (PurePath.parent dst) with
          | Some (Fs.Dir _) =>
              if PurePath.eqb src dst then ret tt
              else put_files (Fs.set dst (Fs.File d t) (Fs.remove src s))
          | Some (Fs.File _ _) => raise NotADirectoryError (PurePath.str dst)
          | None => no_entry s dst
          end
      end
  | Some (Fs.Dir _) =>
      if PurePath.eqb src dst then ret tt
      else if PurePath.is_under src dst then raise OSError (PurePath.str dst)
      else
        match Fs.lookup s dst with
        | Some (Fs.File _ _) => raise NotADirectoryError (PurePath.str dst)
        | Some (Fs.Dir _) =>
            if Fs.is_empty_dir s dst
            then put_files (Fs.rename_tree src dst (Fs.remove dst s))
            else raise OSError (PurePath.str dst)
        | None =>
            match Fs.lookup s (PurePath.parent dst) with
            | Some (Fs.Dir _) => put_files (Fs.rename_tree src dst s)
            | Some (Fs.File _ _) => raise NotADirectoryError (PurePath.str dst)
            | None => no_entry s dst
            end
        end
  end.

(** [shutil.move(src, dst)] within one file system: into [dst] when
    [dst] is a directory (other than [src] itself), onto [dst]
    otherwise. *)
Definition shutil_move (src dst : path) : M unit :=
  d <- is_dir dst ;;
  if d then
    if PurePath.eqb src dst then rename src dst
    else
      let real_dst := dst // PurePath.name src in
      e <- exists_ real_dst ;;
      if e then raise OSError ("Destination path '" ++ PurePath.str real_dst ++ "' already exists")
      else rename src real_dst
  else rename src dst.

(** [shutil.rmtree(p)] *)
Definition rmtree (p : path) : M unit :=
  s <- get_files ;;
  match Fs.lookup s p with
  | Some (Fs.Dir _) => put_files (Fs.remove_tree p s)
  | Some (Fs.File _ _) => raise NotADirectoryError (PurePath.str p)
  | None => no_entry s p
  end.

(** [list(root.rglob(pat))], [list(root.glob(pat))] *)
Definition rglob (root : path) (pat : string) : M (list path) :=
  s <- get_files ;; ret (Fs.rglob s root pat).

Definition glob (root : path) (pat : string) : M (list path) :=
  s <- get_files ;; ret (Fs.glob s root pat).

End Os.

(* ================================================================== *)
(** ** Calling a Python callable *)

(** [inspect.Parameter.kind] *)
Inductive param_kind : Type :=
| POSITIONAL_ONLY
| POSITIONAL_OR_KEYWORD
| VAR_POSITIONAL
| KEYWORD_ONLY
| VAR_KEYWORD.

Record param : Type := mk_param {
  pname : string;
  pkind : param_kind;
  has_default : bool
}.

Definition takes_position (q : param) : bool :=
  match pkind q with POSITIONAL_ONLY | POSITIONAL_OR_KEYWORD => true | _ => false end.

Definition takes_keyword (q : param) : bool :=
  match pkind q with POSITIONAL_OR_KEYWORD | KEYWORD_ONLY => true | _ => false end.

Definition is_var_positional (q : param) : bool :=
  match pkind q with VAR_POSITIONAL => true | _ => false end.

Definition is_var_keyword (q : param) : bool :=
  match pkind q with VAR_KEYWORD => true | _ => false end.

Definition mem_string (x : string) (l : list string) : bool :=
  existsb (String.eqb x) l.

(** Whether a call with [npos] positional arguments and the keyword
    arguments [kws] binds to the parameters [ps]; when it does not, Python
    raises [TypeError] before the body runs.  Positional arguments fill the
    positional parameters from the left (the excess goes to the starred parameter); a
    keyword must name a parameter that takes keywords and is not already
    filled, or go to the double-starred parameter; every parameter without default must be
    filled. *)
Definition binds (ps : list param) (npos : nat) (kws : list string) : bool :=
  let positional := filter takes_position ps in
  let filled := map pname (firstn npos positional) in
  ((npos <=? List.length positional)%nat || existsb is_var_positional ps)
  && forallb (fun k =>
                if existsb (fun q => takes_keyword q && String.eqb (pname q) k) ps
                then negb (mem_string k filled)
                else existsb is_var_keyword ps) kws
  && forallb (fun q =>
                has_default q || is_var_positional q || is_var_keyword q
                || mem_string (pname q) filled
                || (takes_keyword q && mem_string (pname q) kws)) ps.

(** An external callable: the parameters that [inspect.signature] reports
    and what its body does once the arguments are bound. *)
Record callable : Type := mk_callable {
  fn_name : string;
  parameters : list param;
  fn_body : list pyval -> list (string * pyval) -> M pyval
}.

(** Entering a call in the history. *)
Definition log_call (c : call) (w : world) : world :=
  mk_world (files w) (stdout w) (clock w) (calls w ++ [c]).

(** Calling [f] with positional and keyword arguments.  The call is
    entered in the history whether or not the arguments bind. *)
Definition py_call (f : callable) (args : list pyval)
           (kwargs : list (string * pyval)) : M pyval :=
  fun w =>
    let w1 := log_call (mk_call (fn_name f) args kwargs) w in
    if binds (parameters f) (List.length args) (map fst kwargs)
    then fn_body f args kwargs w1
    else (w1, Raise (mk_exn TypeError (fn_name f))).

(** [list(inspect.signature(f).parameters.keys())] *)
Definition signature_keys (f : callable) : list string :=
  map pname (parameters f).

(** The four HLOC modules the script imports. *)
Record hloc_modules : Type := mk_hloc {
  pairs_from_exhaustive_main : callable;
  extract_features_confs : list (string * pyval);
  extract_features_main : callable;
  match_features_confs : list (string * pyval);
  match_features_main : callable;
  reconstruction_main : callable
}.

(** The command line after [parse_args()]. *)
Record arguments : Type := mk_arguments {
  arg_project : list path;
  arg_output_root : option path;
  arg_max_keypoints : Z
}.

(** The line separator ["\n"]. *)
Definition newline : string := String "010" EmptyString.

Definition IMG_EXTS : list string :=
  [".jpg"; ".jpeg"; ".png"; ".tif"; ".tiff"; ".bmp"].

(** A value used as a [str]: [v + ".h5"] raises [TypeError] otherwise. *)
Definition as_str (v : pyval) : M string :=
  match v with
  | VStr s => ret s
  | _ => raise TypeError "can only concatenate str"
  end.

(** [conf.get(key, default)]: a conf that is not a mapping has no [get]. *)
Definition conf_get (conf : pyval) (key : string) (default : pyval) : M pyval :=
  match conf with
  | VDict items =>
      ret (match dict_get key items with Some v => v | None => default end)
  | _ => raise OtherException "AttributeError: get"
  end.

(** [p.stat().st_mtime] of an entry that a glob has just listed, and
    [p.stat().st_mtime if p.exists() else 0]. *)
Definition mtime_or_zero (s : Fs.store) (p : path) : Z :=
  match Fs.lookup s p with
  | Some n => Fs.st_mtime n
  | None => 0
  end.

(** Order of the tuples [(mtime, path)]. *)
Definition tuple_leb (a b : Z * path) : bool :=
  (fst a <? fst b)%Z || ((fst a =? fst b)%Z && PurePath.leb (snd a) (snd b)).

(** The three file sets that make a complete model. *)
Definition issubset (names files : list string) : bool :=
  forallb (fun n => mem_string n files) names.

Definition is_model_file_set (files : list string) : bool :=
  issubset ["cameras.bin"; "images.bin"; "points3d.bin"] files
  || issubset ["cameras.bin"; "frames.bin"; "points3d.bin"] files
  || issubset ["cameras.txt"; "images.txt"; "points3d.txt"] files.


(* ================================================================== *)
(** ** The script *)

Section Script.

(** The imported HLOC modules, and [json.dumps(_, indent=2)]. *)
Variable hloc : hloc_modules.
Variable json_dumps : pyval -> string.

(** The entries below [images] that the script takes for images. *)
Definition has_image_ext (p : path) : bool :=
  mem_string (Str.lower (PurePath.suffix p)) IMG_EXTS.

Definition ensure_images_dir (project_dir : path) : M path :=
  let images := project_dir // "images" in
  e <- Os.exists_ images ;;
  d <- Os.is_dir images ;;
  if negb e || negb d then
    raise FileNotFoundError ("'images' folder not found in: " ++ PurePath.str project_dir)
  else
    all <- Os.rglob images "*" ;;
    let imgs := filter has_image_ext all in
    match imgs with
    | [] => raise FileNotFoundError ("No image files found under: " ++ PurePath.str images)
    | _ :: _ => ret images
    end.

Definition make_image_list_file (images_dir out_dir : path) : M path :=
  all <- Os.rglob images_dir "*" ;;
  let rels := Seq.sorted Str.leb
                (map (fun p => PurePath.str_rel (PurePath.relative_to images_dir p))
                     (filter has_image_ext all)) in
  let list_path := out_dir // "images.txt" in
  Os.write_text list_path (Str.join newline rels) ;;
  ret list_path.

Definition call_pairs_exhaustive (images_dir output_pairs image_list_path : path)
  : M pyval :=
  let f := pairs_from_exhaustive_main hloc in
  let params := signature_keys f in
  try_except
    (if mem_string "image_dir" params then
       py_call f [] [("image_dir", VPath images_dir); ("output", VPath output_pairs)]
     else if mem_string "image_list" params then
       py_call f [] [("image_list", VPath image_list_path); ("output", VPath output_pairs)]
     else
       let first := match params with p0 :: _ => p0 | [] => "image_dir" end in
       if Str.contains "list" first then
         py_call f [VPath image_list_path; VPath output_pairs] []
       else
         py_call f [VPath images_dir; VPath output_pairs] [])
    is_TypeError
    (try_except
       (py_call f [] [("image_list", VPath image_list_path); ("output", VPath output_pairs)])
       is_TypeError
       (py_call f [VPath images_dir; VPath output_pairs] [])).

(** [{**feats_conf, "model": {**feats_conf["model"], "max_keypoints": n}}]
    under [try ... except Exception: pass]: a conf that is no mapping, or
    whose ["model"] is no mapping, is left as it is. *)
Definition with_max_keypoints (feats_conf : pyval) (max_keypoints : Z) : pyval :=
  match feats_conf with
  | VDict items =>
      match dict_get "model" items with
      | Some (VDict model) =>
          VDict (dict_set "model"
                          (VDict (dict_set "max_keypoints" (VInt max_keypoints) model))
                          items)
      | _ => feats_conf
      end
  | _ => feats_conf
  end.

Definition call_extract_features (images_dir export_dir : path) (max_keypoints : Z)
  : M (path * string * pyval) :=
  let default :=
    VDict [("output", VStr "feats-superpoint");
           ("model", VDict [("name", VStr "superpoint"); ("nms_radius", VInt 3);
                            ("max_keypoints", VInt max_keypoints)]);
           ("preprocessing", VDict [("grayscale", VBool true); ("resize_max", VInt 1024)])] in
  let feats_conf0 :=
    match dict_get "superpoint_aachen" (extract_features_confs hloc) with
    | Some c => c
    | None => default
    end in
  let feats_conf := with_max_keypoints feats_conf0 max_keypoints in
  let f := extract_features_main hloc in
  try_except
    (py_call f [feats_conf; VPath images_dir; VPath export_dir] [] ;; ret tt)
    is_TypeError
    (try_except
       (py_call f [] [("conf", feats_conf); ("image_dir", VPath images_dir);
                      ("export_dir", VPath export_dir)] ;; ret tt)
       is_TypeError
       (let image_list := export_dir // "images.txt" in
        e <- Os.exists_ image_list ;;
        (if e then ret tt else Os.write_text image_list "") ;;
        py_call f [feats_conf; VPath image_list; VPath export_dir] [] ;; ret tt)) ;;
  found <- Os.glob export_dir "feats-*.h5" ;;
  s <- get_files ;;
  let candidates := Seq.sorted_by_key (mtime_or_zero s) found in
  feature_path <-
    match Seq.last_opt candidates with
    | Some c => ret c
    | None =>
        out <- conf_get feats_conf "output" (VStr "feats-superpoint") ;;
        base <- as_str out ;;
        ret (export_dir // (base ++ ".h5"))
    end ;;
  let features_name := PurePath.stem feature_path in
  ret (feature_path, features_name, feats_conf).

Definition find_matches_file (export_dir : path) (preferred_basename : string) (t0 : Z)
  : M path :=
  let preferred := export_dir // (preferred_basename ++ ".h5") in
  e <- Os.exists_ preferred ;;
  if e then ret preferred
  else
    s <- get_files ;;
    let recents :=
      flat_map (fun p =>
                  match Fs.lookup s p with
                  | None => []
                  | Some n =>
                      let mtime := Fs.st_mtime n in
                      let name_lower := Str.lower (PurePath.name p) in
                      if Str.contains "match" name_lower && (t0 - 1 * second <=? mtime)%Z
                      then [(mtime, p)] else []
                  end)
               (Fs.rglob s export_dir "*.h5") in
    match Seq.last_opt (Seq.sorted tuple_leb recents) with
    | Some r => ret (snd r)
    | None =>
        let any_matches :=
          Seq.sorted_by_key (mtime_or_zero s) (Fs.rglob s export_dir "matches*.h5") in
        match Seq.last_opt any_matches with
        | Some r => ret r
        | None =>
            let parent := PurePath.parent export_dir in
            let fallback :=
              Seq.sorted_by_key (mtime_or_zero s) (Fs.rglob s parent "matches*.h5") in
            match Seq.last_opt fallback with
            | Some r => ret r
            | None =>
                print "[DEBUG] Could not find matches file. Dump of .h5 under export_dir:" ;;
                for_each (Fs.rglob s export_dir "*.h5")
                         (fun p => print ("   - " ++ PurePath.str p)) ;;
                raise FileNotFoundError "Could not locate the exported matches .h5 file."
            end
        end
    end.

Definition call_match_features (pairs_path : path) (features_name : string)
           (export_dir : path) : M (path * pyval) :=
  let default :=
    VDict [("output", VStr "matches-superpoint-lightglue");
           ("model", VDict [("name", VStr "lightglue"); ("features", VStr "superpoint")])] in
  let matches_conf :=
    match dict_get "lightglue" (match_features_confs hloc) with
    | Some c => c
    | None => default
    end in
  let f := match_features_main hloc in
  t0 <- time_time ;;
  try_except
    (py_call f [matches_conf; VPath pairs_path; VStr features_name; VPath export_dir] [] ;;
     ret tt)
    is_TypeError
    (try_except
       (py_call f [] [("conf", matches_conf); ("pairs", VPath pairs_path);
                      ("features", VStr features_name); ("export_dir", VPath export_dir)] ;;
        ret tt)
       is_TypeError
       (py_call f [matches_conf; VPath pairs_path; VPath export_dir]
                [("features", VStr features_name)] ;;
        ret tt)) ;;
  out <- conf_get matches_conf "output" (VStr "matches-superpoint-lightglue") ;;
  base <- as_str out ;;
  match_path <- find_matches_file export_dir base t0 ;;
  ret (match_path, matches_conf).

Definition call_reconstruction (sfm_dir images_dir pairs_path feature_path match_path : path)
  : M pyval :=
  let f := reconstruction_main hloc in
  try_except
    (py_call f [VPath sfm_dir; VPath images_dir; VPath pairs_path;
                VPath feature_path; VPath match_path] [])
    is_TypeError
    (try_except
       (py_call f [] [("sfm_dir", VPath sfm_dir); ("image_dir", VPath images_dir);
                      ("pairs", VPath pairs_path); ("features", VPath feature_path);
                      ("matches", VPath match_path)])
       is_TypeError
       (py_call f [VPath images_dir; VPath sfm_dir; VPath pairs_path;
                   VPath feature_path; VPath match_path] [])).

(** [{q.name.lower() for q in d.glob("*")}] *)
Definition lowered_names (s : Fs.store) (d : path) : list string :=
  map (fun q => Str.lower (PurePath.name q)) (Fs.glob s d "*").

(** The list [candidates] of [locate_sparse_dir], before it is sorted: the
    directories below [sfm_dir] that hold a complete model. *)
Definition sparse_candidates (s : Fs.store) (sfm_dir : path) : list path :=
  filter (fun d => Fs.is_dir_node (Fs.lookup s d)
                   && is_model_file_set (lowered_names s d))
         (Fs.rglob s sfm_dir "*").

Definition locate_sparse_dir (sfm_dir : path) : M (option path) :=
  s <- get_files ;;
  let candidates :=
    Seq.sorted_by_key (fun p => Z.of_nat (PurePath.parts_len p))
                      (sparse_candidates s sfm_dir) in
  match candidates with
  | c :: _ => ret (Some c)
  | [] =>
      if is_model_file_set (lowered_names s sfm_dir)
      then ret (Some sfm_dir) else ret None
  end.

Definition move_file (src dst : path) : M unit :=
  Os.mkdir_parents_exist_ok (PurePath.parent dst) ;;
  e <- Os.exists_ dst ;;
  if e then
    returned <-
      try_except
        (a <- Os.stat src ;;
         b <- Os.stat dst ;;
         if (Fs.st_size a =? Fs.st_size b)%Z
         then Os.unlink src ;; ret true   (* identical -> remove src *)
         else ret false)
        (fun _ => true)
        (ret false) ;;
    if returned then ret tt
    else
      Os.unlink dst ;;                    (* different -> overwrite *)
      Os.shutil_move src dst
  else Os.shutil_move src dst.

Definition str_of_exn (e : exn) : string := exn_msg e.

Definition dedup_sparse_zero (sparse0 : path) : M unit :=
  e <- Os.exists_ sparse0 ;;
  if negb e then ret tt
  else
    bins <- Os.glob sparse0 "*.bin" ;;
    let has_bin := map PurePath.stem bins in
    txts <- Os.glob sparse0 "*.txt" ;;
    for_each txts
      (fun txt =>
         if mem_string (PurePath.stem txt) has_bin then
           fun w =>
             match Os.unlink txt w with
             | (w', Ret _) =>
                 print ("[CLEAN] removed duplicate text file: " ++ PurePath.name txt) w'
             | (w', Raise ex) =>
                 print ("[WARN] failed to remove " ++ PurePath.str txt ++ ": "
                        ++ str_of_exn ex) w'
             end
         else ret tt).

(** The loop over [sparse_src.rglob("*")] is modelled on the entries that
    the directory holds when the loop starts.  Python's generator lists a
    directory only when it reaches it; the two agree unless the loop puts
    entries into the tree it walks, which it does only when [sparse/0] of
    the output root lies at or below the directory walked. *)
Definition finalize_to_colmap_layout (project_out_root work_dir : path) : M unit :=
  db_candidates <- Os.rglob work_dir "database.db" ;;
  s <- get_files ;;
  match Seq.last_opt (Seq.sorted_by_key (mtime_or_zero s) db_candidates) with
  | Some db_src =>
      let db_dst := project_out_root // "database.db" in
      move_file db_src db_dst ;;
      print ("[COLMAP] database.db -> " ++ PurePath.str db_dst)
  | None => print "[WARN] No database.db found under hloc_work."
  end ;;
  let sfm_dir := work_dir // "sfm" in
  found <- locate_sparse_dir sfm_dir ;;
  found <- match found with
           | Some d => ret (Some d)
           | None => locate_sparse_dir work_dir
           end ;;
  match found with
  | None =>
      print ("[WARN] Could not find COLMAP sparse model under " ++ PurePath.str sfm_dir ++ ".")
  | Some sparse_src =>
      let sparse0 := project_out_root // "sparse" // "0" in
      e <- Os.exists_ sparse0 ;;
      (if negb e then Os.mkdir_parents_exist_ok sparse0 else ret tt) ;;
      ps <- Os.rglob sparse_src "*" ;;
      for_each ps
        (fun p =>
           d <- Os.is_dir p ;;
           if d then ret tt
           else move_file p (sparse0 // PurePath.name p)) ;;
      dedup_sparse_zero sparse0 ;;
      print ("[COLMAP] sparse -> " ++ PurePath.str sparse0 ++ " (cleaned duplicates)")
  end.

Definition run_sfm_for_project (project_dir : path) (output_root : option path)
           (max_keypoints : Z) : M unit :=
  images <- ensure_images_dir project_dir ;;
  let out_root := match output_root with Some o => o | None => project_dir end in
  let work_dir := out_root // "hloc_work" in
  Os.mkdir_parents_exist_ok work_dir ;;
  let manifest :=
    VDict [("project_dir", VStr (PurePath.str project_dir));
           ("images_dir", VStr (PurePath.str images));
           ("output_root", VStr (PurePath.str out_root));
           ("work_dir", VStr (PurePath.str work_dir));
           ("settings", VDict [("max_keypoints", VInt max_keypoints);
                               ("matching", VStr "lightglue");
                               ("features", VStr "superpoint");
                               ("pairing", VStr "exhaustive")])] in
  Os.write_text (work_dir // "run_manifest.json") (json_dumps manifest) ;;
  let sfm_dir := work_dir // "sfm" in
  e <- Os.exists_ sfm_dir ;;
  (if e then Os.rmtree sfm_dir else ret tt) ;;
  Os.mkdir_parents_exist_ok sfm_dir ;;
  image_list_path <- make_image_list_file images work_dir ;;
  let pairs_path := work_dir // "pairs-exhaustive.txt" in
  print ("[1/4] Generating exhaustive pairs -> " ++ PurePath.str pairs_path) ;;
  call_pairs_exhaustive images pairs_path image_list_path ;;
  print ("[2/4] Extracting SuperPoint features -> " ++ PurePath.str work_dir) ;;
  feats <- call_extract_features images work_dir max_keypoints ;;
  let feature_path := fst (fst feats) in
  let features_name := snd (fst feats) in
  print ("[3/4] Matching with LightGlue -> " ++ PurePath.str work_dir) ;;
  matched <- call_match_features pairs_path features_name work_dir ;;
  let match_path := fst matched in
  print ("[4/4] Running reconstruction -> " ++ PurePath.str sfm_dir) ;;
  call_reconstruction sfm_dir images pairs_path feature_path match_path ;;
  finalize_to_colmap_layout out_root work_dir ;;
  print "[DONE] COLMAP-style outputs ready (clean)." ;;
  print ("  - Output root: " ++ PurePath.str out_root) ;;
  print ("  - database.db: " ++ PurePath.str (out_root // "database.db") ++ " (if present)") ;;
  print ("  - sparse/0:    " ++ PurePath.str (out_root // "sparse" // "0")).

Definition main (args : arguments) : M unit :=
  let projects := arg_project args in
  let output_root := arg_output_root args in
  for_each projects
    (fun proj =>
       print (Str.repeat "=" 80) ;;
       print ("Processing project: " ++ PurePath.str proj) ;;
       run_sfm_for_project proj output_root (arg_max_keypoints args)).

End Script.

(* ================================================================== *)
(** ** Vocabulary of the statements *)

(** Replacing the file store of a world. *)
Definition set_files (s : Fs.store) (w : world) : world :=
  mk_world s (stdout w) (clock w) (calls w).

(** No prefix of the reversed path [rp] (itself included) names a regular
    file: what [mkdir(parents=True, exist_ok=True)] needs to succeed. *)
Fixpoint clear_way_rev (s : Fs.store) (rp : list string) : bool :=
  match rp with
  | [] => true
  | _ :: rp' => negb (Fs.is_file_node (Fs.lookup s (rev rp))) && clear_way_rev s rp'
  end.

Definition clear_way (s : Fs.store) (p : path) : bool := clear_way_rev s (rev p).

(** [p] names a regular file, or nothing. *)
Definition file_or_absent (s : Fs.store) (p : path) : bool :=
  match Fs.lookup s p with
  | Some (Fs.Dir _) => false
  | _ => true
  end.

(** The bytes of the regular file at [p]. *)
Definition content (s : Fs.store) (p : path) : option string :=
  match Fs.lookup s p with
  | Some (Fs.File d _) => Some d
  | _ => None
  end.

(** What [move_file] leaves in the store, for a regular file [src] and a
    destination that is a regular file or nothing. *)
Definition moved_store (s0 s1 : Fs.store) (src dst : path) (d : string) (t : Z)
  : Fs.store :=
  match Fs.lookup s0 dst with
  | Some (Fs.File d' _) =>
      if (Z.of_nat (String.length d) =? Z.of_nat (String.length d'))%Z
      then Fs.remove src s1
      else Fs.set dst (Fs.File d t) (Fs.remove src (Fs.remove dst s1))
  | _ => Fs.set dst (Fs.File d t) (Fs.remove src s1)
  end.

(** The entries that the time-window scan of [find_matches_file] retains:
    below the export directory, named [*.h5], with ["match"] in the lowered
    name, and modified no earlier than one second before [t0]. *)
Definition is_recent_match (s : Fs.store) (export_dir : path) (t0 : Z) (q : path) : bool :=
  PurePath.is_under export_dir q
  && Str.fnmatch "*.h5" (PurePath.name q)
  && Str.contains "match" (Str.lower (PurePath.name q))
  && match Fs.lookup s q with
     | Some n => (t0 - 1 * second <=? Fs.st_mtime n)%Z
     | None => false
     end.

(** A project fails input validation when [images] is not a directory of
    it, or when no entry below [images], at any depth, has a suffix that
    lowers to one of [IMG_EXTS]. *)
Definition lacks_images (s : Fs.store) (project_dir : path) : Prop :=
  Fs.is_dir_node (Fs.lookup s (project_dir // "images")) = false
  \/ (forall p, PurePath.is_under (project_dir // "images") p = true ->
                Fs.lookup s p <> None -> has_image_ext p = false).

(** The run raises in its first step, input validation: the exception is
    the one of [ensure_images_dir] and the world is as it was (no file
    written, no directory made, no stage called, nothing printed). *)
Definition raises_in_validation (hloc : hloc_modules) (json_dumps : pyval -> string)
           (project_dir : path) (output_root : option path) (max_keypoints : Z)
           (w : world) : Prop :=
  exists e,
    ensure_images_dir project_dir w = (w, Raise e)
    /\ exn_cls e = FileNotFoundError
    /\ run_sfm_for_project hloc json_dumps project_dir output_root max_keypoints w
       = (w, Raise e).

(** The paths, relative to the images directory, of the entries below it
    that have an image suffix, in the order of enumeration. *)
Definition image_rels (s : Fs.store) (images_dir : path) : list string :=
  map (fun p => PurePath.str_rel (PurePath.relative_to images_dir p))
      (filter has_image_ext (Fs.rglob s images_dir "*")).

(** The world once the driver has announced a project: the rule and the
    name of the project are printed. *)
Definition announced (proj : path) (w : world) : world :=
  mk_world (files w)
           (stdout w ++ [Str.repeat "=" 80; ("Processing project: " ++ PurePath.str proj)%string])
           (clock w) (calls w).

(** The bindings that the pairing and matching stages are tried with. *)

Section Bindings.

Variable hloc : hloc_modules.

(** [main(image_dir=..., output=...)], the preferred binding of the
    pairing stage, and [main(image_list=..., output=...)], the next one. *)
Definition pairs_kwargs_image_dir (images_dir output_pairs : path)
  : list (string * pyval) :=
  [("image_dir", VPath images_dir); ("output", VPath output_pairs)].

Definition pairs_kwargs_image_list (image_list_path output_pairs : path)
  : list (string * pyval) :=
  [("image_list", VPath image_list_path); ("output", VPath output_pairs)].

(** The conf that [call_match_features] passes. *)
Definition lightglue_conf : pyval :=
  match dict_get "lightglue" (match_features_confs hloc) with
  | Some c => c
  | None =>
      VDict [("output", VStr "matches-superpoint-lightglue");
             ("model", VDict [("name", VStr "lightglue"); ("features", VStr "superpoint")])]
  end.

(** The three bindings of the matching stage, in the order tried: all
    positional; all by keyword; three positional and [features] by
    keyword. *)
Definition match_args_1 (pairs_path : path) (features_name : string) (export_dir : path)
  : list pyval :=
  [lightglue_conf; VPath pairs_path; VStr features_name; VPath export_dir].

Definition match_kwargs_2 (pairs_path : path) (features_name : string) (export_dir : path)
  : list (string * pyval) :=
  [("conf", lightglue_conf); ("pairs", VPath pairs_path);
   ("features", VStr features_name); ("export_dir", VPath export_dir)].

Definition match_args_3 (pairs_path export_dir : path) : list pyval :=
  [lightglue_conf; VPath pairs_path; VPath export_dir].

Definition match_kwargs_3 (features_name : string) : list (string * pyval) :=
  [("features", VStr features_name)].

(** What [call_match_features] does once the stage has returned: it
    locates the match store written since [t0]. *)
Definition locate_after_matching (export_dir : path) (t0 : Z) : M (path * pyval) :=
  out <- conf_get lightglue_conf "output" (VStr "matches-superpoint-lightglue") ;;
  base <- as_str out ;;
  match_path <- find_matches_file export_dir base t0 ;;
  ret (match_path, lightglue_conf).

End Bindings.

(** The body of [f] does not raise [TypeError] on the given arguments. *)
Definition body_no_TypeError (f : callable) (args : list pyval)
           (kwargs : list (string * pyval)) : Prop :=
  forall w w' e, fn_body f args kwargs w = (w', Raise e) -> is_TypeError e = false.

(* ================================================================== *)
(** ** Example stages *)

(** The path passed under keyword [k], or at position [i]. *)
Definition arg_path (k : string) (i : nat) (args : list pyval)
           (kwargs : list (string * pyval)) : option path :=
  match dict_get k kwargs with
  | Some (VPath p) => Some p
  | _ => match nth_error args i with
         | Some (VPath p) => Some p
         | _ => None
         end
  end.

Definition required (k : string) : param := mk_param k POSITIONAL_OR_KEYWORD false.
Definition keyword_only (k : string) : param := mk_param k KEYWORD_ONLY false.

(** A pairing stage that takes the image list, not the image directory. *)
Definition demo_pairs : callable :=
  mk_callable "pairs_from_exhaustive.main"
    [required "image_list"; required "output"]
    (fun args kwargs =>
       match arg_path "output" 1 args kwargs with
       | Some out => Os.write_text out "pairs" ;; ret VNone
       | None => raise OtherException "output"
       end).

Definition demo_extract : callable :=
  mk_callable "extract_features.main"
    [required "conf"; required "image_dir"; required "export_dir"]
    (fun args kwargs =>
       match arg_path "export_dir" 2 args kwargs with
       | Some d => Os.write_text (d // "feats-superpoint.h5") "features" ;; ret VNone
       | None => raise OtherException "export_dir"
       end).

(** A matching stage whose parameters are keyword-only. *)
Definition demo_match : callable :=
  mk_callable "match_features.main"
    [keyword_only "conf"; keyword_only "pairs"; keyword_only "features";
     keyword_only "export_dir"]
    (fun args kwargs =>
       match arg_path "export_dir" 3 args kwargs with
       | Some d => Os.write_text (d // "matches-superpoint-lightglue.h5") "matches" ;; ret VNone
       | None => raise OtherException "export_dir"
       end).

Definition demo_reconstruction : callable :=
  mk_callable "reconstruction.main"
    [required "sfm_dir"; required "image_dir"; required "pairs"; required "features";
     required "matches"]
    (fun args kwargs =>
       match arg_path "sfm_dir" 0 args kwargs with
       | Some d =>
           Os.write_text (d // "database.db") "db" ;;
           Os.write_text (d // "cameras.bin") "C" ;;
           Os.write_text (d // "images.bin") "I" ;;
           Os.write_text (d // "points3D.bin") "P" ;;
           Os.write_text (d // "cameras.txt") "c" ;;
           ret VNone
       | None => raise OtherException "sfm_dir"
       end).

Definition demo_hloc : hloc_modules :=
  mk_hloc demo_pairs [] demo_extract [] demo_match demo_reconstruction.

Definition demo_json_dumps (v : pyval) : string := "{}".

(** A matching stage that takes the export directory third and the
    features by keyword only. *)
Definition demo_match_third : callable :=
  mk_callable "match_features.main"
    [required "config"; required "pair_list"; required "out_dir"; keyword_only "features"]
    (fun args kwargs =>
       match arg_path "out_dir" 2 args kwargs with
       | Some d => Os.write_text (d // "matches-superpoint-lightglue.h5") "matches" ;; ret VNone
       | None => raise OtherException "out_dir"
       end).

Definition demo_hloc_third : hloc_modules :=
  mk_hloc demo_pairs [] demo_extract [] demo_match_third demo_reconstruction.

(** A pairing stage that names its second parameter [out]: it has the
    parameter [image_list] and binds neither keyword binding. *)
Definition demo_pairs_out : callable :=
  mk_callable "pairs_from_exhaustive.main"
    [required "image_list"; required "out"]
    (fun args kwargs =>
       match arg_path "out" 1 args kwargs with
       | Some out => Os.write_text out "pairs" ;; ret VNone
       | None => raise OtherException "out"
       end).

Definition demo_hloc_out : hloc_modules :=
  mk_hloc demo_pairs_out [] demo_extract [] demo_match demo_reconstruction.

(* ================================================================== *)
(** ** Example worlds *)

(** An output root whose work area holds a fresher [cameras.bin] than the
    one already at the root. *)
Definition demo_store : Fs.store :=
  [ (["out"], Fs.Dir 0);
    (["out"; "hloc_work"], Fs.Dir 0);
    (["out"; "hloc_work"; "cameras.bin"], Fs.File "new-bytes" 20);
    (["out"; "cameras.bin"], Fs.File "old" 10) ].

Definition demo_world : world := mk_world demo_store [] 100 [].

(** The same tree when the two files have the same length and different
    bytes. *)
Definition stale_store : Fs.store :=
  [ (["out"], Fs.Dir 0);
    (["out"; "hloc_work"], Fs.Dir 0);
    (["out"; "hloc_work"; "points3D.bin"], Fs.File "NEW1" 20);
    (["out"; "points3D.bin"], Fs.File "OLD0" 10) ].

Definition stale_world : world := mk_world stale_store [] 100 [].

(** A work area after reconstruction: the database and, in the
    reconstruction subtree, a model in binary form, the text form of its
    cameras, and a text file of its own. *)
Definition model_store : Fs.store :=
  [ (["out"], Fs.Dir 0);
    (["out"; "hloc_work"], Fs.Dir 0);
    (["out"; "hloc_work"; "database.db"], Fs.File "db" 40);
    (["out"; "hloc_work"; "sfm"], Fs.Dir 0);
    (["out"; "hloc_work"; "sfm"; "cameras.bin"], Fs.File "CB" 50);
    (["out"; "hloc_work"; "sfm"; "images.bin"], Fs.File "IB" 50);
    (["out"; "hloc_work"; "sfm"; "points3D.bin"], Fs.File "PB" 50);
    (["out"; "hloc_work"; "sfm"; "cameras.txt"], Fs.File "CT" 50);
    (["out"; "hloc_work"; "sfm"; "notes.txt"], Fs.File "NT" 50) ].

Definition model_world : world := mk_world model_store [] 100 [].

Definition consolidated_world : world :=
  fst (finalize_to_colmap_layout ["out"] ["out"; "hloc_work"] model_world).

(** An output root that already holds both forms of the cameras in
    [sparse/0], with a work area in which no model was reconstructed. *)
Definition leftover_store : Fs.store :=
  [ (["out"], Fs.Dir 0);
    (["out"; "sparse"], Fs.Dir 0);
    (["out"; "sparse"; "0"], Fs.Dir 0);
    (["out"; "sparse"; "0"; "cameras.bin"], Fs.File "CB" 5);
    (["out"; "sparse"; "0"; "cameras.txt"], Fs.File "CT" 5);
    (["out"; "hloc_work"], Fs.Dir 0);
    (["out"; "hloc_work"; "sfm"], Fs.Dir 0) ].

Definition leftover_world : world := mk_world leftover_store [] 100 [].

(** A reconstruction subtree as HLOC leaves it: the model at its root and
    another model under [models/1]. *)
Definition nested_store : Fs.store :=
  [ (["out"], Fs.Dir 0);
    (["out"; "hloc_work"], Fs.Dir 0);
    (["out"; "hloc_work"; "sfm"], Fs.Dir 0);
    (["out"; "hloc_work"; "sfm"; "cameras.bin"], Fs.File "C" 50);
    (["out"; "hloc_work"; "sfm"; "images.bin"], Fs.File "I" 50);
    (["out"; "hloc_work"; "sfm"; "points3D.bin"], Fs.File "P" 50);
    (["out"; "hloc_work"; "sfm"; "models"], Fs.Dir 0);
    (["out"; "hloc_work"; "sfm"; "models"; "1"], Fs.Dir 0);
    (["out"; "hloc_work"; "sfm"; "models"; "1"; "cameras.bin"], Fs.File "c" 45);
    (["out"; "hloc_work"; "sfm"; "models"; "1"; "images.bin"], Fs.File "i" 45);
    (["out"; "hloc_work"; "sfm"; "models"; "1"; "points3D.bin"], Fs.File "p" 45) ].

Definition nested_world : world := mk_world nested_store [] 100 [].

(** A reconstruction subtree with a model two levels down and a copy of it
    four levels down; the deeper one is enumerated first. *)
Definition depths_store : Fs.store :=
  [ (["w"], Fs.Dir 0);
    (["w"; "a"], Fs.Dir 0);
    (["w"; "a"; "b"], Fs.Dir 0);
    (["w"; "a"; "b"; "c"], Fs.Dir 0);
    (["w"; "a"; "b"; "c"; "d"], Fs.Dir 0);
    (["w"; "a"; "b"; "c"; "d"; "cameras.bin"], Fs.File "c" 45);
    (["w"; "a"; "b"; "c"; "d"; "images.bin"], Fs.File "i" 45);
    (["w"; "a"; "b"; "c"; "d"; "points3D.bin"], Fs.File "p" 45);
    (["w"; "a"; "b"; "cameras.bin"], Fs.File "C" 50);
    (["w"; "a"; "b"; "images.bin"], Fs.File "I" 50);
    (["w"; "a"; "b"; "points3D.bin"], Fs.File "P" 50) ].

Definition depths_world : world := mk_world depths_store [] 100 [].

(** An export directory at invocation start [t0 = 100 s]: a match store
    written 2.5 s before, another written 0.2 s before, and a log written
    after both. *)
Definition export_store : Fs.store :=
  [ (["out"], Fs.Dir 0);
    (["out"; "hloc_work"], Fs.Dir 0);
    (["out"; "hloc_work"; "matches-old.h5"], Fs.File "old" 97500000);
    (["out"; "hloc_work"; "matches-new.h5"], Fs.File "new" 99800000);
    (["out"; "hloc_work"; "matching.log"], Fs.File "log" 101000000) ].

Definition export_world : world := mk_world export_store [] 100000000 [].

(** A project with three images, one of them in a subdirectory, and a
    text file; the work area exists. *)
Definition project_store : Fs.store :=
  [ (["proj"], Fs.Dir 0);
    (["proj"; "images"], Fs.Dir 0);
    (["proj"; "images"; "b.JPG"], Fs.File "bb" 1);
    (["proj"; "images"; "a.png"], Fs.File "aa" 2);
    (["proj"; "images"; "readme.txt"], Fs.File "rr" 3);
    (["proj"; "images"; "cam2"], Fs.Dir 0);
    (["proj"; "images"; "cam2"; "c.tiff"], Fs.File "cc" 4);
    (["proj"; "hloc_work"], Fs.Dir 0) ].

Definition project_world : world := mk_world project_store [] 100 [].

(** Two projects: [bad] has no [images] directory, [proj] is the example
    project. *)
Definition two_projects_world : world :=
  mk_world ((["bad"], Fs.Dir 0) :: project_store) [] 100 [].

Definition two_projects_args : arguments :=
  mk_arguments [["bad"]; ["proj"]] None 4096.

(* ================================================================== *)
(** ** Further example worlds *)

(** An export directory without any match store, beside a directory of
    another run that holds one. *)
Definition sibling_store : Fs.store :=
  [ (["out"], Fs.Dir 0);
    (["out"; "hloc_work"], Fs.Dir 0);
    (["out"; "hloc_work"; "feats-superpoint.h5"], Fs.File "f" 99000000);
    (["out"; "earlier_run"], Fs.Dir 0);
    (["out"; "earlier_run"; "matches-superpoint-lightglue.h5"], Fs.File "m" 5000000) ].

Definition sibling_world : world := mk_world sibling_store [] 100000000 [].

(* ================================================================== *)
(** ** Further vocabulary *)

(** The conf that [call_extract_features] passes: the library's
    ["superpoint_aachen"] entry, or the built-in default, with the keypoint
    cap written into its model. *)
Definition superpoint_conf (hloc : hloc_modules) (max_keypoints : Z) : pyval :=
  with_max_keypoints
    match dict_get "superpoint_aachen" (extract_features_confs hloc) with
    | Some c => c
    | None =>
        VDict [("output", VStr "feats-superpoint");
               ("model", VDict [("name", VStr "superpoint"); ("nms_radius", VInt 3);
                                ("max_keypoints", VInt max_keypoints)]);
               ("preprocessing", VDict [("grayscale", VBool true);
                                        ("resize_max", VInt 1024)])]
    end
    max_keypoints.

(** A reconstruction stage with a single parameter: none of the three
    bindings of [call_reconstruction] binds. *)
Definition demo_reconstruction_one : callable :=
  mk_callable "reconstruction.main" [required "options"] (fun _ _ => ret VNone).

Definition demo_hloc_broken : hloc_modules :=
  mk_hloc demo_pairs [] demo_reconstruction_one [] demo_match demo_reconstruction_one.


(** ** Frames *)

(** A property of the store that a computation keeps, whatever its
    outcome. *)
Definition keeps {A} (P : Fs.store -> Prop) (m : M A) : Prop :=
  forall (w w' : world) (o : outcome A), m w = (w', o) -> P (files w) -> P (files w').

(** [q] names [n]; [q] names nothing. *)
Definition entry (q : path) (n : Fs.node) (s : Fs.store) : Prop :=
  Fs.lookup s q = Some n.

Definition absent (q : path) (s : Fs.store) : Prop :=
  Fs.lookup s q = None.

(** A project after reconstruction, when the outputs go to the project
    directory itself: the images, and a work area that holds the database
    and a model. *)
Definition reconstructed_store : Fs.store :=
  [ (["proj"], Fs.Dir 0);
    (["proj"; "images"], Fs.Dir 0);
    (["proj"; "images"; "a.png"], Fs.File "aa" 2);
    (["proj"; "hloc_work"], Fs.Dir 0);
    (["proj"; "hloc_work"; "database.db"], Fs.File "db" 40);
    (["proj"; "hloc_work"; "sfm"], Fs.Dir 0);
    (["proj"; "hloc_work"; "sfm"; "cameras.bin"], Fs.File "CB" 50);
    (["proj"; "hloc_work"; "sfm"; "images.bin"], Fs.File "IB" 50);
    (["proj"; "hloc_work"; "sfm"; "points3D.bin"], Fs.File "PB" 50) ].

Definition reconstructed_world : world := mk_world reconstructed_store [] 100 [].

(** An output directory in which [database.db] is a directory. *)
Definition blocked_store : Fs.store :=
  [ (["out"], Fs.Dir 0);
    (["out"; "database.db"], Fs.Dir 7);
    (["out"; "hloc_work"], Fs.Dir 0);
    (["out"; "hloc_work"; "database.db"], Fs.File "db" 40) ].

Definition blocked_world : world := mk_world blocked_store [] 100 [].

(** A computation that calls no external callable, whatever its outcome. *)
Definition quiet {A} (m : M A) : Prop :=
  forall (w w' : world) (o : outcome A), m w = (w', o) -> calls w' = calls w.

(** A pairing stage that fails before it writes anything. *)
Definition demo_pairs_failing : callable :=
  mk_callable "pairs_from_exhaustive.main"
    [required "image_dir"; required "output"]
    (fun _ _ => raise OtherException "out of memory").

Definition demo_hloc_failing : hloc_modules :=
  mk_hloc demo_pairs_failing [] demo_extract [] demo_match demo_reconstruction.

(** ** Vocabulary of the consolidation *)

(** The consolidation up to its deduplication pass: the statements of
    [finalize_to_colmap_layout] that come before the call of
    [dedup_sparse_zero], in the same order.  The value says whether a
    reconstruction directory was found; when none was, the warning has been
    printed and [finalize_to_colmap_layout] returns. *)
Definition relocate (project_out_root work_dir : path) : M bool :=
  db_candidates <- Os.rglob work_dir "database.db" ;;
  s <- get_files ;;
  match Seq.last_opt (Seq.sorted_by_key (mtime_or_zero s) db_candidates) with
  | Some db_src =>
      let db_dst := project_out_root // "database.db" in
      move_file db_src db_dst ;;
      print ("[COLMAP] database.db -> " ++ PurePath.str db_dst)
  | None => print "[WARN] No database.db found under hloc_work."
  end ;;
  let sfm_dir := work_dir // "sfm" in
  found <- locate_sparse_dir sfm_dir ;;
  found <- match found with
           | Some d => ret (Some d)
           | None => locate_sparse_dir work_dir
           end ;;
  match found with
  | None =>
      print ("[WARN] Could not find COLMAP sparse model under " ++ PurePath.str sfm_dir ++ ".") ;;
      ret false
  | Some sparse_src =>
      let sparse0 := project_out_root // "sparse" // "0" in
      e <- Os.exists_ sparse0 ;;
      (if negb e then Os.mkdir_parents_exist_ok sparse0 else ret tt) ;;
      ps <- Os.rglob sparse_src "*" ;;
      for_each ps
        (fun p =>
           d <- Os.is_dir p ;;
           if d then ret tt
           else move_file p (sparse0 // PurePath.name p)) ;;
      ret true
  end.

(** The example work area once the model has been moved and before the
    duplicates are removed. *)
Definition relocated_world : world :=
  fst (relocate ["out"] ["out"; "hloc_work"] model_world).

(** ** Example worlds of the image filter *)

(** A project whose [images] holds no regular file with an image suffix:
    only a directory named like an image, with notes in it. *)
Definition dir_only_store : Fs.store :=
  [ (["proj"], Fs.Dir 0);
    (["proj"; "images"], Fs.Dir 0);
    (["proj"; "images"; "shots.PNG"], Fs.Dir 0);
    (["proj"; "images"; "shots.PNG"; "notes.txt"], Fs.File "n" 1);
    (["proj"; "hloc_work"], Fs.Dir 0) ].

Definition dir_only_world : world := mk_world dir_only_store [] 100 [].

(** A project with one image whose name is the byte [0xFF] followed by
    [.jpg]: not UTF-8.  The work area holds an image list of an earlier
    run. *)
Definition latin1_name : string := String (ascii_of_nat 255) ".jpg".

Definition latin1_store : Fs.store :=
  [ (["proj"], Fs.Dir 0);
    (["proj"; "images"], Fs.Dir 0);
    (["proj"; "images"; latin1_name], Fs.File "img" 1);
    (["proj"; "hloc_work"], Fs.Dir 0);
    (["proj"; "hloc_work"; "images.txt"], Fs.File "a.png" 5) ].

Definition latin1_world : world := mk_world latin1_store [] 100 [].
(* ================================================================== *)
(** * Properties *)

(** ** The file store *)

Section StoreFacts.

Lemma path_eqb_eq (p q : path) : PurePath.eqb p q = true <-> p = q.
Proof.
  unfold PurePath.eqb. destruct (list_eq_dec string_dec p q); split; congruence.
Qed.

Lemma path_eqb_refl (p : path) : PurePath.eqb p p = true.
Proof. apply path_eqb_eq; reflexivity. Qed.

Lemma path_eqb_neq (p q : path) : p <> q -> PurePath.eqb p q = false.
Proof.
  intros H. destruct (PurePath.eqb p q) eqn:E; [|reflexivity].
  apply path_eqb_eq in E. contradiction.
Qed.

Lemma assoc_remove_eq (p : path) (s : Fs.store) : Fs.assoc p (Fs.remove p s) = None.
Proof.
  induction s as [|[q n] s IH]; simpl; [reflexivity|].
  destruct (PurePath.eqb q p) eqn:E; simpl; [exact IH|].
  rewrite E. exact IH.
Qed.

Lemma assoc_remove_ne (p q : path) (s : Fs.store) :
  q <> p -> Fs.assoc q (Fs.remove p s) = Fs.assoc q s.
Proof.
  intros Hne. induction s as [|[r n] s IH]; simpl; [reflexivity|].
  destruct (PurePath.eqb r p) eqn:E; simpl.
  - apply path_eqb_eq in E. subst r.
    rewrite (path_eqb_neq (p:=p) (q:=q)) by congruence. exact IH.
  - destruct (PurePath.eqb r q); [reflexivity|exact IH].
Qed.

Lemma assoc_app (p : path) (s1 s2 : Fs.store) :
  Fs.assoc p (s1 ++ s2) =
  match Fs.assoc p s1 with Some n => Some n | None => Fs.assoc p s2 end.
Proof.
  induction s1 as [|[q n] s1 IH]; simpl; [reflexivity|].
  destruct (PurePath.eqb q p); [reflexivity|exact IH].
Qed.

Lemma lookup_root (s : Fs.store) : Fs.lookup s [] = Some (Fs.Dir 0).
Proof. reflexivity. Qed.

Lemma lookup_remove_eq (p : path) (s : Fs.store) :
  p <> [] -> Fs.lookup (Fs.remove p s) p = None.
Proof.
  destruct p; [congruence|]. intros _. simpl. apply assoc_remove_eq.
Qed.

Lemma lookup_remove_ne (p q : path) (s : Fs.store) :
  q <> p -> Fs.lookup (Fs.remove p s) q = Fs.lookup s q.
Proof.
  intros H. destruct q; [reflexivity|]. simpl. apply assoc_remove_ne; exact H.
Qed.

Lemma lookup_set_eq (p : path) (n : Fs.node) (s : Fs.store) :
  p <> [] -> Fs.lookup (Fs.set p n s) p = Some n.
Proof.
  destruct p as [|a p]; [congruence|]. intros _. unfold Fs.set. simpl.
  rewrite assoc_app, assoc_remove_eq. simpl. rewrite path_eqb_refl. reflexivity.
Qed.

Lemma lookup_set_ne (p q : path) (n : Fs.node) (s : Fs.store) :
  q <> p -> Fs.lookup (Fs.set p n s) q = Fs.lookup s q.
Proof.
  intros H. destruct q as [|a q]; [reflexivity|]. unfold Fs.set. simpl.
  rewrite assoc_app, assoc_remove_ne by exact H.
  destruct (Fs.assoc (a :: q) s); [reflexivity|]. simpl.
  rewrite path_eqb_neq by congruence. reflexivity.
Qed.

Lemma parent_length (p : path) :
  p <> [] -> List.length p = S (List.length (PurePath.parent p)).
Proof.
  intros H. unfold PurePath.parent.
  destruct (exists_last H) as [q [a ->]].
  rewrite removelast_last, length_app. simpl. lia.
Qed.

Lemma parent_neq (p : path) : p <> [] -> PurePath.parent p <> p.
Proof.
  intros H E. apply parent_length in H. rewrite E in H. lia.
Qed.

Lemma parent_div (p : path) (n : string) : PurePath.parent (p // n) = p.
Proof. unfold PurePath.parent, PurePath.div. apply removelast_last. Qed.

Lemma name_div (p : path) (n : string) : PurePath.name (p // n) = n.
Proof. unfold PurePath.name, PurePath.div. apply last_last. Qed.

End StoreFacts.

(** ** The monad *)

Section MonadFacts.

Lemma bind_Ret_inv {A B} (m : M A) (k : A -> M B) (w w' : world) (b : B) :
  bind m k w = (w', Ret b) ->
  exists w1 a, m w = (w1, Ret a) /\ k a w1 = (w', Ret b).
Proof.
  unfold bind. destruct (m w) as [w1 [a|e]]; intros H.
  - exists w1, a. auto.
  - discriminate.
Qed.


Lemma print_run (line : string) (w : world) :
  print line w = (mk_world (files w) (stdout w ++ [line]) (clock w) (calls w), Ret tt).
Proof. reflexivity. Qed.

End MonadFacts.

(** ** Globbing *)

Section GlobFacts.

Lemma mem_string_In (x : string) (l : list string) :
  mem_string x l = true <-> In x l.
Proof.
  unfold mem_string. rewrite existsb_exists. split.
  - intros [y [Hy E]]. apply String.eqb_eq in E. subst. exact Hy.
  - intros H. exists x. split; [exact H|apply String.eqb_refl].
Qed.

Lemma assoc_In (p : path) (n : Fs.node) (s : Fs.store) :
  Fs.assoc p s = Some n -> In (p, n) s.
Proof.
  induction s as [|[q m] s IH]; simpl; [discriminate|].
  destruct (PurePath.eqb q p) eqn:E.
  - apply path_eqb_eq in E. subst. intros H. inversion H. left. reflexivity.
  - intros H. right. apply IH. exact H.
Qed.

Lemma In_assoc (p : path) (n : Fs.node) (s : Fs.store) :
  In (p, n) s -> exists m, Fs.assoc p s = Some m.
Proof.
  induction s as [|[q m] s IH]; simpl; [tauto|].
  intros [H|H].
  - inversion H. subst. rewrite path_eqb_refl. eauto.
  - destruct (PurePath.eqb q p); eauto.
Qed.

Lemma is_under_div (root : path) (n : string) : PurePath.is_under root (root // n) = true.
Proof.
  unfold PurePath.div. induction root as [|a r IH]; simpl; [reflexivity|].
  rewrite String.eqb_refl. exact IH.
Qed.

Lemma div_nonempty (root : path) (n : string) : root // n <> [].
Proof. unfold PurePath.div. destruct root; discriminate. Qed.

Lemma parent_name (p : path) : p <> [] -> p = PurePath.parent p // PurePath.name p.
Proof.
  intros H. destruct (exists_last H) as [q [a ->]].
  fold (PurePath.div q a). rewrite parent_div, name_div. reflexivity.
Qed.

(** An entry directly in [root] whose name matches is listed by [glob]. *)
Lemma glob_complete (s : Fs.store) (root : path) (pat n : string) :
  Fs.lookup s (root // n) <> None ->
  Str.fnmatch pat n = true ->
  In (root // n) (Fs.glob s root pat).
Proof.
  intros Hl Hm. unfold Fs.glob.
  destruct (Fs.lookup s (root // n)) as [x|] eqn:E; [|congruence].
  assert (Hin : In (root // n, x) s).
  { apply assoc_In. pose proof (div_nonempty root n) as Hne.
    destruct (root // n); [congruence|exact E]. }
  apply in_map_iff. exists (root // n, x). split; [reflexivity|].
  apply filter_In. split; [exact Hin|]. simpl.
  rewrite is_under_div, parent_div, name_div, path_eqb_refl, Hm. reflexivity.
Qed.

(** What [glob] lists is an entry directly in [root] whose name matches. *)
Lemma glob_sound (s : Fs.store) (root : path) (pat : string) (q : path) :
  In q (Fs.glob s root pat) ->
  exists n, q = root // n /\ Str.fnmatch pat n = true /\ Fs.lookup s q <> None.
Proof.
  unfold Fs.glob. intros H. apply in_map_iff in H.
  destruct H as [[q' x] [Eq H]]. simpl in Eq. subst q'.
  apply filter_In in H. destruct H as [Hin Hf]. simpl in Hf.
  apply andb_true_iff in Hf. destruct Hf as [Hf Hm].
  apply andb_true_iff in Hf. destruct Hf as [Hu Hp].
  apply path_eqb_eq in Hp.
  assert (Hne : q <> []).
  { intros ->. destruct root; simpl in Hu; discriminate. }
  exists (PurePath.name q). split; [|split].
  - rewrite <- Hp. apply parent_name. exact Hne.
  - exact Hm.
  - destruct (In_assoc _ _ _ Hin) as [m Hm'].
    destruct q; [congruence|]. simpl. rewrite Hm'. discriminate.
Qed.

Lemma fnmatch_any (n : string) : Str.fnmatch "*" n = true.
Proof.
  induction n as [|c n IH]; [reflexivity|].
  simpl in *. exact IH.
Qed.

Lemma is_under_nonempty (root p : path) : PurePath.is_under root p = true -> p <> [].
Proof. intros H ->. destruct root; discriminate. Qed.

(** A directory below [root] is listed by [root.rglob("*")]. *)
Lemma rglob_any_complete (s : Fs.store) (root d : path) :
  PurePath.is_under root d = true -> Fs.lookup s d <> None ->
  In d (Fs.rglob s root "*").
Proof.
  intros Hu Hl. unfold Fs.rglob.
  destruct (Fs.lookup s d) as [x|] eqn:E; [|congruence].
  pose proof (@is_under_nonempty _ _ Hu) as Hne.
  assert (Hin : In (d, x) s).
  { apply assoc_In. destruct d; [congruence|exact E]. }
  apply in_map_iff. exists (d, x). split; [reflexivity|].
  apply filter_In. split; [exact Hin|]. simpl.
  rewrite Hu, fnmatch_any. reflexivity.
Qed.

Lemma rglob_sound (s : Fs.store) (root : path) (pat : string) (q : path) :
  In q (Fs.rglob s root pat) ->
  PurePath.is_under root q = true
  /\ Str.fnmatch pat (PurePath.name q) = true
  /\ Fs.lookup s q <> None.
Proof.
  unfold Fs.rglob. intros H. apply in_map_iff in H.
  destruct H as [[q' x] [Eq H]]. simpl in Eq. subst q'.
  apply filter_In in H. destruct H as [Hin Hf]. simpl in Hf.
  apply andb_true_iff in Hf. destruct Hf as [Hu Hm].
  split; [exact Hu|]. split; [exact Hm|].
  destruct (In_assoc _ _ _ Hin) as [m Hm'].
  pose proof (@is_under_nonempty _ _ Hu).
  destruct q; [congruence|]. simpl. rewrite Hm'. discriminate.
Qed.

End GlobFacts.

(** ** Sorting *)

Section SortFacts.

Variable A : Type.
Variable le : A -> A -> bool.

Lemma insert_perm (x : A) (l : list A) : Permutation (Seq.insert le x l) (x :: l).
Proof.
  induction l as [|y l IH]; simpl; [apply Permutation_refl|].
  destruct (le x y); [apply Permutation_refl|].
  eapply perm_trans; [apply perm_skip, IH|apply perm_swap].
Qed.

Lemma sorted_perm (l : list A) : Permutation (Seq.sorted le l) l.
Proof.
  induction l as [|x l IH]; simpl; [constructor|].
  eapply perm_trans; [apply insert_perm|apply perm_skip, IH].
Qed.

Hypothesis le_total : forall a b, le a b = true \/ le b a = true.

Lemma insert_Sorted (x : A) (l : list A) :
  Sorted (fun a b => le a b = true) l ->
  Sorted (fun a b => le a b = true) (Seq.insert le x l).
Proof.
  induction l as [|y l IH]; intros Hs; simpl.
  - repeat constructor.
  - destruct (le x y) eqn:E.
    + constructor; [exact Hs|constructor; exact E].
    + inversion Hs as [|? ? Hs' Hhd]; subst.
      constructor; [apply IH; exact Hs'|].
      destruct l as [|z l]; simpl.
      * constructor. destruct (le_total x y); congruence.
      * destruct (le x z).
        -- constructor. destruct (le_total x y); congruence.
        -- inversion Hhd; subst. constructor. assumption.
Qed.

Lemma sorted_Sorted (l : list A) : Sorted (fun a b => le a b = true) (Seq.sorted le l).
Proof.
  induction l as [|x l IH]; simpl; [constructor|].
  apply insert_Sorted. exact IH.
Qed.

End SortFacts.

Section SortByKey.

Variable A : Type.
Variable k : A -> Z.

(** The head of a list sorted by key has the least key, and the last
    element the greatest. *)
Lemma sorted_by_key_head (l : list A) (c : A) (r : list A) :
  Seq.sorted_by_key k l = c :: r ->
  In c l /\ forall x, In x l -> (k c <= k x)%Z.
Proof.
  revert c r. unfold Seq.sorted_by_key.
  induction l as [|a l IH]; intros c r H; simpl in H; [discriminate|].
  destruct (Seq.sorted (fun a b => (k a <=? k b)%Z) l) as [|c0 r0] eqn:E.
  - simpl in H. inversion H; subst.
    assert (l = []).
    { pose proof (sorted_perm (fun a b => (k a <=? k b)%Z) l) as P. rewrite E in P.
      apply Permutation_nil in P. exact P. }
    subst. split; [left; reflexivity|].
    intros x [<-|[]]. lia.
  - destruct (IH c0 r0 eq_refl) as [Hin Hmin].
    simpl in H. destruct (k a <=? k c0)%Z eqn:Ek.
    + inversion H; subst. apply Z.leb_le in Ek. split; [left; reflexivity|].
      intros x [<-|Hx]; [lia|]. specialize (Hmin x Hx). lia.
    + inversion H; subst. apply Z.leb_gt in Ek. split; [right; exact Hin|].
      intros x [<-|Hx]; [lia|]. apply Hmin; exact Hx.
Qed.

End SortByKey.

(** ** Sorting and the last element *)

Section SortLast.

Variable A : Type.
Variable le : A -> A -> bool.
Variable k : A -> Z.
Hypothesis le_key : forall a b, le a b = true -> (k a <= k b)%Z.
Hypothesis nle_key : forall a b, le a b = false -> (k b <= k a)%Z.

Lemma insert_key_sorted (x : A) (l : list A) :
  StronglySorted (fun a b => (k a <= k b)%Z) l ->
  StronglySorted (fun a b => (k a <= k b)%Z) (Seq.insert le x l).
Proof.
  induction l as [|y l IH]; intros Hs; simpl.
  - repeat constructor.
  - inversion Hs as [|? ? Hs' Hall]; subst.
    destruct (le x y) eqn:E.
    + constructor; [exact Hs|]. apply le_key in E.
      constructor; [exact E|].
      eapply Forall_impl; [|exact Hall]. simpl. intros; lia.
    + apply nle_key in E. constructor; [apply IH; exact Hs'|].
      eapply Permutation_Forall; [apply Permutation_sym, insert_perm|].
      constructor; assumption.
Qed.

Lemma sorted_key_sorted (l : list A) :
  StronglySorted (fun a b => (k a <= k b)%Z) (Seq.sorted le l).
Proof.
  induction l as [|x l IH]; simpl; [constructor|].
  apply insert_key_sorted. exact IH.
Qed.

Lemma strongly_sorted_last (l : list A) (r : A) :
  StronglySorted (fun a b => (k a <= k b)%Z) l ->
  Seq.last_opt l = Some r ->
  In r l /\ forall x, In x l -> (k x <= k r)%Z.
Proof.
  unfold Seq.last_opt. intros Hs Hl.
  destruct (rev l) as [|r' t] eqn:E; [discriminate|]. inversion Hl; subst r'.
  assert (El : l = rev t ++ [r]).
  { rewrite <- (rev_involutive l), E. reflexivity. }
  subst l. clear E Hl. split; [apply in_or_app; right; left; reflexivity|].
  induction (rev t) as [|a u IH]; simpl in *.
  - intros x [<-|[]]. lia.
  - inversion Hs as [|? ? Hs' Hall]; subst.
    intros x [<-|Hx].
    + rewrite Forall_forall in Hall. apply Hall.
      apply in_or_app; right; left; reflexivity.
    + apply IH; assumption.
Qed.

(** The last element of a sorted list has the greatest key. *)
Lemma sorted_last_max (l : list A) (r : A) :
  Seq.last_opt (Seq.sorted le l) = Some r ->
  In r l /\ forall x, In x l -> (k x <= k r)%Z.
Proof.
  intros H. apply strongly_sorted_last in H; [|apply sorted_key_sorted].
  destruct H as [H1 H2].
  pose proof (sorted_perm le l) as P. split.
  - eapply Permutation_in; [exact P|exact H1].
  - intros x Hx. apply H2. eapply Permutation_in; [apply Permutation_sym, P|exact Hx].
Qed.

Lemma sorted_last_some (l : list A) (x : A) :
  In x l -> exists r, Seq.last_opt (Seq.sorted le l) = Some r.
Proof.
  intros Hx. unfold Seq.last_opt.
  destruct (rev (Seq.sorted le l)) as [|r t] eqn:E; [|eauto].
  exfalso.
  assert (En : Seq.sorted le l = []).
  { rewrite <- (rev_involutive (Seq.sorted le l)), E. reflexivity. }
  pose proof (sorted_perm le l) as P. rewrite En in P.
  apply Permutation_nil in P. subst l. exact Hx.
Qed.

End SortLast.

(** ** The order of strings *)

Section StringOrder.

Lemma string_leb_refl (a : string) : String.leb a a = true.
Proof. destruct (String.leb_total a a); assumption. Qed.

Lemma string_compare_Gt_Lt (a b : string) :
  String.compare a b = Gt <-> String.compare b a = Lt.
Proof.
  rewrite (String.compare_antisym b a).
  destruct (String.compare a b); simpl; split; congruence.
Qed.

Lemma string_compare_lt_trans (a : string) :
  forall b c, String.compare a b = Lt -> String.compare b c = Lt ->
              String.compare a c = Lt.
Proof.
  induction a as [|x a IH]; intros [|y b] [|z c]; simpl; try congruence.
  unfold Ascii.compare.
  destruct (N.compare_spec (N_of_ascii x) (N_of_ascii y)) as [Exy|Lxy|Gxy];
    destruct (N.compare_spec (N_of_ascii y) (N_of_ascii z)) as [Eyz|Lyz|Gyz];
    try congruence; intros H1 H2.
  - rewrite Exy, Eyz, N.compare_refl. eapply IH; eassumption.
  - rewrite Exy. apply N.compare_lt_iff in Lyz. rewrite Lyz. reflexivity.
  - rewrite <- Eyz. apply N.compare_lt_iff in Lxy. rewrite Lxy. reflexivity.
  - assert (L : (N_of_ascii x < N_of_ascii z)%N) by (eapply N.lt_trans; eassumption).
    apply N.compare_lt_iff in L. rewrite L. reflexivity.
Qed.

Lemma string_leb_trans (a b c : string) :
  String.leb a b = true -> String.leb b c = true -> String.leb a c = true.
Proof.
  unfold String.leb. intros H1 H2.
  destruct (String.compare a b) eqn:E1; try discriminate;
    destruct (String.compare b c) eqn:E2; try discriminate.
  - apply String.compare_eq_iff in E1, E2. subst. exact (string_leb_refl c).
  - apply String.compare_eq_iff in E1. subst. rewrite E2. reflexivity.
  - apply String.compare_eq_iff in E2. subst. rewrite E1. reflexivity.
  - rewrite (@string_compare_lt_trans _ _ _ E1 E2). reflexivity.
Qed.

End StringOrder.

(** ** Sorting is canonical *)

Section SortCanonical.

Variable A : Type.
Variable le : A -> A -> bool.
Hypothesis le_total : forall a b, le a b = true \/ le b a = true.
Hypothesis le_trans : forall a b c, le a b = true -> le b c = true -> le a c = true.
Hypothesis le_antisym : forall a b, le a b = true -> le b a = true -> a = b.

Lemma insert_comm (x y : A) (s : list A) :
  Seq.insert le x (Seq.insert le y s) = Seq.insert le y (Seq.insert le x s).
Proof.
  induction s as [|z r IH]; simpl.
  - destruct (le x y) eqn:Exy, (le y x) eqn:Eyx; try reflexivity.
    + rewrite (@le_antisym _ _ Exy Eyx). reflexivity.
    + destruct (le_total x y); congruence.
  - destruct (le y z) eqn:Eyz, (le x z) eqn:Exz; simpl.
    + destruct (le x y) eqn:Exy, (le y x) eqn:Eyx; rewrite ?Eyz, ?Exz; try reflexivity.
      * rewrite (@le_antisym _ _ Exy Eyx). reflexivity.
      * destruct (le_total x y); congruence.
    + destruct (le x y) eqn:Exy.
      * rewrite (@le_trans _ _ _ Exy Eyz) in Exz. discriminate.
      * rewrite Exz, Eyz. reflexivity.
    + destruct (le y x) eqn:Eyx.
      * rewrite (@le_trans _ _ _ Eyx Exz) in Eyz. discriminate.
      * rewrite Exz, Eyz. reflexivity.
    + rewrite Exz, Eyz, IH. reflexivity.
Qed.

(** Two enumerations of the same elements sort to the same list. *)
Lemma sorted_canonical (l1 l2 : list A) :
  Permutation l1 l2 -> Seq.sorted le l1 = Seq.sorted le l2.
Proof.
  induction 1; simpl.
  - reflexivity.
  - rewrite IHPermutation. reflexivity.
  - apply insert_comm.
  - congruence.
Qed.

End SortCanonical.

(** ** Creating directories *)

Section Mkdir.

Lemma set_files_same (w : world) : set_files (files w) w = w.
Proof. destruct w; reflexivity. Qed.

Lemma rev_cons_parent (a : string) (rp : list string) :
  PurePath.parent (rev (a :: rp)) = rev rp.
Proof. simpl. unfold PurePath.parent. apply removelast_last. Qed.

Lemma rev_cons_nonempty (a : string) (rp : list string) : rev (a :: rp) <> [].
Proof. simpl. destruct (rev rp); discriminate. Qed.

Lemma clear_way_rev_parent (s : Fs.store) (rp : list string) :
  clear_way_rev s rp = true -> Fs.is_file_node (Fs.lookup s (rev rp)) = false.
Proof.
  destruct rp as [|a rp]; [reflexivity|].
  simpl clear_way_rev. intros H. apply andb_true_iff in H. destruct H as [H _].
  apply negb_true_iff in H. exact H.
Qed.

Lemma clear_way_rev_suffix (s : Fs.store) (rp : list string) :
  clear_way_rev s rp = true ->
  forall j, Fs.is_file_node (Fs.lookup s (rev (skipn j rp))) = false.
Proof.
  induction rp as [|a rp IH]; intros Hc j.
  - destruct j; reflexivity.
  - destruct j as [|j].
    + apply clear_way_rev_parent. exact Hc.
    + cbn [skipn]. apply IH. simpl in Hc. apply andb_true_iff in Hc. tauto.
Qed.

(** With no regular file on the way, a path that names nothing is
    reported as [ENOENT]. *)
Lemma clear_way_rev_through (s : Fs.store) (rp : list string) :
  clear_way_rev s rp = true -> Fs.through_file s (rev rp) = false.
Proof.
  intros Hc. unfold Fs.through_file.
  destruct (existsb _ _) eqn:E; [|reflexivity].
  apply existsb_exists in E. destruct E as [k [_ Hk]].
  rewrite firstn_rev in Hk. rewrite (clear_way_rev_suffix _ _ Hc) in Hk. discriminate.
Qed.

(** [mkdir(parents=True, exist_ok=True)] succeeds when no regular file is
    on the way; it leaves the path a directory, keeps every entry there
    was, and adds only directories no deeper than the path. *)
Lemma mkdir_parents_rev_ok (rp : list string) :
  forall w : world,
  clear_way_rev (files w) rp = true ->
  exists s',
    Os.mkdir_parents_rev rp w = (set_files s' w, Ret tt)
    /\ Fs.is_dir_node (Fs.lookup s' (rev rp)) = true
    /\ (forall q n, Fs.lookup (files w) q = Some n -> Fs.lookup s' q = Some n)
    /\ (forall q, Fs.lookup (files w) q = None ->
                  Fs.lookup s' q = None
                  \/ (Fs.is_dir_node (Fs.lookup s' q) = true
                      /\ (List.length q <= List.length rp)%nat)).
Proof.
  induction rp as [|a rp IH]; intros w Hc.
  - exists (files w). rewrite set_files_same. simpl. repeat split; auto.
  - pose proof (rev_cons_nonempty a rp) as Hne.
    pose proof (rev_cons_parent a rp) as Hpar.
    assert (Hc' : clear_way_rev (files w) rp = true).
    { simpl in Hc. apply andb_true_iff in Hc. tauto. }
    pose proof (clear_way_rev_parent _ _ Hc) as Hnf.
    pose proof (clear_way_rev_parent _ _ Hc') as Hnf'.
    set (p := rev (a :: rp)) in *.
    assert (Hlen : List.length p = S (List.length rp)).
    { unfold p. rewrite length_rev. reflexivity. }
    assert (Htf : Fs.through_file (files w) p = false).
    { unfold p. apply clear_way_rev_through. exact Hc. }
    cbn [Os.mkdir_parents_rev]. fold p.
    unfold Os.mkdir at 1. unfold Os.no_entry, bind, get_files, raise, put_files.
    rewrite Htf.
    destruct (Fs.lookup (files w) p) as [[d t|t]|] eqn:Ep.
    + simpl in Hnf. discriminate.
    + simpl. rewrite Ep. simpl. exists (files w). rewrite set_files_same.
      repeat split; auto. rewrite Ep; reflexivity.
    + rewrite Hpar.
      destruct (Fs.lookup (files w) (rev rp)) as [[d t|t]|] eqn:Epar.
      * simpl in Hnf'. discriminate.
      * exists (Fs.set p (Fs.Dir (clock w)) (files w)).
        split; [reflexivity|]. split; [|split].
        -- rewrite lookup_set_eq by exact Hne. reflexivity.
        -- intros q n Hq. rewrite lookup_set_ne; [exact Hq|]. congruence.
        -- intros q Hq. destruct (list_eq_dec string_dec q p) as [->|Hqp].
           ++ right. rewrite lookup_set_eq by exact Hne. split; [reflexivity|].
              simpl. lia.
           ++ left. rewrite lookup_set_ne by exact Hqp. exact Hq.
      * simpl.
        destruct (IH w Hc') as [s1 [Hrun [Hdir [Hkeep Hnew]]]].
        unfold bind. rewrite Hrun.
        assert (Ep1 : Fs.lookup s1 p = None).
        { destruct (Hnew p Ep) as [H|[_ H]]; [exact H|]. lia. }
        unfold Os.mkdir, bind, get_files. simpl.
        rewrite Ep1, Hpar.
        destruct (Fs.lookup s1 (rev rp)) as [[d t|t]|] eqn:Epar1; try discriminate.
        simpl.
        exists (Fs.set p (Fs.Dir (clock w)) s1).
        split; [reflexivity|]. split; [|split].
        -- rewrite lookup_set_eq by exact Hne. reflexivity.
        -- intros q n Hq. rewrite lookup_set_ne; [apply Hkeep; exact Hq|]. congruence.
        -- intros q Hq. destruct (list_eq_dec string_dec q p) as [->|Hqp].
           ++ right. rewrite lookup_set_eq by exact Hne. split; [reflexivity|].
              simpl. lia.
           ++ rewrite lookup_set_ne by exact Hqp.
              destruct (Hnew q Hq) as [H|[H1 H2]]; [left; exact H|right].
              split; [exact H1|]. simpl. lia.
Qed.

End Mkdir.

(** ** The move primitive *)

Section MoveFile.

Lemma mkdir_parents_exist_ok_ok (p : path) (w : world) :
  clear_way (files w) p = true ->
  exists s',
    Os.mkdir_parents_exist_ok p w = (set_files s' w, Ret tt)
    /\ Fs.is_dir_node (Fs.lookup s' p) = true
    /\ (forall q n, Fs.lookup (files w) q = Some n -> Fs.lookup s' q = Some n)
    /\ (forall q, Fs.lookup (files w) q = None ->
                  Fs.lookup s' q = None
                  \/ (Fs.is_dir_node (Fs.lookup s' q) = true
                      /\ (List.length q <= List.length p)%nat)).
Proof.
  intros H. unfold Os.mkdir_parents_exist_ok, clear_way in *.
  destruct (mkdir_parents_rev_ok (rev p) w H) as [s' [H1 [H2 [H3 H4]]]].
  exists s'. rewrite rev_involutive, length_rev in *. auto.
Qed.

Lemma move_file_run (w : world) (src dst : path) (d : string) (t : Z) :
  Fs.lookup (files w) src = Some (Fs.File d t) ->
  src <> dst ->
  file_or_absent (files w) dst = true ->
  clear_way (files w) (PurePath.parent dst) = true ->
  exists s1,
    move_file src dst w = (set_files (moved_store (files w) s1 src dst d t) w, Ret tt)
    /\ Fs.is_dir_node (Fs.lookup s1 (PurePath.parent dst)) = true
    /\ (forall q n, Fs.lookup (files w) q = Some n -> Fs.lookup s1 q = Some n)
    /\ (forall q, Fs.lookup (files w) q = None ->
                  Fs.lookup s1 q = None
                  \/ (Fs.is_dir_node (Fs.lookup s1 q) = true
                      /\ (List.length q <= List.length (PurePath.parent dst))%nat)).
Proof.
  intros Hsrc Hne Hdst Hway.
  destruct (mkdir_parents_exist_ok_ok _ w Hway) as [s1 [Hrun [Hdir [Hkeep Hnew]]]].
  exists s1. split; [|auto].
  assert (Hdne : dst <> []).
  { intros ->. unfold file_or_absent in Hdst. simpl in Hdst. discriminate. }
  assert (Hsne : src <> []).
  { intros ->. simpl in Hsrc. discriminate. }
  pose proof (Hkeep _ _ Hsrc) as Hsrc1.
  unfold move_file, bind. rewrite Hrun.
  unfold Os.exists_, bind, get_files, ret. simpl.
  unfold moved_store, file_or_absent in *.
  destruct (Fs.lookup (files w) dst) as [[d' t'|t']|] eqn:Ed; try discriminate.
  - (* the destination is a regular file *)
    rewrite (Hkeep _ _ Ed).
    unfold try_except, Os.stat, bind, get_files, ret. simpl.
    rewrite Hsrc1. simpl. rewrite (Hkeep _ _ Ed). simpl.
    destruct (Z.of_nat (String.length d) =? Z.of_nat (String.length d'))%Z eqn:Esz.
    + unfold Os.unlink, bind, get_files, put_files. simpl. rewrite Hsrc1. reflexivity.
    + unfold Os.unlink, bind, get_files, put_files. simpl.
      rewrite (Hkeep _ _ Ed). simpl.
      unfold Os.shutil_move, Os.is_dir, bind, get_files, ret. simpl.
      rewrite lookup_remove_eq by exact Hdne. simpl.
      unfold Os.rename, bind, get_files, put_files, ret. simpl.
      rewrite lookup_remove_ne by exact Hne. rewrite Hsrc1.
      rewrite lookup_remove_eq by exact Hdne.
      rewrite lookup_remove_ne by (apply parent_neq; exact Hdne).
      destruct (Fs.lookup s1 (PurePath.parent dst)) as [[?|?]|]; try discriminate.
      rewrite path_eqb_neq by exact Hne. reflexivity.
  - (* nothing at the destination *)
    assert (Ed1 : Fs.lookup s1 dst = None).
    { destruct (Hnew _ Ed) as [H|[_ H]]; [exact H|].
      rewrite (parent_length Hdne) in H. lia. }
    rewrite Ed1.
    unfold Os.shutil_move, Os.is_dir, bind, get_files, ret. simpl.
    rewrite Ed1. simpl.
    unfold Os.rename, bind, get_files, put_files, ret. simpl.
    rewrite Hsrc1, Ed1.
    destruct (Fs.lookup s1 (PurePath.parent dst)) as [[?|?]|]; try discriminate.
    rewrite path_eqb_neq by exact Hne. reflexivity.
Qed.

(** The effect of [move_file] on the store, entry by entry. *)
Lemma move_file_effect (w : world) (src dst : path) (d : string) (t : Z) :
  Fs.lookup (files w) src = Some (Fs.File d t) ->
  src <> dst ->
  file_or_absent (files w) dst = true ->
  clear_way (files w) (PurePath.parent dst) = true ->
  exists w',
    move_file src dst w = (w', Ret tt)
    /\ Fs.lookup (files w') src = None
    /\ Fs.lookup (files w') dst =
         match Fs.lookup (files w) dst with
         | Some (Fs.File d' t') =>
             if (Z.of_nat (String.length d) =? Z.of_nat (String.length d'))%Z
             then Some (Fs.File d' t')
             else Some (Fs.File d t)
         | _ => Some (Fs.File d t)
         end
    /\ Fs.is_dir_node (Fs.lookup (files w') (PurePath.parent dst)) = true
    /\ (forall q n, q <> src -> q <> dst ->
                    Fs.lookup (files w) q = Some n -> Fs.lookup (files w') q = Some n)
    /\ (forall q, q <> dst -> Fs.lookup (files w) q = None ->
                  Fs.is_file_node (Fs.lookup (files w') q) = false)
    /\ stdout w' = stdout w /\ clock w' = clock w /\ calls w' = calls w.
Proof.
  intros Hsrc Hne Hdst Hway.
  destruct (move_file_run w Hsrc Hne Hdst Hway) as [s1 [Hrun [Hdir [Hkeep Hnew]]]].
  assert (Hdne : dst <> []).
  { intros ->. unfold file_or_absent in Hdst. simpl in Hdst. discriminate. }
  assert (Hsne : src <> []).
  { intros ->. simpl in Hsrc. discriminate. }
  assert (Hpd : PurePath.parent dst <> dst) by (apply parent_neq; exact Hdne).
  assert (Hps : PurePath.parent dst <> src).
  { intros E. rewrite E in Hdir. rewrite (Hkeep _ _ Hsrc) in Hdir. discriminate. }
  assert (Hnf : forall q, Fs.lookup (files w) q = None ->
                          Fs.is_file_node (Fs.lookup s1 q) = false).
  { intros q Hq. destruct (Hnew q Hq) as [H|[H _]].
    - rewrite H; reflexivity.
    - destruct (Fs.lookup s1 q) as [[?|?]|]; simpl in *; congruence. }
  eexists. split; [exact Hrun|]. simpl. unfold moved_store.
  destruct (Fs.lookup (files w) dst) as [[d' t'|t']|] eqn:Ed.
  - destruct (Z.of_nat (String.length d) =? Z.of_nat (String.length d'))%Z.
    + repeat split.
      * apply lookup_remove_eq; exact Hsne.
      * rewrite lookup_remove_ne by congruence. apply Hkeep; exact Ed.
      * rewrite lookup_remove_ne by exact Hps. exact Hdir.
      * intros q n H1 H2 Hq. rewrite lookup_remove_ne by exact H1. apply Hkeep; exact Hq.
      * intros q H2 Hq. rewrite lookup_remove_ne by congruence. apply Hnf; exact Hq.
    + repeat split.
      * rewrite lookup_set_ne by exact Hne. apply lookup_remove_eq; exact Hsne.
      * apply lookup_set_eq; exact Hdne.
      * rewrite lookup_set_ne by exact Hpd.
        rewrite lookup_remove_ne by exact Hps.
        rewrite lookup_remove_ne by exact Hpd. exact Hdir.
      * intros q n H1 H2 Hq. rewrite lookup_set_ne by exact H2.
        rewrite lookup_remove_ne by exact H1.
        rewrite lookup_remove_ne by exact H2. apply Hkeep; exact Hq.
      * intros q H2 Hq. rewrite lookup_set_ne by exact H2.
        rewrite lookup_remove_ne by congruence.
        rewrite lookup_remove_ne by exact H2. apply Hnf; exact Hq.
  - unfold file_or_absent in Hdst. rewrite Ed in Hdst. discriminate.
  - repeat split.
    + rewrite lookup_set_ne by exact Hne. apply lookup_remove_eq; exact Hsne.
    + apply lookup_set_eq; exact Hdne.
    + rewrite lookup_set_ne by exact Hpd.
      rewrite lookup_remove_ne by exact Hps. exact Hdir.
    + intros q n H1 H2 Hq. rewrite lookup_set_ne by exact H2.
      rewrite lookup_remove_ne by exact H1. apply Hkeep; exact Hq.
    + intros q H2 Hq. rewrite lookup_set_ne by exact H2.
      rewrite lookup_remove_ne by congruence. apply Hnf; exact Hq.
Qed.

Lemma clear_way_rev_mono (s s' : Fs.store) (rp : list string) :
  (forall q, (List.length q <= List.length rp)%nat ->
             Fs.is_file_node (Fs.lookup s' q) = true ->
             Fs.is_file_node (Fs.lookup s q) = true) ->
  clear_way_rev s rp = true -> clear_way_rev s' rp = true.
Proof.
  induction rp as [|a rp IH]; intros Hm Hc; [reflexivity|].
  change (negb (Fs.is_file_node (Fs.lookup s' (rev (a :: rp)))) && clear_way_rev s' rp = true).
  change (negb (Fs.is_file_node (Fs.lookup s (rev (a :: rp)))) && clear_way_rev s rp = true) in Hc.
  apply andb_true_iff in Hc. destruct Hc as [H1 H2].
  apply andb_true_iff. split.
  - apply negb_true_iff.
    destruct (Fs.is_file_node (Fs.lookup s' (rev (a :: rp)))) eqn:E; [|reflexivity].
    apply Hm in E; [|rewrite length_rev; lia].
    rewrite E in H1. discriminate.
  - apply IH; [|exact H2]. intros q Hq. apply Hm. simpl. lia.
Qed.

End MoveFile.

(** ** Claims about the move primitive *)

Section MoveClaims.

(** C4.  The three cases of the move primitive, for a regular file [src],
    a distinct destination [dst] that names a regular file or nothing, and
    no regular file among the ancestors of [dst]: the call returns, the
    source is gone, and the destination is (i) what it was when it existed
    with the byte size of the source, (ii) the source's bytes and time when
    it existed with another size, (iii) the source's bytes and time, under
    a parent directory that now exists, when it did not exist.  Every other
    entry of the store is kept. *)
Theorem move_file_three_cases (w : world) (src dst : path) (d : string) (t : Z) :
  Fs.lookup (files w) src = Some (Fs.File d t) ->
  src <> dst ->
  file_or_absent (files w) dst = true ->
  clear_way (files w) (PurePath.parent dst) = true ->
  exists w',
    move_file src dst w = (w', Ret tt)
    /\ Fs.lookup (files w') src = None
    /\ Fs.lookup (files w') dst =
         match Fs.lookup (files w) dst with
         | Some (Fs.File d' t') =>
             if (Z.of_nat (String.length d) =? Z.of_nat (String.length d'))%Z
             then Some (Fs.File d' t')
             else Some (Fs.File d t)
         | _ => Some (Fs.File d t)
         end
    /\ Fs.is_dir_node (Fs.lookup (files w') (PurePath.parent dst)) = true
    /\ (forall q n, q <> src -> q <> dst ->
                    Fs.lookup (files w) q = Some n -> Fs.lookup (files w') q = Some n).
Proof.
  intros Hsrc Hne Hdst Hway.
  destruct (move_file_effect w Hsrc Hne Hdst Hway)
    as [w' [H1 [H2 [H3 [H4 [H5 _]]]]]].
  exists w'. auto.
Qed.

(** C5.  Idempotence of the move primitive.  After one application, the
    source is produced again at the same path with the same bytes (at any
    time [t2]) and the primitive is applied again: the second application
    returns without raising, removes the source, and leaves at the
    destination exactly the entry the first application left there. *)
Theorem move_file_idempotent (w : world) (src dst : path) (d : string) (t t2 : Z) :
  Fs.lookup (files w) src = Some (Fs.File d t) ->
  src <> dst ->
  file_or_absent (files w) dst = true ->
  clear_way (files w) (PurePath.parent dst) = true ->
  exists w1 w2,
    move_file src dst w = (w1, Ret tt)
    /\ move_file src dst (set_files (Fs.set src (Fs.File d t2) (files w1)) w1) = (w2, Ret tt)
    /\ Fs.lookup (files w2) dst = Fs.lookup (files w1) dst
    /\ Fs.lookup (files w2) src = None.
Proof.
  intros Hsrc Hne Hdst Hway.
  destruct (move_file_effect w Hsrc Hne Hdst Hway)
    as [w1 [R1 [S1 [D1 [P1 [K1 [N1 _]]]]]]].
  assert (Hsne : src <> []).
  { intros ->. simpl in Hsrc. discriminate. }
  set (w1' := set_files (Fs.set src (Fs.File d t2) (files w1)) w1).
  assert (Hsrc' : Fs.lookup (files w1') src = Some (Fs.File d t2)).
  { simpl. apply lookup_set_eq; exact Hsne. }
  assert (Hd' : Fs.lookup (files w1') dst = Fs.lookup (files w1) dst).
  { simpl. apply lookup_set_ne. congruence. }
  assert (Hsized : exists d' t',
             Fs.lookup (files w1) dst = Some (Fs.File d' t')
             /\ (Z.of_nat (String.length d) =? Z.of_nat (String.length d'))%Z = true).
  { rewrite D1. unfold file_or_absent in Hdst.
    destruct (Fs.lookup (files w) dst) as [[d' t'|t']|]; try discriminate.
    - destruct (Z.of_nat (String.length d) =? Z.of_nat (String.length d'))%Z eqn:E.
      + exists d', t'. auto.
      + exists d, t. split; [reflexivity|apply Z.eqb_refl].
    - exists d, t. split; [reflexivity|apply Z.eqb_refl]. }
  destruct Hsized as [d' [t' [Hd1 Hsz]]].
  assert (Hfoa : file_or_absent (files w1') dst = true).
  { unfold file_or_absent. rewrite Hd', Hd1. reflexivity. }
  assert (Hway' : clear_way (files w1') (PurePath.parent dst) = true).
  { unfold clear_way in *. apply clear_way_rev_mono with (s := files w); [|exact Hway].
    intros q Hlen Hq. rewrite length_rev in Hlen.
    destruct (list_eq_dec string_dec q src) as [->|Hqs].
    { rewrite Hsrc. reflexivity. }
    assert (Hqd : q <> dst).
    { intros ->. assert (dst <> []).
      { intros ->. unfold file_or_absent in Hdst. simpl in Hdst. discriminate. }
      rewrite (parent_length H) in Hlen. lia. }
    simpl in Hq. rewrite lookup_set_ne in Hq by exact Hqs.
    destruct (Fs.lookup (files w) q) as [n|] eqn:Eq.
    - rewrite (K1 q n Hqs Hqd Eq) in Hq. exact Hq.
    - rewrite (N1 q Hqd Eq) in Hq. discriminate. }
  destruct (move_file_effect w1' Hsrc' Hne Hfoa Hway')
    as [w2 [R2 [S2 [D2 _]]]].
  exists w1, w2. repeat split; auto.
  rewrite D2, Hd', Hd1, Hsz. reflexivity.
Qed.

(** C2, amended.  Identity is decided by byte size alone.  For a regular
    file [src] and an existing regular file [dst]: when the sizes differ the
    destination afterwards holds the source's bytes; when the sizes are
    equal the destination keeps its own bytes, whatever the source held, and
    the source is removed. *)
Theorem move_file_survivor (w : world) (src dst : path) (d d' : string) (t t' : Z) :
  Fs.lookup (files w) src = Some (Fs.File d t) ->
  Fs.lookup (files w) dst = Some (Fs.File d' t') ->
  src <> dst ->
  clear_way (files w) (PurePath.parent dst) = true ->
  exists w',
    move_file src dst w = (w', Ret tt)
    /\ Fs.lookup (files w') src = None
    /\ content (files w') dst =
         Some (if (String.length d =? String.length d')%nat then d' else d).
Proof.
  intros Hsrc Hdst Hne Hway.
  assert (Hfoa : file_or_absent (files w) dst = true).
  { unfold file_or_absent. rewrite Hdst. reflexivity. }
  destruct (move_file_effect w Hsrc Hne Hfoa Hway) as [w' [R [S1 [D _]]]].
  exists w'. split; [exact R|]. split; [exact S1|].
  unfold content. rewrite D, Hdst.
  destruct (String.length d =? String.length d')%nat eqn:E.
  - apply Nat.eqb_eq in E. rewrite E, Z.eqb_refl. reflexivity.
  - apply Nat.eqb_neq in E.
    destruct (Z.of_nat (String.length d) =? Z.of_nat (String.length d'))%Z eqn:E2;
      [|reflexivity].
    apply Z.eqb_eq in E2. lia.
Qed.

End MoveClaims.

Lemma move_file_three_cases_witness :
  exists w',
    move_file ["out"; "hloc_work"; "cameras.bin"] ["out"; "cameras.bin"] demo_world
      = (w', Ret tt)
    /\ Fs.lookup (files w') ["out"; "hloc_work"; "cameras.bin"] = None
    /\ Fs.lookup (files w') ["out"; "cameras.bin"] = Some (Fs.File "new-bytes" 20)
    /\ Fs.is_dir_node (Fs.lookup (files w') ["out"]) = true
    /\ (forall q n, q <> ["out"; "hloc_work"; "cameras.bin"] -> q <> ["out"; "cameras.bin"] ->
                    Fs.lookup (files demo_world) q = Some n ->
                    Fs.lookup (files w') q = Some n).
Proof.
  apply (@move_file_three_cases demo_world
           ["out"; "hloc_work"; "cameras.bin"] ["out"; "cameras.bin"] "new-bytes" 20).
  - reflexivity.
  - intro H; discriminate H.
  - reflexivity.
  - reflexivity.
Defined.

Lemma move_file_idempotent_witness :
  exists w1 w2,
    move_file ["out"; "hloc_work"; "cameras.bin"] ["out"; "cameras.bin"] demo_world
      = (w1, Ret tt)
    /\ move_file ["out"; "hloc_work"; "cameras.bin"] ["out"; "cameras.bin"]
         (set_files (Fs.set ["out"; "hloc_work"; "cameras.bin"]
                            (Fs.File "new-bytes" 30) (files w1)) w1)
       = (w2, Ret tt)
    /\ Fs.lookup (files w2) ["out"; "cameras.bin"] = Fs.lookup (files w1) ["out"; "cameras.bin"]
    /\ Fs.lookup (files w2) ["out"; "hloc_work"; "cameras.bin"] = None.
Proof.
  apply (@move_file_idempotent demo_world
           ["out"; "hloc_work"; "cameras.bin"] ["out"; "cameras.bin"] "new-bytes" 20 30).
  - reflexivity.
  - intro H; discriminate H.
  - reflexivity.
  - reflexivity.
Defined.

Lemma move_file_survivor_witness :
  exists w',
    move_file ["out"; "hloc_work"; "cameras.bin"] ["out"; "cameras.bin"] demo_world
      = (w', Ret tt)
    /\ Fs.lookup (files w') ["out"; "hloc_work"; "cameras.bin"] = None
    /\ content (files w') ["out"; "cameras.bin"] = Some "new-bytes".
Proof.
  apply (@move_file_survivor demo_world
           ["out"; "hloc_work"; "cameras.bin"] ["out"; "cameras.bin"]
           "new-bytes" "old" 20 10).
  - reflexivity.
  - reflexivity.
  - intro H; discriminate H.
  - reflexivity.
Defined.

(** C2, as stated, fails.  The source holds ["NEW1"], the destination holds
    ["OLD0"]: different bytes, same length.  The call returns, the
    destination still holds ["OLD0"], and no entry of the store holds the
    source's bytes any more. *)
Lemma move_file_equal_size_drops_source :
  content (files stale_world) ["out"; "hloc_work"; "points3D.bin"] = Some "NEW1"
  /\ content (files stale_world) ["out"; "points3D.bin"] = Some "OLD0"
  /\ exists w',
       move_file ["out"; "hloc_work"; "points3D.bin"] ["out"; "points3D.bin"] stale_world
         = (w', Ret tt)
       /\ content (files w') ["out"; "points3D.bin"] = Some "OLD0"
       /\ forall q, content (files w') q <> Some "NEW1".
Proof.
  split; [reflexivity|]. split; [reflexivity|].
  eexists. split; [vm_compute; reflexivity|].
  split; [reflexivity|].
  intros q. unfold content, Fs.lookup. simpl.
  destruct q as [|a q]; [discriminate|].
  repeat match goal with
         | |- context [PurePath.eqb ?x ?y] => destruct (PurePath.eqb x y)
         end; discriminate.
Qed.

(** Applying the primitive again to the same two paths, without producing
    the source again, is another matter: the source no longer exists, the
    size test raises inside the guarded block, and the destination is
    unlinked before the move fails. *)
Lemma move_file_again_without_source :
  exists w1 w2 e,
    move_file ["out"; "hloc_work"; "cameras.bin"] ["out"; "cameras.bin"] demo_world
      = (w1, Ret tt)
    /\ move_file ["out"; "hloc_work"; "cameras.bin"] ["out"; "cameras.bin"] w1
       = (w2, Raise e)
    /\ exn_cls e = FileNotFoundError
    /\ Fs.lookup (files w2) ["out"; "cameras.bin"] = None.
Proof.
  do 3 eexists. split; [vm_compute; reflexivity|].
  split; [vm_compute; reflexivity|]. split; reflexivity.
Qed.

(** ** The destination directory survives the moves *)

Section ParentSurvives.

Lemma is_under_div_r (r p : path) (n : string) :
  PurePath.is_under r p = true -> PurePath.is_under r (p // n) = true.
Proof.
  unfold PurePath.div. revert p. induction r as [|a r IH]; intros [|b p] H; simpl in *;
    try discriminate; try reflexivity.
  apply andb_true_iff in H. destruct H as [H1 H2]. rewrite H1. simpl. apply IH. exact H2.
Qed.

Lemma assoc_remove_tree_keep (p q : path) (s : Fs.store) :
  PurePath.eqb q p || PurePath.is_under p q = false ->
  Fs.assoc q (Fs.remove_tree p s) = Fs.assoc q s.
Proof.
  intros Hq. induction s as [|[r n] s IH]; simpl; [reflexivity|].
  destruct (PurePath.eqb r p || PurePath.is_under p r) eqn:E; simpl.
  - destruct (PurePath.eqb r q) eqn:Erq; [|exact IH].
    apply path_eqb_eq in Erq. subst r. congruence.
  - destruct (PurePath.eqb r q); [reflexivity|exact IH].
Qed.

Lemma lookup_rename_tree_keep (src dst q : path) (n : Fs.node) (s : Fs.store) :
  Fs.lookup s q = Some n ->
  PurePath.eqb q src || PurePath.is_under src q = false ->
  Fs.lookup (Fs.rename_tree src dst s) q = Some n.
Proof.
  intros Hq Hk. destruct q as [|a q]; [exact Hq|].
  unfold Fs.rename_tree. simpl in *.
  rewrite assoc_app, assoc_remove_tree_keep by exact Hk. rewrite Hq. reflexivity.
Qed.

(** [mkdir(parents=True, exist_ok=True)], when it returns, leaves a
    directory. *)
Lemma mkdir_parents_rev_dir (rp : list string) :
  forall w w' : world,
  Os.mkdir_parents_rev rp w = (w', Ret tt) ->
  Fs.is_dir_node (Fs.lookup (files w') (rev rp)) = true.
Proof.
  assert (Hmk : forall p w w', p <> [] -> Os.mkdir p w = (w', Ret tt) ->
                               Fs.is_dir_node (Fs.lookup (files w') p) = true).
  { intros p w w' Hne. unfold Os.mkdir, bind, get_files, raise, put_files.
    destruct (Fs.lookup (files w) p); [discriminate|].
    destruct (Fs.lookup (files w) (PurePath.parent p)) as [[?|?]|]; try discriminate.
    intros H. inversion H. simpl. rewrite lookup_set_eq by exact Hne. reflexivity. }
  induction rp as [|a rp IH]; intros w w' H.
  - reflexivity.
  - pose proof (rev_cons_nonempty a rp) as Hne.
    cbn [Os.mkdir_parents_rev] in H.
    destruct (Os.mkdir (rev (a :: rp)) w) as [w1 [[]|e]] eqn:E.
    + inversion H; subst. eapply Hmk; eassumption.
    + destruct (is_FileNotFoundError e).
      * unfold bind in H.
        destruct (Os.mkdir_parents_rev rp w1) as [w2 [[]|e2]]; [|discriminate].
        destruct (Os.mkdir (rev (a :: rp)) w2) as [w3 [[]|e3]] eqn:E3.
        -- inversion H; subst. eapply Hmk; eassumption.
        -- destruct (Fs.is_dir_node (Fs.lookup (files w3) (rev (a :: rp)))) eqn:Ed;
             [|discriminate].
           inversion H; subst. exact Ed.
      * destruct (Fs.is_dir_node (Fs.lookup (files w1) (rev (a :: rp)))) eqn:Ed;
          [|discriminate].
        inversion H; subst. exact Ed.
Qed.





End ParentSurvives.

(** ** The deduplication pass *)

Section Dedup.

(** The loop of [dedup_sparse_zero] never raises; it only removes, and it
    removes exactly listed text files whose stem is among the stems of the
    binary files; after it, no such listed path names a regular file. *)
Lemma dedup_loop (has_bin : list string) (txts : list path) :
  forall w : world,
  exists w',
    for_each txts
      (fun txt =>
         if mem_string (PurePath.stem txt) has_bin then
           fun w =>
             match Os.unlink txt w with
             | (w', Ret _) =>
                 print ("[CLEAN] removed duplicate text file: " ++ PurePath.name txt) w'
             | (w', Raise ex) =>
                 print ("[WARN] failed to remove " ++ PurePath.str txt ++ ": "
                        ++ str_of_exn ex) w'
             end
         else ret tt) w = (w', Ret tt)
    /\ (forall q, Fs.lookup (files w') q = Fs.lookup (files w) q
                  \/ (Fs.lookup (files w') q = None /\ In q txts
                      /\ mem_string (PurePath.stem q) has_bin = true))
    /\ (forall q, In q txts -> mem_string (PurePath.stem q) has_bin = true ->
                  Fs.is_file_node (Fs.lookup (files w') q) = false).
Proof.
  induction txts as [|txt txts IH]; intros w.
  - exists w. simpl. unfold ret. repeat split; auto. intros q [].
  - cbn [for_each]. unfold bind at 1.
    destruct (mem_string (PurePath.stem txt) has_bin) eqn:Em.
    + unfold Os.unlink at 1. unfold bind at 1. unfold get_files at 1.
      destruct (Fs.lookup (files w) txt) as [[d t|t]|] eqn:El.
      * (* a regular file: unlinked *)
        unfold put_files, print. cbn [files stdout clock calls].
        match goal with |- context [for_each txts ?b ?w1] =>
          destruct (IH w1) as [w' [Hrun [Hfr Hnf]]] end.
        cbn [files] in Hfr.
        assert (Htne : txt <> []) by (intros ->; simpl in El; discriminate).
        exists w'. split; [exact Hrun|]. split.
        -- intros q. destruct (Hfr q) as [H|[H1 [H2 H3]]].
           ++ destruct (list_eq_dec string_dec q txt) as [->|Hq].
              ** right. rewrite H, lookup_remove_eq by exact Htne.
                 repeat split; auto. left; reflexivity.
              ** left. rewrite H. apply lookup_remove_ne. exact Hq.
           ++ right. repeat split; auto. right; exact H2.
        -- intros q [<-|Hq] Hm.
           ++ destruct (Hfr txt) as [H|[H _]]; rewrite H; [|reflexivity].
              rewrite lookup_remove_eq by exact Htne. reflexivity.
           ++ apply Hnf; assumption.
      * (* a directory: the failure is reported *)
        unfold raise, print. cbn [files stdout clock calls].
        match goal with |- context [for_each txts ?b ?w1] =>
          destruct (IH w1) as [w' [Hrun [Hfr Hnf]]] end.
        cbn [files] in Hfr.
        exists w'. split; [exact Hrun|]. split.
        -- intros q. destruct (Hfr q) as [H|[H1 [H2 H3]]]; [left; exact H|].
           right. repeat split; auto. right; exact H2.
        -- intros q [<-|Hq] Hm.
           ++ destruct (Hfr txt) as [H|[H _]]; rewrite H; [|reflexivity].
              rewrite El. reflexivity.
           ++ apply Hnf; assumption.
      * unfold Os.no_entry, raise, print. cbn [files stdout clock calls].
        match goal with |- context [for_each txts ?b ?w1] =>
          destruct (IH w1) as [w' [Hrun [Hfr Hnf]]] end.
        cbn [files] in Hfr.
        exists w'. split; [exact Hrun|]. split.
        -- intros q. destruct (Hfr q) as [H|[H1 [H2 H3]]]; [left; exact H|].
           right. repeat split; auto. right; exact H2.
        -- intros q [<-|Hq] Hm.
           ++ destruct (Hfr txt) as [H|[H _]]; rewrite H; [|reflexivity].
              rewrite El. reflexivity.
           ++ apply Hnf; assumption.
    + unfold ret at 1.
      destruct (IH w) as [w' [Hrun [Hfr Hnf]]].
      exists w'. split; [exact Hrun|]. split.
      * intros q. destruct (Hfr q) as [H|[H1 [H2 H3]]]; [left; exact H|].
        right. repeat split; auto. right; exact H2.
      * intros q [<-|Hq] Hm; [congruence|]. apply Hnf; assumption.
Qed.

(** [dedup_sparse_zero] on an existing directory. *)
Lemma dedup_sparse_zero_effect (sparse0 : path) (w : world) :
  Fs.lookup (files w) sparse0 <> None ->
  exists w',
    dedup_sparse_zero sparse0 w = (w', Ret tt)
    /\ (forall q, Fs.lookup (files w') q = Fs.lookup (files w) q
                  \/ (Fs.lookup (files w') q = None
                      /\ In q (Fs.glob (files w) sparse0 "*.txt")
                      /\ In (PurePath.stem q)
                            (map PurePath.stem (Fs.glob (files w) sparse0 "*.bin"))))
    /\ (forall q, In q (Fs.glob (files w) sparse0 "*.txt") ->
                  In (PurePath.stem q)
                     (map PurePath.stem (Fs.glob (files w) sparse0 "*.bin")) ->
                  Fs.is_file_node (Fs.lookup (files w') q) = false).
Proof.
  intros He.
  unfold dedup_sparse_zero, Os.exists_, Os.glob, bind, get_files, ret.
  destruct (Fs.lookup (files w) sparse0) eqn:E; [|congruence]. simpl.
  destruct (dedup_loop (map PurePath.stem (Fs.glob (files w) sparse0 "*.bin"))
                       (Fs.glob (files w) sparse0 "*.txt") w)
    as [w' [Hrun [Hfr Hnf]]].
  exists w'. split; [exact Hrun|]. split.
  - intros q. destruct (Hfr q) as [H|[H1 [H2 H3]]]; [left; exact H|].
    right. repeat split; auto. apply mem_string_In. exact H3.
  - intros q H1 H2. apply Hnf; [exact H1|]. apply mem_string_In. exact H2.
Qed.

(** Only text files with a binary counterpart go. *)
Lemma dedup_sparse_zero_spec (sparse0 : path) (w w' : world) :
  Fs.lookup (files w) sparse0 <> None ->
  dedup_sparse_zero sparse0 w = (w', Ret tt) ->
  (forall nb nt,
      Str.fnmatch "*.bin" nb = true -> Str.fnmatch "*.txt" nt = true ->
      fst (PurePath.split_name nb) = fst (PurePath.split_name nt) ->
      Fs.lookup (files w') (sparse0 // nb) <> None ->
      Fs.is_file_node (Fs.lookup (files w') (sparse0 // nt)) = false)
  /\ (forall nt,
        (forall nb, Str.fnmatch "*.bin" nb = true ->
                    Fs.lookup (files w) (sparse0 // nb) <> None ->
                    fst (PurePath.split_name nb) <> fst (PurePath.split_name nt)) ->
        Fs.lookup (files w') (sparse0 // nt) = Fs.lookup (files w) (sparse0 // nt)).
Proof.
  intros He Hrun.
  destruct (dedup_sparse_zero_effect sparse0 w He) as [w1 [Hrun1 [Hfr Hnf]]].
  rewrite Hrun in Hrun1. inversion Hrun1. subst w1. clear Hrun1.
  assert (Hstem : forall n, PurePath.stem (sparse0 // n) = fst (PurePath.split_name n)).
  { intros n. unfold PurePath.stem. rewrite name_div. reflexivity. }
  split.
  - intros nb nt Hb Ht Hs Hbe.
    destruct (Fs.is_file_node (Fs.lookup (files w') (sparse0 // nt))) eqn:Ef; [|reflexivity].
    assert (Hbw : Fs.lookup (files w) (sparse0 // nb) <> None).
    { destruct (Hfr (sparse0 // nb)) as [H|[H _]]; congruence. }
    assert (Htw : Fs.lookup (files w) (sparse0 // nt) <> None).
    { destruct (Hfr (sparse0 // nt)) as [H|[H _]].
      - rewrite <- H. destruct (Fs.lookup (files w') (sparse0 // nt)); [discriminate|].
        simpl in Ef. discriminate.
      - rewrite H in Ef. simpl in Ef. discriminate. }
    rewrite <- Ef. apply Hnf.
    + apply glob_complete; assumption.
    + apply in_map_iff. exists (sparse0 // nb). split.
      * rewrite !Hstem. exact Hs.
      * apply glob_complete; assumption.
  - intros nt Hno.
    destruct (Hfr (sparse0 // nt)) as [H|[_ [_ H]]]; [exact H|].
    exfalso. apply in_map_iff in H. destruct H as [b [Hs Hb]].
    apply glob_sound in Hb. destruct Hb as [nb [-> [Hm Hl]]].
    rewrite !Hstem in Hs. exact (Hno nb Hm Hl Hs).
Qed.

End Dedup.

(** ** Consolidation *)

Section Finalize.

Lemma bind_assoc_run {A B C} (m : M A) (k : A -> M B) (k2 : B -> M C) (w : world) :
  bind (bind m k) k2 w = bind m (fun a => bind (k a) k2) w.
Proof. unfold bind. destruct (m w) as [w1 [a|e]]; reflexivity. Qed.

Lemma bind_ext_run {A B} (m : M A) (k k' : A -> M B) (w : world) :
  (forall a w1, k a w1 = k' a w1) -> bind m k w = bind m k' w.
Proof. intros H. unfold bind. destruct (m w) as [w1 [a|e]]; [apply H|reflexivity]. Qed.

(** [relocate] is the consolidation without its last two statements. *)
Lemma finalize_relocate_dedup (out work : path) (w : world) :
  finalize_to_colmap_layout out work w
  = (found <- relocate out work ;;
     if found then
       dedup_sparse_zero (out // "sparse" // "0") ;;
       print ("[COLMAP] sparse -> " ++ PurePath.str (out // "sparse" // "0")
              ++ " (cleaned duplicates)")
     else ret tt) w.
Proof.
  unfold finalize_to_colmap_layout, relocate.
  rewrite bind_assoc_run. apply bind_ext_run. intros dbc w1.
  rewrite bind_assoc_run. apply bind_ext_run. intros s w2.
  rewrite bind_assoc_run. apply bind_ext_run. intros u w3.
  rewrite bind_assoc_run. apply bind_ext_run. intros f1 w4.
  rewrite bind_assoc_run. apply bind_ext_run. intros found w5.
  destruct found as [sparse_src|].
  - rewrite bind_assoc_run. apply bind_ext_run. intros e w6.
    rewrite bind_assoc_run. apply bind_ext_run. intros u7 w7.
    rewrite bind_assoc_run. apply bind_ext_run. intros ps w8.
    rewrite bind_assoc_run. apply bind_ext_run. intros u8 w9.
    reflexivity.
  - reflexivity.
Qed.


End Finalize.


(** What relocation leaves in the example, and what the pass then does:
    both forms of the cameras and the notes are in [sparse/0] after
    relocation; the pass removes the text form of the cameras and keeps the
    notes, which have no binary counterpart. *)
Example relocated_world_sparse0 :
  relocate ["out"] ["out"; "hloc_work"] model_world = (relocated_world, Ret true)
  /\ content (files relocated_world) ["out"; "sparse"; "0"; "cameras.bin"] = Some "CB"
  /\ content (files relocated_world) ["out"; "sparse"; "0"; "cameras.txt"] = Some "CT"
  /\ content (files relocated_world) ["out"; "sparse"; "0"; "notes.txt"] = Some "NT"
  /\ files (fst (dedup_sparse_zero ["out"; "sparse"; "0"] relocated_world))
     = files consolidated_world.
Proof. vm_compute. repeat split. Qed.

(** The relocated model keeps its binary cameras and loses their text form;
    the text file without binary counterpart is kept. *)
Example consolidated_world_sparse0 :
  content (files consolidated_world) ["out"; "sparse"; "0"; "cameras.bin"] = Some "CB"
  /\ Fs.lookup (files consolidated_world) ["out"; "sparse"; "0"; "cameras.txt"] = None
  /\ content (files consolidated_world) ["out"; "sparse"; "0"; "notes.txt"] = Some "NT".
Proof. vm_compute. repeat split. Qed.


(** ** Discovery of the reconstruction directory *)

Section Locate.

(** C8, amended.  Discovery reads the store and returns; for every
    directory [d] strictly below the search root that holds a complete
    model, the directory it returns is itself a directory strictly below the
    search root holding a complete model, with no more path components than
    [d]. *)
Theorem locate_sparse_dir_shallowest (root d : path) (w : world) :
  PurePath.is_under root d = true ->
  Fs.is_dir_node (Fs.lookup (files w) d) = true ->
  is_model_file_set (lowered_names (files w) d) = true ->
  exists c,
    locate_sparse_dir root w = (w, Ret (Some c))
    /\ PurePath.is_under root c = true
    /\ Fs.is_dir_node (Fs.lookup (files w) c) = true
    /\ is_model_file_set (lowered_names (files w) c) = true
    /\ (PurePath.parts_len c <= PurePath.parts_len d)%nat.
Proof.
  intros Hu Hd Hm.
  assert (Hin : In d (sparse_candidates (files w) root)).
  { unfold sparse_candidates. apply filter_In. split.
    - apply rglob_any_complete; [exact Hu|].
      destruct (Fs.lookup (files w) d); [discriminate|]. simpl in Hd. discriminate.
    - rewrite Hd, Hm. reflexivity. }
  unfold locate_sparse_dir, bind, get_files.
  destruct (Seq.sorted_by_key (fun p => Z.of_nat (PurePath.parts_len p))
              (sparse_candidates (files w) root)) as [|c r] eqn:E.
  - exfalso.
    pose proof (sorted_perm (fun a b => (Z.of_nat (PurePath.parts_len a)
                                         <=? Z.of_nat (PurePath.parts_len b))%Z)
                            (sparse_candidates (files w) root)) as P.
    unfold Seq.sorted_by_key in E. rewrite E in P.
    apply Permutation_nil in P. rewrite P in Hin. exact Hin.
  - apply sorted_by_key_head in E. destruct E as [Hc Hmin].
    exists c. split; [reflexivity|].
    specialize (Hmin d Hin).
    unfold sparse_candidates in Hc. apply filter_In in Hc. destruct Hc as [Hr Hf].
    apply andb_true_iff in Hf. destruct Hf as [Hf1 Hf2].
    apply rglob_sound in Hr. destruct Hr as [Hr _].
    repeat split; auto. lia.
Qed.

(** The search root itself is only a fallback: it is returned when it holds
    a complete model and nothing below it does. *)
Lemma locate_sparse_dir_root_fallback (root : path) (w : world) :
  sparse_candidates (files w) root = [] ->
  locate_sparse_dir root w =
    (w, Ret (if is_model_file_set (lowered_names (files w) root)
             then Some root else None)).
Proof.
  intros H. unfold locate_sparse_dir, bind, get_files. rewrite H. simpl.
  destruct (is_model_file_set (lowered_names (files w) root)); reflexivity.
Qed.

End Locate.

Lemma locate_sparse_dir_shallowest_witness :
  exists c,
    locate_sparse_dir ["w"] depths_world = (depths_world, Ret (Some c))
    /\ PurePath.is_under ["w"] c = true
    /\ Fs.is_dir_node (Fs.lookup (files depths_world) c) = true
    /\ is_model_file_set (lowered_names (files depths_world) c) = true
    /\ (PurePath.parts_len c <= PurePath.parts_len ["w"; "a"; "b"; "c"; "d"])%nat.
Proof.
  apply (@locate_sparse_dir_shallowest ["w"] ["w"; "a"; "b"; "c"; "d"] depths_world).
  - reflexivity.
  - reflexivity.
  - vm_compute. reflexivity.
Defined.

(** With complete models at depth 2 and depth 4 below the search root, the
    one at depth 2 is selected, in whatever order they are enumerated. *)
Example locate_sparse_dir_depth_2_and_4 :
  locate_sparse_dir ["w"] depths_world = (depths_world, Ret (Some ["w"; "a"; "b"])).
Proof. vm_compute. reflexivity. Qed.

(** C8, as stated, fails.  The reconstruction subtree holds a complete
    model and so does [models/1] below it: two directories of the work area
    satisfy the binary signature, and discovery returns the deeper one. *)
Lemma locate_sparse_dir_prefers_nested :
  let sfm_dir := ["out"; "hloc_work"; "sfm"] in
  let nested := ["out"; "hloc_work"; "sfm"; "models"; "1"] in
  Fs.is_dir_node (Fs.lookup (files nested_world) sfm_dir) = true
  /\ is_model_file_set (lowered_names (files nested_world) sfm_dir) = true
  /\ Fs.is_dir_node (Fs.lookup (files nested_world) nested) = true
  /\ is_model_file_set (lowered_names (files nested_world) nested) = true
  /\ locate_sparse_dir sfm_dir nested_world = (nested_world, Ret (Some nested))
  /\ (PurePath.parts_len sfm_dir < PurePath.parts_len nested)%nat.
Proof.
  vm_compute. repeat split; lia.
Qed.

(** ** The match-file locator *)

Section Locator.

Lemma tuple_leb_key (a b : Z * path) : tuple_leb a b = true -> (fst a <= fst b)%Z.
Proof.
  unfold tuple_leb. intros H. apply orb_true_iff in H. destruct H as [H|H].
  - apply Z.ltb_lt in H. lia.
  - apply andb_true_iff in H. destruct H as [H _]. apply Z.eqb_eq in H. lia.
Qed.

Lemma tuple_nleb_key (a b : Z * path) : tuple_leb a b = false -> (fst b <= fst a)%Z.
Proof.
  unfold tuple_leb. intros H. apply orb_false_iff in H. destruct H as [H _].
  apply Z.ltb_ge in H. exact H.
Qed.

(** The list [recents] of [find_matches_file]. *)
Lemma recents_spec (s : Fs.store) (export_dir : path) (t0 m : Z) (q : path) :
  In (m, q)
     (flat_map (fun p =>
                  match Fs.lookup s p with
                  | None => []
                  | Some n =>
                      let mtime := Fs.st_mtime n in
                      let name_lower := Str.lower (PurePath.name p) in
                      if Str.contains "match" name_lower && (t0 - 1 * second <=? mtime)%Z
                      then [(mtime, p)] else []
                  end)
               (Fs.rglob s export_dir "*.h5"))
  <-> is_recent_match s export_dir t0 q = true /\ m = mtime_or_zero s q.
Proof.
  rewrite in_flat_map. unfold is_recent_match, mtime_or_zero. split.
  - intros [p [Hp Hin]]. apply rglob_sound in Hp. destruct Hp as [Hu [Hm _]].
    destruct (Fs.lookup s p) as [n|] eqn:E; [|destruct Hin].
    cbv zeta in Hin.
    destruct (Str.contains "match" (Str.lower (PurePath.name p))) eqn:Ec;
      [|destruct Hin].
    destruct (t0 - 1 * second <=? Fs.st_mtime n)%Z eqn:Et; [|destruct Hin].
    simpl in Hin. destruct Hin as [Hin|[]]. inversion Hin; subst.
    rewrite Hu, Hm, Ec, E, Et. split; reflexivity.
  - intros [H ->].
    apply andb_true_iff in H. destruct H as [H Ht].
    apply andb_true_iff in H. destruct H as [H Hc].
    apply andb_true_iff in H. destruct H as [Hu Hm].
    destruct (Fs.lookup s q) as [n|] eqn:E; [|discriminate].
    exists q. split.
    + unfold Fs.rglob. apply in_map_iff.
      assert (Hin : In (q, n) s).
      { apply assoc_In. pose proof (@is_under_nonempty _ _ Hu).
        destruct q; [congruence|exact E]. }
      exists (q, n). split; [reflexivity|]. apply filter_In.
      split; [exact Hin|]. cbn [fst]. rewrite Hu, Hm. reflexivity.
    + rewrite E. cbv zeta. rewrite Hc, Ht. left. reflexivity.
Qed.


End Locator.


(** Of two match stores, one modified more than 2 s before invocation start
    and one less than 0.5 s before it, the locator returns the latter. *)
Example find_matches_file_two_stores :
  find_matches_file ["out"; "hloc_work"] "matches-superpoint-lightglue" 100000000 export_world
  = (export_world, Ret ["out"; "hloc_work"; "matches-new.h5"]).
Proof. vm_compute. reflexivity. Qed.


(** ** Input validation *)

Section Validation.

Variable hloc : hloc_modules.
Variable json_dumps : pyval -> string.

Lemma filter_nil_iff {A} (f : A -> bool) (l : list A) :
  filter f l = [] <-> forall x, In x l -> f x = false.
Proof.
  induction l as [|a l IH]; simpl.
  - split; [intros _ x []|reflexivity].
  - destruct (f a) eqn:E; split.
    + discriminate.
    + intros H. specialize (H a (or_introl eq_refl)). congruence.
    + intros H x [<-|Hx]; [exact E|]. apply IH; assumption.
    + intros H. apply IH. intros x Hx. apply H. right; exact Hx.
Qed.

Lemma no_images_iff (s : Fs.store) (images : path) :
  filter has_image_ext (Fs.rglob s images "*") = []
  <-> forall p, PurePath.is_under images p = true ->
                Fs.lookup s p <> None -> has_image_ext p = false.
Proof.
  rewrite filter_nil_iff. split.
  - intros H p Hu Hl. apply H. apply rglob_any_complete; assumption.
  - intros H p Hp. apply rglob_sound in Hp. destruct Hp as [Hu [_ Hl]].
    apply H; assumption.
Qed.

(** What [ensure_images_dir] does, by cases. *)
Lemma ensure_images_dir_cases (project_dir : path) (w : world) :
  (lacks_images (files w) project_dir ->
   exists e, ensure_images_dir project_dir w = (w, Raise e)
             /\ exn_cls e = FileNotFoundError)
  /\ (~ lacks_images (files w) project_dir ->
      ensure_images_dir project_dir w = (w, Ret (project_dir // "images"))).
Proof.
  unfold lacks_images, ensure_images_dir, Os.exists_, Os.is_dir, Os.rglob,
    bind, get_files, ret, raise.
  set (images := project_dir // "images").
  destruct (Fs.lookup (files w) images) as [[d t|t]|] eqn:E; simpl.
  - split; [intros _; eexists; split; reflexivity|]. intros H. exfalso. apply H. left. reflexivity.
  - destruct (filter has_image_ext (Fs.rglob (files w) images "*")) as [|x l] eqn:Ef.
    + split; [intros _; eexists; split; reflexivity|].
      intros H. exfalso. apply H. right. apply no_images_iff. exact Ef.
    + split; [|reflexivity].
      intros [H|H]; [discriminate|].
      apply no_images_iff in H. congruence.
  - split; [intros _; eexists; split; reflexivity|]. intros H. exfalso. apply H. left. reflexivity.
Qed.

(** Validation, characterised on the code: the run raises in input
    validation, before the work area is made, the manifest written or any
    stage called, if and only if [images] is not a directory of the project
    or no entry below it, of any kind (regular file or directory, as
    [rglob] yields them), has a suffix that is, once lowered, one of
    [.jpg .jpeg .png .tif .tiff .bmp]. *)
Lemma run_raises_in_validation_iff (project_dir : path) (output_root : option path)
        (max_keypoints : Z) (w : world) :
  raises_in_validation hloc json_dumps project_dir output_root max_keypoints w
  <-> lacks_images (files w) project_dir.
Proof.
  destruct (ensure_images_dir_cases project_dir w) as [Hbad Hgood].
  unfold raises_in_validation. split.
  - intros [e [He _]].
    assert (Hd : lacks_images (files w) project_dir \/ ~ lacks_images (files w) project_dir).
    { unfold lacks_images.
      destruct (Fs.is_dir_node (Fs.lookup (files w) (project_dir // "images")));
        [|left; left; reflexivity].
      destruct (filter has_image_ext (Fs.rglob (files w) (project_dir // "images") "*"))
        eqn:Ef.
      - left. right. apply no_images_iff. exact Ef.
      - right. intros [H|H]; [discriminate|]. apply no_images_iff in H. congruence. }
    destruct Hd as [H|H]; [exact H|].
    rewrite (Hgood H) in He. discriminate.
  - intros H. destruct (Hbad H) as [e [He Hc]].
    exists e. split; [exact He|]. split; [exact Hc|].
    unfold run_sfm_for_project, bind. rewrite He. reflexivity.
Qed.

(** When no directory below [images] carries an image suffix, the entries
    that count are the regular files. *)
Lemma lacks_images_regular_files (s : Fs.store) (project_dir : path) :
  (forall p, PurePath.is_under (project_dir // "images") p = true ->
             Fs.is_dir_node (Fs.lookup s p) = true -> has_image_ext p = false) ->
  (lacks_images s project_dir
   <-> Fs.is_dir_node (Fs.lookup s (project_dir // "images")) = false
       \/ (forall p, PurePath.is_under (project_dir // "images") p = true ->
                     Fs.is_file_node (Fs.lookup s p) = true -> has_image_ext p = false)).
Proof.
  intros Hdirs. unfold lacks_images. split; intros [H|H]; auto; right; intros p Hu Hp.
  - apply H; [exact Hu|]. destruct (Fs.lookup s p); [discriminate|]. simpl in Hp. discriminate.
  - destruct (Fs.lookup s p) as [[d t|t]|] eqn:E; [| |congruence].
    + apply H; [exact Hu|]. rewrite E. reflexivity.
    + apply Hdirs; [exact Hu|]. rewrite E. reflexivity.
Qed.

End Validation.

(** In the example project [dir_only_world] no regular file below [images]
    has an image suffix. *)
Lemma dir_only_world_no_image_file (p : path) :
  PurePath.is_under ["proj"; "images"] p = true ->
  Fs.is_file_node (Fs.lookup (files dir_only_world) p) = true ->
  has_image_ext p = false.
Proof.
  intros _ Hf. destruct p as [|a p]; [discriminate Hf|].
  destruct (Fs.lookup (files dir_only_world) (a :: p)) as [[d t|t]|] eqn:E;
    try discriminate Hf.
  apply assoc_In in E. simpl in E.
  destruct E as [E|[E|[E|[E|[E|[]]]]]]; inversion E. reflexivity.
Qed.

(** C9.  The claim fails on the code at a project whose [images] holds no
    regular file with an image suffix but a directory named [shots.PNG].
    The claim has the run raise before any stage.  The filter of
    [ensure_images_dir] tests the suffix of every entry that [rglob] yields
    and has no [is_file] test (the script's own message speaks of image
    files, and its other loops do tell directories from files), so the run
    passes validation, writes the manifest and calls the stages. *)
Theorem run_accepts_directory_named_like_image :
  (forall p, PurePath.is_under ["proj"; "images"] p = true ->
             Fs.is_file_node (Fs.lookup (files dir_only_world) p) = true ->
             has_image_ext p = false)
  /\ ensure_images_dir ["proj"] dir_only_world = (dir_only_world, Ret ["proj"; "images"])
  /\ ~ raises_in_validation demo_hloc demo_json_dumps ["proj"] None 4096 dir_only_world
  /\ Fs.is_file_node
       (Fs.lookup (files (fst (run_sfm_for_project demo_hloc demo_json_dumps ["proj"] None
                                 4096 dir_only_world)))
                  ["proj"; "hloc_work"; "run_manifest.json"]) = true
  /\ calls (fst (run_sfm_for_project demo_hloc demo_json_dumps ["proj"] None 4096
                   dir_only_world))
     <> calls dir_only_world.
Proof.
  split; [exact dir_only_world_no_image_file|].
  split; [vm_compute; reflexivity|].
  split.
  - intros [e [He _]]. vm_compute in He. discriminate He.
  - split; [vm_compute; reflexivity|]. vm_compute. intro H; discriminate H.
Qed.

(** ** The image list *)

Section ImageList.

Lemma join_snoc (sep : string) (xs : list string) (x : string) :
  exists pre, Str.join sep (xs ++ [x]) = (pre ++ x)%string.
Proof.
  induction xs as [|a xs [pre IH]].
  - exists EmptyString. reflexivity.
  - exists (a ++ sep ++ pre)%string. simpl.
    destruct (xs ++ [x]) as [|b r] eqn:E.
    + destruct xs; discriminate.
    + rewrite IH.
      assert (Happ : forall u v t : string, ((u ++ v) ++ t = u ++ v ++ t)%string).
      { intros u v t. induction u; simpl; congruence. }
      rewrite !Happ. reflexivity.
Qed.

(** Well-formed UTF-8: the state between two characters does not depend
    on the bounds, and a text cut at an ASCII byte is well formed when both
    sides are. *)
Lemma valid_utf8_from_0 (s : string) (lo hi lo' hi' : N) :
  Str.valid_utf8_from s 0 lo hi = Str.valid_utf8_from s 0 lo' hi'.
Proof. destruct s; reflexivity. Qed.

Lemma valid_utf8_from_cut (a : string) (c : ascii) (b : string) :
  (N_of_ascii c < 128)%N ->
  forall (k : nat) (lo hi : N), (128 <= lo)%N ->
  Str.valid_utf8_from (a ++ String c b) k lo hi
  = Str.valid_utf8_from a k lo hi && Str.valid_utf8 b.
Proof.
  intros Hc. induction a as [|x a IH]; intros k lo hi Hlo.
  - cbn [append]. destruct k as [|k].
    + cbn [Str.valid_utf8_from Nat.eqb andb].
      apply N.ltb_lt in Hc. rewrite Hc. reflexivity.
    + cbn [Str.valid_utf8_from Nat.eqb andb].
      assert (E : (lo <=? N_of_ascii c)%N = false) by (apply N.leb_gt; lia).
      rewrite E. reflexivity.
  - cbn [append Str.valid_utf8_from]. destruct k as [|k].
    + repeat match goal with
             | |- context [if ?t then _ else _] => destruct t
             end;
        try reflexivity; apply IH; lia.
    + rewrite IH by lia. rewrite !andb_assoc. reflexivity.
Qed.

Lemma valid_utf8_join_newline (xs : list string) :
  Str.valid_utf8 (Str.join newline xs) = forallb Str.valid_utf8 xs.
Proof.
  induction xs as [|x xs IH]; [reflexivity|].
  destruct xs as [|y r].
  - cbn [Str.join forallb]. rewrite andb_true_r. reflexivity.
  - change (Str.join newline (x :: y :: r))
      with (x ++ String "010" (Str.join newline (y :: r)))%string.
    unfold Str.valid_utf8 at 1.
    rewrite valid_utf8_from_cut by (try reflexivity; lia).
    rewrite IH. reflexivity.
Qed.

Lemma forallb_perm {A} (f : A -> bool) (l l' : list A) :
  Permutation l l' -> forallb f l = forallb f l'.
Proof.
  intros P. induction P; simpl; try congruence.
  rewrite !andb_assoc, (andb_comm (f y)). reflexivity.
Qed.

(** The text of the image list is well-formed UTF-8 exactly when every
    listed path is. *)
Lemma image_list_text_valid (s : Fs.store) (images_dir : path) :
  Str.valid_utf8 (Str.join newline (Seq.sorted Str.leb (image_rels s images_dir)))
  = forallb (fun p => Str.valid_utf8
                        (PurePath.str_rel (PurePath.relative_to images_dir p)))
            (filter has_image_ext (Fs.rglob s images_dir "*")).
Proof.
  rewrite valid_utf8_join_newline.
  rewrite (forallb_perm _ (sorted_perm Str.leb (image_rels s images_dir))).
  unfold image_rels.
  induction (filter has_image_ext (Fs.rglob s images_dir "*")) as [|p l IH];
    simpl; congruence.
Qed.

(** With the output directory in place and every listed path well-formed
    UTF-8, [make_image_list_file] returns the path of [images.txt] there,
    and afterwards that file holds the lines [rels] joined by single
    newlines, so ending with the last path and not with a newline, where
    [rels] is the sorted rearrangement of the paths, relative to the images
    directory, of the entries below it (of any kind, as [rglob] yields
    them) whose lowered suffix is in the allow-list; it is the same for
    every store that enumerates the same paths, in whatever order. *)
Lemma make_image_list_file_writes (images_dir out_dir : path) (w : world) :
  Fs.is_dir_node (Fs.lookup (files w) out_dir) = true ->
  file_or_absent (files w) (out_dir // "images.txt") = true ->
  (forall p, In p (Fs.rglob (files w) images_dir "*") -> has_image_ext p = true ->
             Str.valid_utf8 (PurePath.str_rel (PurePath.relative_to images_dir p)) = true) ->
  exists w' rels,
    make_image_list_file images_dir out_dir w = (w', Ret (out_dir // "images.txt"))
    /\ content (files w') (out_dir // "images.txt") = Some (Str.join newline rels)
    /\ (forall xs x, rels = xs ++ [x] ->
                     exists pre, Str.join newline rels = (pre ++ x)%string)
    /\ Permutation rels (image_rels (files w) images_dir)
    /\ Sorted (fun a b => String.leb a b = true) rels
    /\ (forall s2, Permutation (image_rels s2 images_dir) (image_rels (files w) images_dir) ->
                   Seq.sorted Str.leb (image_rels s2 images_dir) = rels).
Proof.
  intros Hdir Hfoa Hutf.
  assert (Hv : Str.valid_utf8
                 (Str.join newline (Seq.sorted Str.leb (image_rels (files w) images_dir)))
               = true).
  { rewrite image_list_text_valid. apply forallb_forall. intros p Hp.
    apply filter_In in Hp. destruct Hp as [Hin Hext]. apply Hutf; assumption. }
  exists (set_files (Fs.set (out_dir // "images.txt")
                            (Fs.File (Str.join newline
                                        (Seq.sorted Str.leb (image_rels (files w) images_dir)))
                                     (clock w))
                            (files w)) w).
  exists (Seq.sorted Str.leb (image_rels (files w) images_dir)).
  split; [|split; [|split; [|split; [|split]]]].
  - unfold make_image_list_file, Os.rglob, Os.write_text, bind, get_files, ret.
    fold (image_rels (files w) images_dir). fold newline.
    unfold file_or_absent in Hfoa.
    rewrite parent_div, Hv.
    destruct (Fs.lookup (files w) (out_dir // "images.txt")) as [[d t|t]|];
      try discriminate;
      destruct (Fs.lookup (files w) out_dir) as [[d' t'|t']|]; try discriminate;
      reflexivity.
  - unfold content. cbn [files set_files].
    rewrite lookup_set_eq by apply div_nonempty. reflexivity.
  - intros xs x ->. apply join_snoc.
  - apply sorted_perm.
  - apply sorted_Sorted. exact String.leb_total.
  - intros s2 P.
    apply sorted_canonical; [exact String.leb_total|exact string_leb_trans| |exact P].
    intros a b H1 H2. apply String.leb_antisym; assumption.
Qed.

End ImageList.

(** C10.  The claim fails on the code at the same project: [images] holds
    no regular file with an image suffix, and the list that
    [make_image_list_file] writes is not empty: it names the directory
    [shots.PNG].  The filter is the one of [ensure_images_dir], written a
    second time, with the same missing [is_file] test: the list handed to
    the stages as a list of images names a directory. *)
Theorem make_image_list_file_lists_directory :
  (forall p, PurePath.is_under ["proj"; "images"] p = true ->
             Fs.is_file_node (Fs.lookup (files dir_only_world) p) = true ->
             has_image_ext p = false)
  /\ Fs.is_dir_node (Fs.lookup (files dir_only_world) ["proj"; "images"; "shots.PNG"]) = true
  /\ exists w',
       make_image_list_file ["proj"; "images"] ["proj"; "hloc_work"] dir_only_world
         = (w', Ret ["proj"; "hloc_work"; "images.txt"])
       /\ content (files w') ["proj"; "hloc_work"; "images.txt"] = Some "shots.PNG".
Proof.
  split; [exact dir_only_world_no_image_file|]. split; [reflexivity|].
  eexists. split; vm_compute; reflexivity.
Qed.

(** A listed name that is not UTF-8: the list cannot be encoded, the call
    raises, and the image list of the earlier run is left empty. *)
Example make_image_list_file_undecodable_name :
  exists w',
    make_image_list_file ["proj"; "images"] ["proj"; "hloc_work"] latin1_world
      = (w', Raise (mk_exn UnicodeEncodeError
                           "'utf-8' codec can't encode: surrogates not allowed"))
    /\ content (files latin1_world) ["proj"; "hloc_work"; "images.txt"] = Some "a.png"
    /\ content (files w') ["proj"; "hloc_work"; "images.txt"] = Some "".
Proof. eexists. split; [vm_compute; reflexivity|]. split; reflexivity. Qed.

(** The list of the example project: in the order of strings;
    the text file is left out. *)
Example make_image_list_file_example :
  exists w',
    make_image_list_file ["proj"; "images"] ["proj"; "hloc_work"] project_world
      = (w', Ret ["proj"; "hloc_work"; "images.txt"])
    /\ content (files w') ["proj"; "hloc_work"; "images.txt"]
       = Some (Str.join newline ["a.png"; "b.JPG"; "cam2/c.tiff"]).
Proof. eexists. split; vm_compute; reflexivity. Qed.

(** ** The adaptive invoker *)

Section Invoker.

Variable hloc : hloc_modules.

Lemma forallb_ext_in {A} (f g : A -> bool) (l : list A) :
  (forall x, In x l -> f x = g x) -> forallb f l = forallb g l.
Proof.
  induction l as [|a l IH]; intros H; simpl; [reflexivity|].
  rewrite (H a (or_introl eq_refl)), IH; [reflexivity|].
  intros x Hx. apply H. right; exact Hx.
Qed.

(** Two keywords that name no parameter bind alike. *)
Lemma binds_unknown_keyword (ps : list param) (k1 k2 o : string) :
  mem_string k1 (map pname ps) = false ->
  mem_string k2 (map pname ps) = false ->
  binds ps 0 [k1; o] = binds ps 0 [k2; o].
Proof.
  intros H1 H2.
  assert (Hn : forall k q, mem_string k (map pname ps) = false -> In q ps ->
                           String.eqb (pname q) k = false).
  { intros k q Hk Hq. destruct (String.eqb (pname q) k) eqn:E; [|reflexivity].
    apply String.eqb_eq in E.
    assert (mem_string k (map pname ps) = true).
    { apply mem_string_In. rewrite <- E. apply in_map. exact Hq. }
    congruence. }
  assert (Hex : forall k, mem_string k (map pname ps) = false ->
                          existsb (fun q => takes_keyword q && String.eqb (pname q) k) ps = false).
  { intros k Hk.
    destruct (existsb (fun q => takes_keyword q && String.eqb (pname q) k) ps) eqn:E;
      [|reflexivity].
    apply existsb_exists in E. destruct E as [q [Hq E]].
    apply andb_true_iff in E. destruct E as [_ E].
    rewrite (Hn k q Hk Hq) in E. discriminate. }
  unfold binds. cbn [firstn map forallb]. rewrite (Hex k1 H1), (Hex k2 H2).
  f_equal. apply forallb_ext_in. intros q Hq.
  unfold mem_string. cbn [existsb]. rewrite (Hn k1 q H1 Hq), (Hn k2 q H2 Hq). reflexivity.
Qed.

(** The pairing stage: the keyword binding by image list is selected when
    the binding by image directory does not bind. *)
Lemma call_pairs_exhaustive_image_list (images_dir output_pairs image_list_path : path)
      (w : world) :
  let f := pairs_from_exhaustive_main hloc in
  let kwA := pairs_kwargs_image_dir images_dir output_pairs in
  let kwB := pairs_kwargs_image_list image_list_path output_pairs in
  binds (parameters f) 0 (map fst kwA) = false ->
  binds (parameters f) 0 (map fst kwB) = true ->
  body_no_TypeError f [] kwB ->
  exists attempts,
    (attempts = [mk_call (fn_name f) [] kwB]
     \/ attempts = [mk_call (fn_name f) [] kwA; mk_call (fn_name f) [] kwB])
    /\ call_pairs_exhaustive hloc images_dir output_pairs image_list_path w
       = fn_body f [] kwB
                 (mk_world (files w) (stdout w) (clock w) (calls w ++ attempts)).
Proof.
  intros f kwA kwB HA HB Hbody.
  unfold call_pairs_exhaustive. fold f.
  fold (pairs_kwargs_image_dir images_dir output_pairs).
  fold (pairs_kwargs_image_list image_list_path output_pairs).
  fold kwA. fold kwB.
  assert (Hcall : forall w0,
            try_except (py_call f [] kwB) is_TypeError
                       (py_call f [VPath images_dir; VPath output_pairs] []) w0
            = fn_body f [] kwB (log_call (mk_call (fn_name f) [] kwB) w0)).
  { intros w0. unfold try_except, py_call. cbn [List.length]. rewrite HB.
    destruct (fn_body f [] kwB (log_call (mk_call (fn_name f) [] kwB) w0))
      as [w1 [v|e]] eqn:E; [reflexivity|].
    rewrite (Hbody _ _ _ E). reflexivity. }
  destruct (mem_string "image_dir" (signature_keys f)) eqn:Ed.
  - (* the preferred binding is tried, fails to bind, and the next one is called *)
    exists [mk_call (fn_name f) [] kwA; mk_call (fn_name f) [] kwB].
    split; [right; reflexivity|].
    unfold try_except at 1. unfold py_call at 1. cbn [List.length]. rewrite HA.
    cbn [is_TypeError exn_cls]. rewrite Hcall.
    unfold log_call. cbn [files stdout clock calls]. rewrite <- app_assoc. reflexivity.
  - destruct (mem_string "image_list" (signature_keys f)) eqn:El.
    + exists [mk_call (fn_name f) [] kwB]. split; [left; reflexivity|].
      unfold try_except at 1. unfold py_call at 1. cbn [List.length]. rewrite HB.
      unfold log_call.
      destruct (fn_body f [] kwB _) as [w1 [v|e]] eqn:E; [reflexivity|].
      rewrite (Hbody _ _ _ E). reflexivity.
    + exfalso.
      pose proof (binds_unknown_keyword (parameters f) "image_dir" "image_list" "output"
                                        Ed El) as Heq.
      unfold kwA, kwB, pairs_kwargs_image_dir, pairs_kwargs_image_list in HA, HB.
      cbn [map fst] in HA, HB. congruence.
Qed.

(** The matching stage: when the positional binding does not bind and the
    keyword binding does, the stage is called by keyword, once. *)
Lemma call_match_features_keywords (pairs_path : path) (features_name : string)
      (export_dir : path) (w : world) :
  let f := match_features_main hloc in
  let a1 := match_args_1 hloc pairs_path features_name export_dir in
  let k2 := match_kwargs_2 hloc pairs_path features_name export_dir in
  binds (parameters f) 4 [] = false ->
  binds (parameters f) 0 (map fst k2) = true ->
  body_no_TypeError f [] k2 ->
  call_match_features hloc pairs_path features_name export_dir w
  = (fn_body f [] k2 ;; locate_after_matching hloc export_dir (clock w))
      (mk_world (files w) (stdout w) (clock w)
                (calls w ++ [mk_call (fn_name f) a1 []; mk_call (fn_name f) [] k2])).
Proof.
  intros f a1 k2 H1 H2 Hbody.
  assert (L1 : List.length a1 = 4%nat) by reflexivity.
  assert (L2 : List.length (@nil pyval) = 0%nat) by reflexivity.
  unfold call_match_features. fold (lightglue_conf hloc). fold f.
  fold (match_args_1 hloc pairs_path features_name export_dir).
  fold (match_kwargs_2 hloc pairs_path features_name export_dir).
  fold a1. fold k2.
  unfold bind at 1. unfold time_time at 1.
  unfold bind at 1.
  unfold try_except at 1. unfold bind at 1. unfold py_call at 1.
  rewrite L1. cbn [map]. rewrite H1.
  cbn [is_TypeError exn_cls].
  unfold try_except at 1. unfold bind at 1. unfold py_call at 1.
  rewrite L2, H2.
  unfold log_call. cbn [files stdout clock calls]. rewrite <- app_assoc. cbn [app].
  unfold bind.
  destruct (fn_body f [] k2 _) as [w1 [v|e]] eqn:E.
  - reflexivity.
  - rewrite (Hbody _ _ _ E). reflexivity.
Qed.

End Invoker.

Section InvokerClaims.

Variable hloc : hloc_modules.

(** The matching stage: when neither the positional nor the keyword
    binding binds and the third one does, the stage is called with the
    third, after one attempt of each of the others. *)
Lemma call_match_features_third (pairs_path : path) (features_name : string)
      (export_dir : path) (w : world) :
  let f := match_features_main hloc in
  let a1 := match_args_1 hloc pairs_path features_name export_dir in
  let k2 := match_kwargs_2 hloc pairs_path features_name export_dir in
  let a3 := match_args_3 hloc pairs_path export_dir in
  let k3 := match_kwargs_3 features_name in
  binds (parameters f) 4 [] = false ->
  binds (parameters f) 0 (map fst k2) = false ->
  binds (parameters f) 3 (map fst k3) = true ->
  call_match_features hloc pairs_path features_name export_dir w
  = (fn_body f a3 k3 ;; locate_after_matching hloc export_dir (clock w))
      (mk_world (files w) (stdout w) (clock w)
                (calls w ++ [mk_call (fn_name f) a1 []; mk_call (fn_name f) [] k2;
                             mk_call (fn_name f) a3 k3])).
Proof.
  intros f a1 k2 a3 k3 H1 H2 H3.
  assert (L1 : List.length a1 = 4%nat) by reflexivity.
  assert (L2 : List.length (@nil pyval) = 0%nat) by reflexivity.
  assert (L3 : List.length a3 = 3%nat) by reflexivity.
  unfold call_match_features. fold (lightglue_conf hloc). fold f.
  fold (match_args_1 hloc pairs_path features_name export_dir).
  fold (match_kwargs_2 hloc pairs_path features_name export_dir).
  fold (match_args_3 hloc pairs_path export_dir).
  fold (match_kwargs_3 features_name).
  fold a1. fold k2. fold a3. fold k3.
  unfold bind at 1. unfold time_time at 1.
  unfold bind at 1.
  unfold try_except at 1. unfold bind at 1. unfold py_call at 1.
  rewrite L1. cbn [map]. rewrite H1.
  cbn [is_TypeError exn_cls].
  unfold try_except at 1. unfold bind at 1. unfold py_call at 1.
  rewrite L2, H2.
  cbn [is_TypeError exn_cls].
  unfold bind at 1. unfold py_call at 1. rewrite L3, H3.
  unfold log_call. cbn [files stdout clock calls].
  rewrite <- !app_assoc. cbn [app].
  unfold bind.
  destruct (fn_body f a3 k3 _) as [w1 [v|e]]; reflexivity.
Qed.

(** C3.  Binding fallback.  (1) Pairing stage: a callable that does not
    bind the preferred keywords [image_dir, output] and binds
    [image_list, output] is called with the latter, after at most one
    attempt of the former, and the invoker's outcome is the outcome of
    that call.  (2) Matching stage: a callable that does not bind the four
    positional arguments and binds the keywords
    [conf, pairs, features, export_dir] is called by keyword after one
    positional attempt.  (3) Matching stage: a callable that binds neither
    and binds three positional arguments with [features] by keyword is
    called that way after one attempt of each of the others.  In each case
    the history of calls shows every binding at most once, the selected one
    last; the stage's own body is supposed not to raise [TypeError]. *)
Theorem invoker_binding_fallback
        (images_dir output_pairs image_list_path pairs_path export_dir : path)
        (features_name : string) (w : world) :
  let pf := pairs_from_exhaustive_main hloc in
  let kwA := pairs_kwargs_image_dir images_dir output_pairs in
  let kwB := pairs_kwargs_image_list image_list_path output_pairs in
  let mf := match_features_main hloc in
  let a1 := match_args_1 hloc pairs_path features_name export_dir in
  let k2 := match_kwargs_2 hloc pairs_path features_name export_dir in
  let a3 := match_args_3 hloc pairs_path export_dir in
  let k3 := match_kwargs_3 features_name in
  (binds (parameters pf) 0 (map fst kwA) = false ->
   binds (parameters pf) 0 (map fst kwB) = true ->
   body_no_TypeError pf [] kwB ->
   exists attempts,
     (attempts = [mk_call (fn_name pf) [] kwB]
      \/ attempts = [mk_call (fn_name pf) [] kwA; mk_call (fn_name pf) [] kwB])
     /\ NoDup (map call_kwargs attempts)
     /\ call_pairs_exhaustive hloc images_dir output_pairs image_list_path w
        = fn_body pf [] kwB
                  (mk_world (files w) (stdout w) (clock w) (calls w ++ attempts)))
  /\ (binds (parameters mf) 4 [] = false ->
      binds (parameters mf) 0 (map fst k2) = true ->
      body_no_TypeError mf [] k2 ->
      call_match_features hloc pairs_path features_name export_dir w
      = (fn_body mf [] k2 ;; locate_after_matching hloc export_dir (clock w))
          (mk_world (files w) (stdout w) (clock w)
                    (calls w ++ [mk_call (fn_name mf) a1 []; mk_call (fn_name mf) [] k2])))
  /\ (binds (parameters mf) 4 [] = false ->
      binds (parameters mf) 0 (map fst k2) = false ->
      binds (parameters mf) 3 (map fst k3) = true ->
      call_match_features hloc pairs_path features_name export_dir w
      = (fn_body mf a3 k3 ;; locate_after_matching hloc export_dir (clock w))
          (mk_world (files w) (stdout w) (clock w)
                    (calls w ++ [mk_call (fn_name mf) a1 []; mk_call (fn_name mf) [] k2;
                                 mk_call (fn_name mf) a3 k3]))).
Proof.
  intros pf kwA kwB mf a1 k2 a3 k3. split; [|split].
  - intros HA HB Hbody.
    destruct (@call_pairs_exhaustive_image_list hloc images_dir output_pairs image_list_path
                                               w HA HB Hbody) as [attempts [Hat Hrun]].
    exists attempts. split; [exact Hat|]. split; [|exact Hrun].
    destruct Hat as [->| ->]; cbn [map call_kwargs].
    + constructor; [intros []|constructor].
    + constructor; [|constructor; [intros []|constructor]].
      intros [H|[]]. unfold kwA, kwB, pairs_kwargs_image_dir, pairs_kwargs_image_list in H.
      discriminate H.
  - apply call_match_features_keywords.
  - apply call_match_features_third.
Qed.

End InvokerClaims.

Lemma write_text_no_TypeError (p : path) (data : string) (w w' : world) (e : exn) :
  Os.write_text p data w = (w', Raise e) -> is_TypeError e = false.
Proof.
  unfold Os.write_text, Os.no_entry, bind, get_files, raise, put_files.
  destruct (Fs.lookup (files w) p) as [[?|?]|];
    destruct (Fs.lookup (files w) (PurePath.parent p)) as [[?|?]|];
    try destruct (Str.valid_utf8 data);
    try destruct (Fs.through_file (files w) p);
    intros H; inversion H; reflexivity.
Qed.

Lemma invoker_binding_fallback_witness :
  (exists attempts,
     (attempts = [mk_call "pairs_from_exhaustive.main" []
                          (pairs_kwargs_image_list ["proj"; "hloc_work"; "images.txt"]
                                                   ["proj"; "hloc_work"; "pairs-exhaustive.txt"])]
      \/ attempts = [mk_call "pairs_from_exhaustive.main" []
                             (pairs_kwargs_image_dir ["proj"; "images"]
                                                     ["proj"; "hloc_work"; "pairs-exhaustive.txt"]);
                     mk_call "pairs_from_exhaustive.main" []
                             (pairs_kwargs_image_list ["proj"; "hloc_work"; "images.txt"]
                                                      ["proj"; "hloc_work"; "pairs-exhaustive.txt"])])
     /\ NoDup (map call_kwargs attempts)
     /\ call_pairs_exhaustive demo_hloc ["proj"; "images"]
                              ["proj"; "hloc_work"; "pairs-exhaustive.txt"]
                              ["proj"; "hloc_work"; "images.txt"] project_world
        = fn_body demo_pairs []
                  (pairs_kwargs_image_list ["proj"; "hloc_work"; "images.txt"]
                                           ["proj"; "hloc_work"; "pairs-exhaustive.txt"])
                  (mk_world (files project_world) (stdout project_world) (clock project_world)
                            (calls project_world ++ attempts)))
  /\ call_match_features demo_hloc ["proj"; "hloc_work"; "pairs-exhaustive.txt"]
                         "feats-superpoint" ["proj"; "hloc_work"] project_world
     = (fn_body demo_match []
                (match_kwargs_2 demo_hloc ["proj"; "hloc_work"; "pairs-exhaustive.txt"]
                                "feats-superpoint" ["proj"; "hloc_work"]) ;;
        locate_after_matching demo_hloc ["proj"; "hloc_work"] (clock project_world))
         (mk_world (files project_world) (stdout project_world) (clock project_world)
                   (calls project_world
                    ++ [mk_call "match_features.main"
                                (match_args_1 demo_hloc ["proj"; "hloc_work"; "pairs-exhaustive.txt"]
                                              "feats-superpoint" ["proj"; "hloc_work"]) [];
                        mk_call "match_features.main" []
                                (match_kwargs_2 demo_hloc
                                                ["proj"; "hloc_work"; "pairs-exhaustive.txt"]
                                                "feats-superpoint" ["proj"; "hloc_work"])])).
Proof.
  pose proof (@invoker_binding_fallback demo_hloc
                ["proj"; "images"] ["proj"; "hloc_work"; "pairs-exhaustive.txt"]
                ["proj"; "hloc_work"; "images.txt"]
                ["proj"; "hloc_work"; "pairs-exhaustive.txt"] ["proj"; "hloc_work"]
                "feats-superpoint" project_world) as H.
  cbv zeta in H. destruct H as [H1 [H2 _]]. split.
  - apply H1.
    + reflexivity.
    + reflexivity.
    + intros w0 w1 e H. cbn in H. unfold bind in H.
      destruct (Os.write_text _ _ w0) as [w2 [u|e2]] eqn:E; [discriminate H|].
      inversion H; subst. exact (write_text_no_TypeError _ _ _ E).
  - apply H2.
    + reflexivity.
    + reflexivity.
    + intros w0 w1 e H. cbn in H. unfold bind in H.
      destruct (Os.write_text _ _ w0) as [w2 [u|e2]] eqn:E; [discriminate H|].
      inversion H; subst. exact (write_text_no_TypeError _ _ _ E).
Defined.

(** The selected bindings at work: the example pairing stage is called
    once, by image list; the example matching stage once positionally,
    without binding, and once by keyword; the third example stage after one
    attempt of each of the two other bindings. *)
Example invoker_history :
  map call_kwargs
      (calls (fst (call_pairs_exhaustive demo_hloc ["proj"; "images"]
                     ["proj"; "hloc_work"; "pairs-exhaustive.txt"]
                     ["proj"; "hloc_work"; "images.txt"] project_world)))
  = [pairs_kwargs_image_list ["proj"; "hloc_work"; "images.txt"]
                             ["proj"; "hloc_work"; "pairs-exhaustive.txt"]]
  /\ map (fun c => (List.length (call_args c), map fst (call_kwargs c)))
         (calls (fst (call_match_features demo_hloc ["proj"; "hloc_work"; "pairs-exhaustive.txt"]
                        "feats-superpoint" ["proj"; "hloc_work"] project_world)))
     = [(4%nat, []); (0%nat, ["conf"; "pairs"; "features"; "export_dir"])]
  /\ map (fun c => (List.length (call_args c), map fst (call_kwargs c)))
         (calls (fst (call_match_features demo_hloc_third
                        ["proj"; "hloc_work"; "pairs-exhaustive.txt"]
                        "feats-superpoint" ["proj"; "hloc_work"] project_world)))
     = [(4%nat, []); (0%nat, ["conf"; "pairs"; "features"; "export_dir"]);
        (3%nat, ["features"])]
  /\ snd (call_match_features demo_hloc_third
            ["proj"; "hloc_work"; "pairs-exhaustive.txt"]
            "feats-superpoint" ["proj"; "hloc_work"] project_world)
     = Ret (["proj"; "hloc_work"; "matches-superpoint-lightglue.h5"],
            lightglue_conf demo_hloc_third).
Proof. vm_compute. repeat split. Qed.

(** Outside the premise of the fallback property the pairing invoker can
    repeat itself: for a stage that has the parameter [image_list] and
    does not take the keyword [output], the keyword binding by image list
    is tried by inspection, fails to bind, and is tried again by the retry
    chain before the positional binding is called. *)
Example call_pairs_exhaustive_retries_same_binding :
  map (fun c => (List.length (call_args c), map fst (call_kwargs c)))
      (calls (fst (call_pairs_exhaustive demo_hloc_out ["proj"; "images"]
                     ["proj"; "hloc_work"; "pairs-exhaustive.txt"]
                     ["proj"; "hloc_work"; "images.txt"] project_world)))
  = [(0%nat, ["image_list"; "output"]); (0%nat, ["image_list"; "output"]); (2%nat, [])]
  /\ call_args (last (calls (fst (call_pairs_exhaustive demo_hloc_out ["proj"; "images"]
                                   ["proj"; "hloc_work"; "pairs-exhaustive.txt"]
                                   ["proj"; "hloc_work"; "images.txt"] project_world)))
                     (mk_call "" [] []))
     = [VPath ["proj"; "images"]; VPath ["proj"; "hloc_work"; "pairs-exhaustive.txt"]].
Proof. vm_compute. split; reflexivity. Qed.

(** ** The driver *)

Section Driver.

Variable hloc : hloc_modules.
Variable json_dumps : pyval -> string.

Lemma for_each_app_Ret {A} (xs ys : list A) (body : A -> M unit) (w w1 : world) :
  for_each xs body w = (w1, Ret tt) ->
  for_each (xs ++ ys) body w = for_each ys body w1.
Proof.
  revert w. induction xs as [|x xs IH]; intros w H; simpl in *.
  - unfold ret in H. inversion H. reflexivity.
  - unfold bind in *. destruct (body x w) as [w' [[]|e]]; [|discriminate].
    apply IH. exact H.
Qed.

(** C1, amended.  The driver has no handler around a project's run.  When
    the projects [before] have been processed and the run of the next
    project [bad] raises, the driver raises that same exception and stops
    in the world the failed run left: whatever projects come [after], none
    of them is attempted. *)
Theorem main_stops_at_first_failure (before after : list path) (bad : path)
        (output_root : option path) (max_keypoints : Z) (w w1 w2 : world) (e : exn) :
  main hloc json_dumps (mk_arguments before output_root max_keypoints) w = (w1, Ret tt) ->
  run_sfm_for_project hloc json_dumps bad output_root max_keypoints (announced bad w1)
    = (w2, Raise e) ->
  main hloc json_dumps (mk_arguments (before ++ bad :: after) output_root max_keypoints) w
    = (w2, Raise e).
Proof.
  unfold main. cbn [arg_project arg_output_root arg_max_keypoints].
  intros Hbefore Hbad.
  rewrite (@for_each_app_Ret _ _ _ _ _ _ Hbefore).
  cbn [for_each]. unfold bind at 1. unfold bind at 1. rewrite print_run.
  unfold bind at 1. rewrite print_run. cbn [files stdout clock calls].
  rewrite <- app_assoc. cbn [app].
  unfold announced in Hbad. rewrite Hbad. reflexivity.
Qed.

End Driver.

Lemma main_stops_at_first_failure_witness :
  main demo_hloc demo_json_dumps (mk_arguments ([] ++ ["bad"] :: [["proj"]]) None 4096)
       two_projects_world
  = (announced ["bad"] two_projects_world,
     Raise (mk_exn FileNotFoundError "'images' folder not found in: /bad")).
Proof.
  apply (@main_stops_at_first_failure demo_hloc demo_json_dumps [] [["proj"]] ["bad"]
           None 4096 two_projects_world two_projects_world).
  - reflexivity.
  - vm_compute. reflexivity.
Defined.

(** C1, as stated, fails.  The first project has no [images] directory and
    the second is complete.  The driver raises for the first and the second
    is not attempted: nothing is printed for it, no stage is called, and
    its output tree is not produced, although the same driver on the
    second project alone returns and produces it. *)
Lemma main_does_not_continue_after_failure :
  (exists w' e,
     main demo_hloc demo_json_dumps two_projects_args two_projects_world = (w', Raise e)
     /\ exn_cls e = FileNotFoundError
     /\ stdout w' = [Str.repeat "=" 80; "Processing project: /bad"]
     /\ calls w' = []
     /\ files w' = files two_projects_world
     /\ Fs.lookup (files w') ["proj"; "sparse"; "0"; "cameras.bin"] = None)
  /\ (exists w',
        main demo_hloc demo_json_dumps (mk_arguments [["proj"]] None 4096) two_projects_world
          = (w', Ret tt)
        /\ Fs.is_file_node (Fs.lookup (files w') ["proj"; "sparse"; "0"; "cameras.bin"]) = true).
Proof.
  split.
  - do 2 eexists. split; [vm_compute; reflexivity|]. repeat split.
  - eexists. split; [vm_compute; reflexivity|]. reflexivity.
Qed.

(** Input validation on the example projects: the one without [images]
    raises at once, the complete one passes. *)
Example validation_examples :
  raises_in_validation demo_hloc demo_json_dumps ["bad"] None 4096 two_projects_world
  /\ ensure_images_dir ["proj"] two_projects_world
     = (two_projects_world, Ret ["proj"; "images"]).
Proof.
  split.
  - eexists. split; [vm_compute; reflexivity|]. split; reflexivity.
  - vm_compute. reflexivity.
Qed.


(* ================================================================== *)
(** * Further properties of the script *)

(** ** The match-file locator, beyond the time window *)

Section LocatorMore.

Lemma last_opt_sorted_none {A} (le : A -> A -> bool) (l : list A) :
  Seq.last_opt (Seq.sorted le l) = None -> l = [].
Proof.
  intros H. destruct l as [|x l]; [reflexivity|].
  destruct (@sorted_last_some A le (x :: l) x (or_introl eq_refl)) as [r Hr].
  congruence.
Qed.

Lemma sorted_by_key_last {A} (k : A -> Z) (l : list A) (r : A) :
  Seq.last_opt (Seq.sorted_by_key k l) = Some r ->
  In r l /\ forall x, In x l -> (k x <= k r)%Z.
Proof.
  unfold Seq.sorted_by_key. apply sorted_last_max.
  - intros a b H. apply Z.leb_le in H. exact H.
  - intros a b H. apply Z.leb_gt in H. lia.
Qed.

Lemma recents_nil_iff (s : Fs.store) (export_dir : path) (t0 : Z) :
  flat_map (fun p =>
              match Fs.lookup s p with
              | None => []
              | Some n =>
                  let mtime := Fs.st_mtime n in
                  let name_lower := Str.lower (PurePath.name p) in
                  if Str.contains "match" name_lower && (t0 - 1 * second <=? mtime)%Z
                  then [(mtime, p)] else []
              end)
           (Fs.rglob s export_dir "*.h5") = []
  <-> forall q, is_recent_match s export_dir t0 q = false.
Proof.
  split.
  - intros H q. destruct (is_recent_match s export_dir t0 q) eqn:E; [|reflexivity].
    assert (Hin : In (mtime_or_zero s q, q) (@nil (Z * path))).
    { rewrite <- H. apply recents_spec. split; [exact E|reflexivity]. }
    destruct Hin.
  - intros H.
    match goal with |- ?l = [] => destruct l as [|[m q] r] eqn:E end; [reflexivity|].
    assert (Hin : In (m, q) ((m, q) :: r)) by (left; reflexivity).
    rewrite <- E in Hin. apply recents_spec in Hin. destruct Hin as [Hq _].
    rewrite H in Hq. discriminate.
Qed.

(** What [find_matches_file] computes, by cases on the four searches. *)
Lemma find_matches_file_cases (export_dir : path) (preferred_basename : string)
      (t0 : Z) (w : world) :
  let s := files w in
  let preferred := export_dir // (preferred_basename ++ ".h5") in
  (Fs.lookup s preferred <> None /\
   find_matches_file export_dir preferred_basename t0 w = (w, Ret preferred))
  \/ (Fs.lookup s preferred = None /\
      exists r, is_recent_match s export_dir t0 r = true
                /\ (forall q, is_recent_match s export_dir t0 q = true ->
                              (mtime_or_zero s q <= mtime_or_zero s r)%Z)
                /\ find_matches_file export_dir preferred_basename t0 w = (w, Ret r))
  \/ (Fs.lookup s preferred = None /\
      (forall q, is_recent_match s export_dir t0 q = false) /\
      exists r, In r (Fs.rglob s export_dir "matches*.h5")
                /\ (forall q, In q (Fs.rglob s export_dir "matches*.h5") ->
                              (mtime_or_zero s q <= mtime_or_zero s r)%Z)
                /\ find_matches_file export_dir preferred_basename t0 w = (w, Ret r))
  \/ (Fs.lookup s preferred = None /\
      (forall q, is_recent_match s export_dir t0 q = false) /\
      Fs.rglob s export_dir "matches*.h5" = [] /\
      exists r, In r (Fs.rglob s (PurePath.parent export_dir) "matches*.h5")
                /\ (forall q, In q (Fs.rglob s (PurePath.parent export_dir) "matches*.h5") ->
                              (mtime_or_zero s q <= mtime_or_zero s r)%Z)
                /\ find_matches_file export_dir preferred_basename t0 w = (w, Ret r))
  \/ (Fs.lookup s preferred = None /\
      (forall q, is_recent_match s export_dir t0 q = false) /\
      Fs.rglob s export_dir "matches*.h5" = [] /\
      Fs.rglob s (PurePath.parent export_dir) "matches*.h5" = [] /\
      exists w' e,
        find_matches_file export_dir preferred_basename t0 w = (w', Raise e)
        /\ exn_cls e = FileNotFoundError
        /\ files w' = files w /\ calls w' = calls w /\ clock w' = clock w).
Proof.
  intros s preferred. subst s.
  unfold find_matches_file, Os.exists_, bind, get_files, ret. cbv beta.
  fold preferred.
  destruct (Fs.lookup (files w) preferred) as [n|] eqn:Ep.
  { left. split; [discriminate|reflexivity]. }
  right.
  match goal with |- context [Seq.sorted tuple_leb ?l] => set (recents := l) end.
  destruct (Seq.last_opt (Seq.sorted tuple_leb recents)) as [[m r]|] eqn:Er.
  { left. split; [reflexivity|].
    destruct (sorted_last_max tuple_leb fst tuple_leb_key tuple_nleb_key _ Er) as [Hin Hmax].
    apply recents_spec in Hin. destruct Hin as [Hr ->].
    exists r. split; [exact Hr|]. split; [|reflexivity].
    intros q Hq.
    assert (Hqin : In (mtime_or_zero (files w) q, q) recents).
    { apply recents_spec. split; [exact Hq|reflexivity]. }
    exact (Hmax _ Hqin). }
  right. apply last_opt_sorted_none in Er.
  assert (Hnone : forall q, is_recent_match (files w) export_dir t0 q = false).
  { apply recents_nil_iff. exact Er. }
  destruct (Seq.last_opt (Seq.sorted_by_key (mtime_or_zero (files w))
                            (Fs.rglob (files w) export_dir "matches*.h5"))) as [r|] eqn:Ea.
  { left. split; [reflexivity|]. split; [exact Hnone|].
    apply sorted_by_key_last in Ea. destruct Ea as [Hin Hmax].
    exists r. split; [exact Hin|]. split; [exact Hmax|reflexivity]. }
  right. apply last_opt_sorted_none in Ea.
  destruct (Seq.last_opt (Seq.sorted_by_key (mtime_or_zero (files w))
                            (Fs.rglob (files w) (PurePath.parent export_dir) "matches*.h5")))
    as [r|] eqn:Ef.
  { left. split; [reflexivity|]. split; [exact Hnone|]. split; [exact Ea|].
    apply sorted_by_key_last in Ef. destruct Ef as [Hin Hmax].
    exists r. split; [exact Hin|]. split; [exact Hmax|reflexivity]. }
  right. apply last_opt_sorted_none in Ef.
  split; [reflexivity|]. split; [exact Hnone|]. split; [exact Ea|]. split; [exact Ef|].
  assert (Hloop : forall (l : list path) (w0 : world),
             exists w1, for_each l (fun p => print ("   - " ++ PurePath.str p)) w0 = (w1, Ret tt)
                        /\ files w1 = files w0 /\ calls w1 = calls w0 /\ clock w1 = clock w0).
  { induction l as [|p l IH]; intros w0.
    - exists w0. repeat split; reflexivity.
    - cbn [for_each]. unfold bind. rewrite print_run.
      match goal with |- context [for_each l _ ?w1] => destruct (IH w1) as [w2 [H1 [H2 [H3 H4]]]] end.
      exists w2. rewrite H1. repeat split; assumption. }
  rewrite print_run.
  match goal with |- context [for_each ?l _ ?w1] => destruct (Hloop l w1) as [w2 [H1 [H2 [H3 H4]]]] end.
  rewrite H1. unfold raise. do 2 eexists. split; [reflexivity|].
  repeat split; assumption.
Qed.

End LocatorMore.

Section LocatorProperties.

Lemma is_recent_match_exists (s : Fs.store) (export_dir : path) (t0 : Z) (q : path) :
  is_recent_match s export_dir t0 q = true -> Fs.lookup s q <> None.
Proof.
  unfold is_recent_match. intros H. apply andb_true_iff in H. destruct H as [_ H].
  destruct (Fs.lookup s q); [discriminate|discriminate].
Qed.

Lemma find_matches_file_Ret_inv (export_dir : path) (preferred_basename : string)
      (t0 : Z) (w w' : world) (r : path) :
  find_matches_file export_dir preferred_basename t0 w = (w', Ret r) ->
  w' = w /\ Fs.lookup (files w) r <> None.
Proof.
  intros H.
  destruct (find_matches_file_cases export_dir preferred_basename t0 w)
    as [[Hp Hr]|[[_ [r0 [Hm [_ Hr]]]]|[[_ [_ [r0 [Hin [_ Hr]]]]]
       |[[_ [_ [_ [r0 [Hin [_ Hr]]]]]]|[_ [_ [_ [_ [w1 [e [Hr _]]]]]]]]]]];
    rewrite Hr in H; inversion H; subst.
  - split; [reflexivity|exact Hp].
  - split; [reflexivity|]. eapply is_recent_match_exists; eassumption.
  - split; [reflexivity|]. apply rglob_sound in Hin. tauto.
  - split; [reflexivity|]. apply rglob_sound in Hin. tauto.
Qed.

(** X1.  Whatever the locator returns is an entry of the store, and
    returning leaves the world as it was (nothing is printed, written or
    called). *)
Theorem find_matches_file_returns_entry (export_dir : path) (preferred_basename : string)
        (t0 : Z) (w w' : world) (r : path) :
  find_matches_file export_dir preferred_basename t0 w = (w', Ret r) ->
  w' = w /\ Fs.lookup (files w) r <> None.
Proof.
  intros H.
  destruct (find_matches_file_cases export_dir preferred_basename t0 w)
    as [[Hp Hr]|[[_ [r0 [Hm [_ Hr]]]]|[[_ [_ [r0 [Hin [_ Hr]]]]]
       |[[_ [_ [_ [r0 [Hin [_ Hr]]]]]]|[_ [_ [_ [_ [w1 [e [Hr _]]]]]]]]]]];
    rewrite Hr in H; inversion H; subst.
  - split; [reflexivity|exact Hp].
  - split; [reflexivity|]. eapply is_recent_match_exists; eassumption.
  - split; [reflexivity|]. apply rglob_sound in Hin. tauto.
  - split; [reflexivity|]. apply rglob_sound in Hin. tauto.
Qed.


(** X3.  The time window is a preference, not a filter: when nothing is at
    the preferred name and no entry is recent, a [matches*.h5] entry below
    the export directory is still returned, the most recently modified of
    them, however old. *)
Theorem find_matches_file_stale_fallback (export_dir : path) (preferred_basename : string)
        (t0 : Z) (w : world) (p : path) :
  Fs.lookup (files w) (export_dir // (preferred_basename ++ ".h5")) = None ->
  (forall q, is_recent_match (files w) export_dir t0 q = false) ->
  In p (Fs.rglob (files w) export_dir "matches*.h5") ->
  exists r,
    find_matches_file export_dir preferred_basename t0 w = (w, Ret r)
    /\ In r (Fs.rglob (files w) export_dir "matches*.h5")
    /\ (mtime_or_zero (files w) p <= mtime_or_zero (files w) r)%Z.
Proof.
  intros Hp Hn Hin.
  destruct (find_matches_file_cases export_dir preferred_basename t0 w)
    as [[Hp' _]|[[_ [r0 [Hm _]]]|[[_ [_ [r0 [Hr [Hmax Hrun]]]]]
       |[[_ [_ [Ha _]]]|[_ [_ [Ha _]]]]]]].
  - congruence.
  - rewrite Hn in Hm. discriminate.
  - exists r0. split; [exact Hrun|]. split; [exact Hr|]. apply Hmax. exact Hin.
  - rewrite Ha in Hin. destruct Hin.
  - rewrite Ha in Hin. destruct Hin.
Qed.

(** X4.  The last search is widened to the parent of the export directory:
    when the export directory yields nothing, a [matches*.h5] entry
    anywhere below the parent, so possibly in a sibling directory, is
    returned, the most recently modified of them. *)
Theorem find_matches_file_parent_fallback (export_dir : path) (preferred_basename : string)
        (t0 : Z) (w : world) (p : path) :
  Fs.lookup (files w) (export_dir // (preferred_basename ++ ".h5")) = None ->
  (forall q, is_recent_match (files w) export_dir t0 q = false) ->
  Fs.rglob (files w) export_dir "matches*.h5" = [] ->
  In p (Fs.rglob (files w) (PurePath.parent export_dir) "matches*.h5") ->
  exists r,
    find_matches_file export_dir preferred_basename t0 w = (w, Ret r)
    /\ In r (Fs.rglob (files w) (PurePath.parent export_dir) "matches*.h5")
    /\ (mtime_or_zero (files w) p <= mtime_or_zero (files w) r)%Z.
Proof.
  intros Hp Hn Ha Hin.
  destruct (find_matches_file_cases export_dir preferred_basename t0 w)
    as [[Hp' _]|[[_ [r0 [Hm _]]]|[[_ [_ [r0 [Hr _]]]]
       |[[_ [_ [_ [r0 [Hr [Hmax Hrun]]]]]]|[_ [_ [_ [Hf _]]]]]]]].
  - congruence.
  - rewrite Hn in Hm. discriminate.
  - rewrite Ha in Hr. destruct Hr.
  - exists r0. split; [exact Hrun|]. split; [exact Hr|]. apply Hmax. exact Hin.
  - rewrite Hf in Hin. destruct Hin.
Qed.

End LocatorProperties.

Lemma no_recent_by_list (s : Fs.store) (export_dir : path) (t0 : Z) :
  forallb (fun e => negb (is_recent_match s export_dir t0 (fst e))) s = true ->
  forall q, is_recent_match s export_dir t0 q = false.
Proof.
  intros H q. destruct (is_recent_match s export_dir t0 q) eqn:E; [|reflexivity].
  pose proof (is_recent_match_exists _ _ _ _ E) as Hq.
  assert (Hu : PurePath.is_under export_dir q = true).
  { unfold is_recent_match in E. repeat (apply andb_true_iff in E; destruct E as [E _]).
    exact E. }
  destruct (Fs.lookup s q) as [n|] eqn:El; [|congruence].
  assert (Hin : In (q, n) s).
  { apply assoc_In. pose proof (@is_under_nonempty _ _ Hu). destruct q; [congruence|exact El]. }
  rewrite forallb_forall in H. specialize (H _ Hin). simpl in H. rewrite E in H. discriminate.
Qed.

Lemma find_matches_file_returns_entry_witness :
  export_world = export_world
  /\ Fs.lookup (files export_world) ["out"; "hloc_work"; "matches-new.h5"] <> None.
Proof.
  apply (@find_matches_file_returns_entry ["out"; "hloc_work"] "matches-superpoint-lightglue"
           100000000 export_world export_world ["out"; "hloc_work"; "matches-new.h5"]).
  vm_compute. reflexivity.
Defined.

Lemma find_matches_file_stale_fallback_witness :
  exists r,
    find_matches_file ["out"; "hloc_work"] "matches-superpoint-lightglue" 200000000 export_world
      = (export_world, Ret r)
    /\ In r (Fs.rglob (files export_world) ["out"; "hloc_work"] "matches*.h5")
    /\ (mtime_or_zero (files export_world) ["out"; "hloc_work"; "matches-old.h5"]
        <= mtime_or_zero (files export_world) r)%Z.
Proof.
  apply (@find_matches_file_stale_fallback ["out"; "hloc_work"] "matches-superpoint-lightglue"
           200000000 export_world ["out"; "hloc_work"; "matches-old.h5"]).
  - reflexivity.
  - apply no_recent_by_list. vm_compute. reflexivity.
  - vm_compute. left. reflexivity.
Defined.

Lemma find_matches_file_parent_fallback_witness :
  exists r,
    find_matches_file ["out"; "hloc_work"] "matches-superpoint-lightglue" 100000000 sibling_world
      = (sibling_world, Ret r)
    /\ In r (Fs.rglob (files sibling_world) (PurePath.parent ["out"; "hloc_work"]) "matches*.h5")
    /\ (mtime_or_zero (files sibling_world)
                      ["out"; "earlier_run"; "matches-superpoint-lightglue.h5"]
        <= mtime_or_zero (files sibling_world) r)%Z.
Proof.
  apply (@find_matches_file_parent_fallback ["out"; "hloc_work"] "matches-superpoint-lightglue"
           100000000 sibling_world ["out"; "earlier_run"; "matches-superpoint-lightglue.h5"]).
  - reflexivity.
  - apply no_recent_by_list. vm_compute. reflexivity.
  - vm_compute. reflexivity.
  - vm_compute. left. reflexivity.
Defined.

(** ** The move primitive at its edges *)

Section MoveEdges.

Lemma mkdir_parents_exist_ok_noop (p : path) (w : world) :
  Fs.is_dir_node (Fs.lookup (files w) p) = true ->
  Os.mkdir_parents_exist_ok p w = (w, Ret tt).
Proof.
  intros Hd. unfold Os.mkdir_parents_exist_ok.
  rewrite <- (rev_involutive p) in Hd. clear - Hd.
  destruct (rev p) as [|a rp]; cbn [Os.mkdir_parents_rev];
    unfold Os.mkdir, bind, get_files, raise.
  - reflexivity.
  - destruct (Fs.lookup (files w) (rev (a :: rp))) as [[?|?]|] eqn:E; try discriminate.
    cbn [is_FileNotFoundError exn_cls files]. rewrite E. reflexivity.
Qed.

(** X5.  Moving a source that does not exist onto an existing file destroys
    the destination: the size test fails inside the guarded block, the
    destination is unlinked as if it were stale, and only then does the move
    raise: [FileNotFoundError], or [NotADirectoryError] when, with the
    destination gone, the source path runs through a regular file.  Every
    other entry is kept. *)
Theorem move_file_missing_source (w : world) (src dst : path) (d : string) (t : Z) :
  Fs.lookup (files w) src = None ->
  Fs.lookup (files w) dst = Some (Fs.File d t) ->
  Fs.is_dir_node (Fs.lookup (files w) (PurePath.parent dst)) = true ->
  exists w' e,
    move_file src dst w = (w', Raise e)
    /\ exn_cls e = (if Fs.through_file (Fs.remove dst (files w)) src
                    then NotADirectoryError else FileNotFoundError)
    /\ Fs.lookup (files w') dst = None
    /\ (forall q, q <> dst -> Fs.lookup (files w') q = Fs.lookup (files w) q).
Proof.
  intros Hs Hd Hp.
  assert (Hne : dst <> []) by (intros ->; simpl in Hd; discriminate).
  assert (Hsd : src <> dst) by congruence.
  unfold move_file, bind. rewrite (mkdir_parents_exist_ok_noop _ _ Hp).
  unfold Os.exists_, bind, get_files, ret. rewrite Hd.
  unfold try_except, Os.stat, Os.no_entry, bind, get_files, raise. rewrite Hs.
  cbv beta iota.
  unfold ret, Os.unlink, bind, get_files, put_files. rewrite Hd. cbn [files].
  unfold Os.shutil_move, Os.is_dir, bind, get_files, ret. cbn [files].
  rewrite lookup_remove_eq by exact Hne. cbn [Fs.is_dir_node].
  unfold Os.rename, Os.no_entry, bind, get_files, raise. cbn [files].
  rewrite lookup_remove_ne by exact Hsd. rewrite Hs.
  do 2 eexists. split; [reflexivity|]. split; [reflexivity|]. cbn [files]. split.
  - apply lookup_remove_eq. exact Hne.
  - intros q Hq. apply lookup_remove_ne. exact Hq.
Qed.

(** X6.  Moving a regular file onto itself deletes it: the destination
    exists with the size of the source, so the source is unlinked as a
    duplicate. *)
Theorem move_file_onto_itself (w : world) (p : path) (d : string) (t : Z) :
  Fs.lookup (files w) p = Some (Fs.File d t) ->
  Fs.is_dir_node (Fs.lookup (files w) (PurePath.parent p)) = true ->
  exists w',
    move_file p p w = (w', Ret tt)
    /\ Fs.lookup (files w') p = None
    /\ (forall q, q <> p -> Fs.lookup (files w') q = Fs.lookup (files w) q).
Proof.
  intros Hf Hp.
  assert (Hne : p <> []) by (intros ->; simpl in Hf; discriminate).
  unfold move_file, bind. rewrite (mkdir_parents_exist_ok_noop _ _ Hp).
  unfold Os.exists_, bind, get_files, ret. rewrite Hf.
  unfold try_except, Os.stat, bind, get_files, raise, ret. cbv beta iota.
  repeat (rewrite Hf; cbv beta iota).
  rewrite Z.eqb_refl.
  unfold Os.unlink, bind, get_files, put_files. rewrite Hf.
  eexists. split; [reflexivity|]. cbn [files]. split.
  - apply lookup_remove_eq. exact Hne.
  - intros q Hq. apply lookup_remove_ne. exact Hq.
Qed.

End MoveEdges.

Lemma move_file_missing_source_witness :
  exists w' e,
    move_file ["out"; "hloc_work"; "gone.bin"] ["out"; "cameras.bin"] demo_world = (w', Raise e)
    /\ exn_cls e = FileNotFoundError
    /\ Fs.lookup (files w') ["out"; "cameras.bin"] = None
    /\ (forall q, q <> ["out"; "cameras.bin"] ->
                  Fs.lookup (files w') q = Fs.lookup (files demo_world) q).
Proof.
  apply (@move_file_missing_source demo_world ["out"; "hloc_work"; "gone.bin"]
           ["out"; "cameras.bin"] "old" 10).
  - reflexivity.
  - reflexivity.
  - reflexivity.
Defined.

(** The same with a source path that runs through a regular file: the
    operating system reports [ENOTDIR]. *)
Example move_file_source_below_a_file :
  exists w',
    move_file ["out"; "hloc_work"; "cameras.bin"; "part"] ["out"; "cameras.bin"] demo_world
      = (w', Raise (mk_exn NotADirectoryError "/out/hloc_work/cameras.bin/part"))
    /\ Fs.lookup (files w') ["out"; "cameras.bin"] = None.
Proof. eexists. split; [vm_compute; reflexivity|reflexivity]. Qed.

Lemma move_file_onto_itself_witness :
  exists w',
    move_file ["out"; "cameras.bin"] ["out"; "cameras.bin"] demo_world = (w', Ret tt)
    /\ Fs.lookup (files w') ["out"; "cameras.bin"] = None
    /\ (forall q, q <> ["out"; "cameras.bin"] ->
                  Fs.lookup (files w') q = Fs.lookup (files demo_world) q).
Proof.
  apply (@move_file_onto_itself demo_world ["out"; "cameras.bin"] "old" 10).
  - reflexivity.
  - reflexivity.
Defined.

(** ** The deduplication pass on its own *)

Section DedupMore.

(** The loop of [dedup_sparse_zero], with what it removes: regular files
    only, and it changes neither the clock nor the call history. *)
Lemma dedup_loop_removes_files (has_bin : list string) (txts : list path) :
  forall w : world,
  exists w',
    for_each txts
      (fun txt =>
         if mem_string (PurePath.stem txt) has_bin then
           fun w =>
             match Os.unlink txt w with
             | (w', Ret _) =>
                 print ("[CLEAN] removed duplicate text file: " ++ PurePath.name txt) w'
             | (w', Raise ex) =>
                 print ("[WARN] failed to remove " ++ PurePath.str txt ++ ": "
                        ++ str_of_exn ex) w'
             end
         else ret tt) w = (w', Ret tt)
    /\ clock w' = clock w /\ calls w' = calls w
    /\ (forall q, Fs.lookup (files w') q = Fs.lookup (files w) q
                  \/ (Fs.lookup (files w') q = None
                      /\ Fs.is_file_node (Fs.lookup (files w) q) = true
                      /\ In q txts
                      /\ mem_string (PurePath.stem q) has_bin = true)).
Proof.
  induction txts as [|txt txts IH]; intros w.
  - exists w. simpl. unfold ret. repeat split; auto.
  - cbn [for_each]. unfold bind at 1.
    destruct (mem_string (PurePath.stem txt) has_bin) eqn:Em.
    + unfold Os.unlink at 1. unfold bind at 1. unfold get_files at 1.
      destruct (Fs.lookup (files w) txt) as [[d t|t]|] eqn:El.
      * unfold put_files, print. cbn [files stdout clock calls].
        match goal with |- context [for_each txts ?b ?w1] =>
          destruct (IH w1) as [w' [Hrun [Hc [Hk Hfr]]]] end.
        cbn [files clock calls] in Hfr, Hc, Hk.
        assert (Htne : txt <> []) by (intros ->; simpl in El; discriminate).
        exists w'. split; [exact Hrun|]. split; [exact Hc|]. split; [exact Hk|].
        intros q. destruct (Hfr q) as [H|[H1 [H2 [H3 H4]]]].
        -- destruct (list_eq_dec string_dec q txt) as [->|Hq].
           ++ right. rewrite H, lookup_remove_eq by exact Htne. rewrite El.
              repeat split; auto. left; reflexivity.
           ++ left. rewrite H. apply lookup_remove_ne. exact Hq.
        -- right. split; [exact H1|]. split; [|split; [right; exact H3|exact H4]].
           destruct (list_eq_dec string_dec q txt) as [->|Hq].
           ++ rewrite El. reflexivity.
           ++ rewrite lookup_remove_ne in H2 by exact Hq. exact H2.
      * unfold raise, print. cbn [files stdout clock calls].
        match goal with |- context [for_each txts ?b ?w1] =>
          destruct (IH w1) as [w' [Hrun [Hc [Hk Hfr]]]] end.
        cbn [files clock calls] in Hfr, Hc, Hk.
        exists w'. split; [exact Hrun|]. split; [exact Hc|]. split; [exact Hk|].
        intros q. destruct (Hfr q) as [H|[H1 [H2 [H3 H4]]]]; [left; exact H|].
        right. repeat split; auto. right; exact H3.
      * unfold Os.no_entry, raise, print. cbn [files stdout clock calls].
        match goal with |- context [for_each txts ?b ?w1] =>
          destruct (IH w1) as [w' [Hrun [Hc [Hk Hfr]]]] end.
        cbn [files clock calls] in Hfr, Hc, Hk.
        exists w'. split; [exact Hrun|]. split; [exact Hc|]. split; [exact Hk|].
        intros q. destruct (Hfr q) as [H|[H1 [H2 [H3 H4]]]]; [left; exact H|].
        right. repeat split; auto. right; exact H3.
    + unfold ret at 1.
      destruct (IH w) as [w' [Hrun [Hc [Hk Hfr]]]].
      exists w'. split; [exact Hrun|]. split; [exact Hc|]. split; [exact Hk|].
      intros q. destruct (Hfr q) as [H|[H1 [H2 [H3 H4]]]]; [left; exact H|].
      right. repeat split; auto. right; exact H3.
Qed.

(** What the deduplication pass does to the store. *)
Lemma dedup_sparse_zero_removals (sparse0 : path) (w : world) :
  exists w',
    dedup_sparse_zero sparse0 w = (w', Ret tt)
    /\ clock w' = clock w /\ calls w' = calls w
    /\ (forall q,
          Fs.lookup (files w') q = Fs.lookup (files w) q
          \/ (Fs.lookup (files w') q = None
              /\ Fs.is_file_node (Fs.lookup (files w) q) = true
              /\ exists nt nb,
                   q = sparse0 // nt
                   /\ Str.fnmatch "*.txt" nt = true
                   /\ Str.fnmatch "*.bin" nb = true
                   /\ Fs.lookup (files w) (sparse0 // nb) <> None
                   /\ fst (PurePath.split_name nb) = fst (PurePath.split_name nt))).
Proof.
  unfold dedup_sparse_zero, Os.exists_, Os.glob, bind, get_files, ret. cbv beta.
  destruct (Fs.lookup (files w) sparse0) eqn:E; cbn [negb].
  - destruct (dedup_loop_removes_files
                (map PurePath.stem (Fs.glob (files w) sparse0 "*.bin"))
                (Fs.glob (files w) sparse0 "*.txt") w)
      as [w' [Hrun [Hc [Hk Hfr]]]].
    exists w'. split; [exact Hrun|]. split; [exact Hc|]. split; [exact Hk|].
    intros q. destruct (Hfr q) as [H|[H1 [H2 [H3 H4]]]]; [left; exact H|].
    right. split; [exact H1|]. split; [exact H2|].
    apply glob_sound in H3. destruct H3 as [nt [-> [Ht _]]].
    apply mem_string_In in H4. apply in_map_iff in H4. destruct H4 as [b [Hs Hb]].
    apply glob_sound in Hb. destruct Hb as [nb [-> [Hb Hl]]].
    exists nt, nb. unfold PurePath.stem in Hs. rewrite !name_div in Hs. auto.
  - exists w. repeat split; auto.
Qed.


(** X8.  Running the pass again changes nothing in the store: what the
    first run could remove is gone, and what it could not remove (a
    directory named like a text file) the second cannot remove either. *)
Theorem dedup_sparse_zero_idempotent (sparse0 : path) (w w1 w2 : world) (q : path) :
  dedup_sparse_zero sparse0 w = (w1, Ret tt) ->
  dedup_sparse_zero sparse0 w1 = (w2, Ret tt) ->
  Fs.lookup (files w2) q = Fs.lookup (files w1) q.
Proof.
  intros H1 H2.
  destruct (dedup_sparse_zero_removals sparse0 w) as [w1' [R1 [_ [_ F1]]]].
  rewrite H1 in R1. inversion R1; subst w1'. clear R1.
  destruct (dedup_sparse_zero_removals sparse0 w1) as [w2' [R2 [_ [_ F2]]]].
  rewrite H2 in R2. inversion R2; subst w2'. clear R2.
  destruct (F2 q) as [H|[Hn [Hf [nt [nb [-> [Ht [Hb [Hbe Hs]]]]]]]]]; [exact H|].
  exfalso.
  (* both entries were there before the first run, which then removed the text file *)
  assert (Hq0 : Fs.lookup (files w1) (sparse0 // nt) = Fs.lookup (files w) (sparse0 // nt)).
  { destruct (F1 (sparse0 // nt)) as [H|[H _]]; [exact H|]. rewrite H in Hf. discriminate. }
  assert (Hb0 : Fs.lookup (files w) (sparse0 // nb) <> None).
  { destruct (F1 (sparse0 // nb)) as [H|[H _]]; congruence. }
  assert (He : Fs.lookup (files w) sparse0 <> None).
  { intros E.
    assert (Hnoop : forall w0, Fs.lookup (files w0) sparse0 = None ->
                               dedup_sparse_zero sparse0 w0 = (w0, Ret tt)).
    { intros w0 E0. unfold dedup_sparse_zero, Os.exists_, bind, get_files, ret.
      rewrite E0. reflexivity. }
    rewrite (Hnoop w E) in H1. inversion H1 as [Hw]. rewrite <- Hw in H2.
    rewrite (Hnoop w E) in H2. inversion H2 as [Hw2].
    rewrite <- Hw2, Hw in Hn. rewrite Hn in Hf. discriminate. }
  destruct (@dedup_sparse_zero_spec sparse0 w w1 He H1) as [P _].
  assert (Hb1 : Fs.lookup (files w1) (sparse0 // nb) <> None) by exact Hbe.
  rewrite (P nb nt Hb Ht Hs Hb1) in Hf. discriminate.
Qed.

End DedupMore.

Lemma dedup_sparse_zero_idempotent_witness :
  Fs.lookup (files (fst (dedup_sparse_zero ["out"; "sparse"; "0"]
                           (fst (dedup_sparse_zero ["out"; "sparse"; "0"] leftover_world)))))
            ["out"; "sparse"; "0"; "cameras.txt"]
  = Fs.lookup (files (fst (dedup_sparse_zero ["out"; "sparse"; "0"] leftover_world)))
              ["out"; "sparse"; "0"; "cameras.txt"].
Proof.
  apply (@dedup_sparse_zero_idempotent ["out"; "sparse"; "0"] leftover_world).
  - vm_compute. reflexivity.
  - vm_compute. reflexivity.
Defined.

(** ** Discovery, soundness and completeness *)

Section LocateMore.

(** X9.  Discovery only reads: it never raises and leaves the world as it
    is.  What it returns holds a complete model and is the search root or a
    directory below it; it returns nothing only when neither the search root
    nor any directory below it holds a complete model. *)
Theorem locate_sparse_dir_sound_complete (root : path) (w : world) :
  exists r,
    locate_sparse_dir root w = (w, Ret r)
    /\ match r with
       | Some c =>
           is_model_file_set (lowered_names (files w) c) = true
           /\ (c = root
               \/ (PurePath.is_under root c = true
                   /\ Fs.is_dir_node (Fs.lookup (files w) c) = true))
       | None =>
           is_model_file_set (lowered_names (files w) root) = false
           /\ forall d, PurePath.is_under root d = true ->
                        Fs.is_dir_node (Fs.lookup (files w) d) = true ->
                        is_model_file_set (lowered_names (files w) d) = false
       end.
Proof.
  unfold locate_sparse_dir, bind, get_files. cbv beta.
  destruct (Seq.sorted_by_key (fun p => Z.of_nat (PurePath.parts_len p))
              (sparse_candidates (files w) root)) as [|c r] eqn:E.
  - assert (Hnil : sparse_candidates (files w) root = []).
    { pose proof (sorted_perm (fun a b => (Z.of_nat (PurePath.parts_len a)
                                           <=? Z.of_nat (PurePath.parts_len b))%Z)
                              (sparse_candidates (files w) root)) as P.
      unfold Seq.sorted_by_key in E. rewrite E in P.
      apply Permutation_nil in P. exact P. }
    destruct (is_model_file_set (lowered_names (files w) root)) eqn:Er.
    + exists (Some root). split; [reflexivity|]. split; [exact Er|left; reflexivity].
    + exists None. split; [reflexivity|]. split; [reflexivity|].
      intros d Hu Hd.
      destruct (is_model_file_set (lowered_names (files w) d)) eqn:Em; [|reflexivity].
      assert (Hin : In d (sparse_candidates (files w) root)).
      { unfold sparse_candidates. apply filter_In. split.
        - apply rglob_any_complete; [exact Hu|].
          destruct (Fs.lookup (files w) d); [discriminate|]. simpl in Hd. discriminate.
        - rewrite Hd, Em. reflexivity. }
      rewrite Hnil in Hin. destruct Hin.
  - exists (Some c). split; [reflexivity|].
    apply sorted_by_key_head in E. destruct E as [Hc _].
    unfold sparse_candidates in Hc. apply filter_In in Hc. destruct Hc as [Hr Hf].
    apply andb_true_iff in Hf. destruct Hf as [Hf1 Hf2].
    apply rglob_sound in Hr. destruct Hr as [Hr _].
    split; [exact Hf2|]. right. split; assumption.
Qed.

End LocateMore.

(** ** The conf of the extraction stage *)

Section ConfFacts.

Lemma dict_get_set_eq (k : string) (v : pyval) (items : list (string * pyval)) :
  dict_get k (dict_set k v items) = Some v.
Proof.
  induction items as [|[k' v'] r IH]; simpl.
  - rewrite String.eqb_refl. reflexivity.
  - destruct (String.eqb k' k) eqn:E; simpl.
    + rewrite String.eqb_refl. reflexivity.
    + rewrite E. exact IH.
Qed.

Lemma dict_get_set_ne (k k0 : string) (v : pyval) (items : list (string * pyval)) :
  k0 <> k -> dict_get k0 (dict_set k v items) = dict_get k0 items.
Proof.
  intros Hne. induction items as [|[k' v'] r IH]; simpl.
  - destruct (String.eqb k k0) eqn:E; [|reflexivity].
    apply String.eqb_eq in E. congruence.
  - destruct (String.eqb k' k) eqn:E; simpl.
    + apply String.eqb_eq in E. subst k'.
      destruct (String.eqb k k0) eqn:E0; [|reflexivity].
      apply String.eqb_eq in E0. congruence.
    + destruct (String.eqb k' k0); [reflexivity|exact IH].
Qed.

(** X10.  Writing the keypoint cap into a conf whose ["model"] is a mapping
    sets ["max_keypoints"] there and nothing else: every other key of the
    model and every other key of the conf (its ["output"] name among them)
    reads as before. *)
Theorem with_max_keypoints_sets_only_the_cap
        (items model : list (string * pyval)) (max_keypoints : Z) :
  dict_get "model" items = Some (VDict model) ->
  exists items' model',
    with_max_keypoints (VDict items) max_keypoints = VDict items'
    /\ dict_get "model" items' = Some (VDict model')
    /\ dict_get "max_keypoints" model' = Some (VInt max_keypoints)
    /\ (forall k, k <> "max_keypoints" -> dict_get k model' = dict_get k model)
    /\ (forall k, k <> "model" -> dict_get k items' = dict_get k items).
Proof.
  intros H. unfold with_max_keypoints. rewrite H.
  do 2 eexists. split; [reflexivity|].
  split; [apply dict_get_set_eq|]. split; [apply dict_get_set_eq|].
  split; intros k Hk; apply dict_get_set_ne; exact Hk.
Qed.

(** A conf that is no mapping, or has no mapping under ["model"], goes
    through unchanged: the failure of the update is swallowed. *)
Lemma with_max_keypoints_unchanged (conf : pyval) (max_keypoints : Z) :
  (forall items model, conf = VDict items -> dict_get "model" items <> Some (VDict model)) ->
  with_max_keypoints conf max_keypoints = conf.
Proof.
  intros H. unfold with_max_keypoints. destruct conf as [| | | | |items]; try reflexivity.
  destruct (dict_get "model" items) as [[| | | | |model]|] eqn:E; try reflexivity.
  exfalso. exact (H items model eq_refl E).
Qed.

End ConfFacts.

Lemma with_max_keypoints_sets_only_the_cap_witness :
  exists items' model',
    with_max_keypoints
      (VDict [("output", VStr "feats-superpoint-n4096-r1024");
              ("model", VDict [("name", VStr "superpoint"); ("max_keypoints", VInt 4096)])])
      2048
    = VDict items'
    /\ dict_get "model" items' = Some (VDict model')
    /\ dict_get "max_keypoints" model' = Some (VInt 2048)
    /\ (forall k, k <> "max_keypoints" ->
                  dict_get k model'
                  = dict_get k [("name", VStr "superpoint"); ("max_keypoints", VInt 4096)])
    /\ (forall k, k <> "model" ->
                  dict_get k items'
                  = dict_get k [("output", VStr "feats-superpoint-n4096-r1024");
                                ("model", VDict [("name", VStr "superpoint");
                                                 ("max_keypoints", VInt 4096)])]).
Proof.
  apply (@with_max_keypoints_sets_only_the_cap
           [("output", VStr "feats-superpoint-n4096-r1024");
            ("model", VDict [("name", VStr "superpoint"); ("max_keypoints", VInt 4096)])]
           [("name", VStr "superpoint"); ("max_keypoints", VInt 4096)] 2048).
  reflexivity.
Defined.

(** ** The invokers of the reconstruction and extraction stages *)

Section InvokersMore.

Variable hloc : hloc_modules.

(** X11.  Reconstruction stage, exhausted fallback.  The third binding is
    positional like the first, so when five positional arguments do not
    bind and the five keywords do not bind either, all three attempts fail
    at binding: the stage body never runs, the three calls are in the
    history in order, and the last [TypeError] is raised. *)
Theorem call_reconstruction_exhausted
        (sfm_dir images_dir pairs_path feature_path match_path : path) (w : world) :
  let f := reconstruction_main hloc in
  binds (parameters f) 5 [] = false ->
  binds (parameters f) 0 ["sfm_dir"; "image_dir"; "pairs"; "features"; "matches"] = false ->
  exists e,
    is_TypeError e = true
    /\ call_reconstruction hloc sfm_dir images_dir pairs_path feature_path match_path w
       = (mk_world (files w) (stdout w) (clock w)
            (calls w
             ++ [mk_call (fn_name f)
                         [VPath sfm_dir; VPath images_dir; VPath pairs_path;
                          VPath feature_path; VPath match_path] [];
                 mk_call (fn_name f) []
                         [("sfm_dir", VPath sfm_dir); ("image_dir", VPath images_dir);
                          ("pairs", VPath pairs_path); ("features", VPath feature_path);
                          ("matches", VPath match_path)];
                 mk_call (fn_name f)
                         [VPath images_dir; VPath sfm_dir; VPath pairs_path;
                          VPath feature_path; VPath match_path] []]),
          Raise e).
Proof.
  intros f H1 H2.
  exists (mk_exn TypeError (fn_name f)). split; [reflexivity|].
  unfold call_reconstruction. fold f.
  unfold try_except, py_call. cbn [List.length map fst].
  rewrite H1, H2. cbn [is_TypeError exn_cls].
  unfold log_call. cbn [files stdout clock calls].
  rewrite <- !app_assoc. reflexivity.
Qed.

(** X12.  Extraction stage, exhausted fallback.  When neither three
    positional arguments nor the keywords [conf, image_dir, export_dir]
    bind, the third attempt first makes sure an [images.txt] exists in the
    export directory, creating an empty one only if there is none, and then
    fails to bind like the first: [TypeError] is raised after three
    attempts, and an image list that was there is left untouched. *)
Theorem call_extract_features_exhausted (images_dir export_dir : path)
        (max_keypoints : Z) (w : world) :
  let f := extract_features_main hloc in
  binds (parameters f) 3 [] = false ->
  binds (parameters f) 0 ["conf"; "image_dir"; "export_dir"] = false ->
  Fs.is_dir_node (Fs.lookup (files w) export_dir) = true ->
  file_or_absent (files w) (export_dir // "images.txt") = true ->
  exists w' e,
    call_extract_features hloc images_dir export_dir max_keypoints w = (w', Raise e)
    /\ is_TypeError e = true
    /\ List.length (calls w') = (List.length (calls w) + 3)%nat
    /\ Fs.lookup (files w') (export_dir // "images.txt")
       = match Fs.lookup (files w) (export_dir // "images.txt") with
         | Some n => Some n
         | None => Some (Fs.File "" (clock w))
         end
    /\ (forall q, q <> export_dir // "images.txt" ->
                  Fs.lookup (files w') q = Fs.lookup (files w) q).
Proof.
  intros f H1 H2 Hd Hf.
  unfold call_extract_features. fold (superpoint_conf hloc max_keypoints). fold f.
  unfold bind at 1.
  unfold try_except at 1. unfold bind at 1. unfold py_call at 1.
  cbn [List.length map fst]. rewrite H1. cbn [is_TypeError exn_cls].
  unfold try_except at 1. unfold bind at 1. unfold py_call at 1.
  cbn [List.length map fst]. rewrite H2. cbn [is_TypeError exn_cls].
  unfold bind at 1. unfold Os.exists_ at 1. unfold bind at 1.
  unfold get_files at 1. unfold ret at 1. unfold log_call. cbn [files stdout clock calls].
  unfold file_or_absent in Hf.
  destruct (Fs.lookup (files w) (export_dir // "images.txt")) as [[d t|t]|] eqn:El;
    try discriminate.
  - (* the image list is there *)
    unfold bind at 1. unfold ret at 1. unfold bind at 1. unfold py_call at 1.
    cbn [List.length map fst]. rewrite H1.
    do 2 eexists. split; [reflexivity|]. split; [reflexivity|].
    unfold log_call. cbn [files calls]. split.
    { rewrite !length_app. simpl. lia. }
    split; [exact El|reflexivity].
  - (* an empty one is created *)
    unfold bind at 1. unfold Os.write_text at 1. unfold bind at 1.
    unfold get_files at 1. cbn [files]. rewrite El, parent_div.
    destruct (Fs.lookup (files w) export_dir) as [[?|td]|]; try discriminate.
    unfold put_files. cbn [files stdout clock calls].
    unfold bind at 1. unfold py_call at 1.
    cbn [List.length map fst]. rewrite H1.
    do 2 eexists. split; [reflexivity|]. split; [reflexivity|].
    unfold log_call. cbn [files calls]. split.
    { rewrite !length_app. simpl. lia. }
    split.
    + apply lookup_set_eq. apply div_nonempty.
    + intros q Hq. apply lookup_set_ne. exact Hq.
Qed.

End InvokersMore.

Lemma call_reconstruction_exhausted_witness :
  exists e,
    is_TypeError e = true
    /\ call_reconstruction demo_hloc_broken ["s"] ["i"] ["p"] ["f"] ["m"] demo_world
       = (mk_world (files demo_world) (stdout demo_world) (clock demo_world)
            (calls demo_world
             ++ [mk_call "reconstruction.main"
                         [VPath ["s"]; VPath ["i"]; VPath ["p"]; VPath ["f"]; VPath ["m"]] [];
                 mk_call "reconstruction.main" []
                         [("sfm_dir", VPath ["s"]); ("image_dir", VPath ["i"]);
                          ("pairs", VPath ["p"]); ("features", VPath ["f"]);
                          ("matches", VPath ["m"])];
                 mk_call "reconstruction.main"
                         [VPath ["i"]; VPath ["s"]; VPath ["p"]; VPath ["f"]; VPath ["m"]] []]),
          Raise e).
Proof.
  apply (@call_reconstruction_exhausted demo_hloc_broken ["s"] ["i"] ["p"] ["f"] ["m"]
           demo_world).
  - reflexivity.
  - reflexivity.
Defined.

Lemma call_extract_features_exhausted_witness :
  exists w' e,
    call_extract_features demo_hloc_broken ["proj"; "images"] ["proj"; "hloc_work"] 4096
                          project_world = (w', Raise e)
    /\ is_TypeError e = true
    /\ List.length (calls w') = (List.length (calls project_world) + 3)%nat
    /\ Fs.lookup (files w') (["proj"; "hloc_work"] // "images.txt")
       = Some (Fs.File "" (clock project_world))
    /\ (forall q, q <> ["proj"; "hloc_work"] // "images.txt" ->
                  Fs.lookup (files w') q = Fs.lookup (files project_world) q).
Proof.
  apply (@call_extract_features_exhausted demo_hloc_broken ["proj"; "images"]
           ["proj"; "hloc_work"] 4096 project_world).
  - reflexivity.
  - reflexivity.
  - reflexivity.
  - reflexivity.
Defined.

(** ** What the consolidation leaves alone *)

Section Frames.

Lemma bind_inv {A B} (m : M A) (k : A -> M B) (w w' : world) (o : outcome B) :
  bind m k w = (w', o) ->
  (exists e, m w = (w', Raise e) /\ o = Raise e)
  \/ (exists w1 a, m w = (w1, Ret a) /\ k a w1 = (w', o)).
Proof.
  unfold bind. destruct (m w) as [w1 [a|e]]; intros H.
  - right. exists w1, a. auto.
  - inversion H; subst. left. exists e. auto.
Qed.

Lemma keeps_bind {A B} (P : Fs.store -> Prop) (m : M A) (k : A -> M B) :
  keeps P m ->
  (forall a w w1, m w = (w1, Ret a) -> keeps P (k a)) ->
  keeps P (bind m k).
Proof.
  intros Hm Hk w w' o H HP. apply bind_inv in H.
  destruct H as [[e [H _]]|[w1 [a [H1 H2]]]].
  - exact (Hm _ _ _ H HP).
  - exact (Hk a w w1 H1 _ _ _ H2 (Hm _ _ _ H1 HP)).
Qed.

Lemma keeps_unchanged {A} (P : Fs.store -> Prop) (m : M A) :
  (forall w w' o, m w = (w', o) -> files w' = files w) -> keeps P m.
Proof. intros Hm w w' o H HP. rewrite (Hm _ _ _ H). exact HP. Qed.

Lemma keeps_ret {A} (P : Fs.store -> Prop) (a : A) : keeps P (ret a).
Proof. apply keeps_unchanged. intros w w' o H. inversion H. reflexivity. Qed.

Lemma keeps_raise {A} (P : Fs.store -> Prop) (c : exn_class) (msg : string) :
  keeps P (@raise A c msg).
Proof. apply keeps_unchanged. intros w w' o H. inversion H. reflexivity. Qed.

Lemma keeps_print (P : Fs.store -> Prop) (line : string) : keeps P (print line).
Proof. apply keeps_unchanged. intros w w' o H. inversion H. reflexivity. Qed.

Lemma keeps_get_files (P : Fs.store -> Prop) : keeps P get_files.
Proof. apply keeps_unchanged. intros w w' o H. inversion H. reflexivity. Qed.

Lemma keeps_exists (P : Fs.store -> Prop) (p : path) : keeps P (Os.exists_ p).
Proof. apply keeps_unchanged. intros w w' o H. inversion H. reflexivity. Qed.

Lemma keeps_is_dir (P : Fs.store -> Prop) (p : path) : keeps P (Os.is_dir p).
Proof. apply keeps_unchanged. intros w w' o H. inversion H. reflexivity. Qed.

Lemma keeps_rglob (P : Fs.store -> Prop) (p : path) (pat : string) :
  keeps P (Os.rglob p pat).
Proof. apply keeps_unchanged. intros w w' o H. inversion H. reflexivity. Qed.

Lemma keeps_glob (P : Fs.store -> Prop) (p : path) (pat : string) :
  keeps P (Os.glob p pat).
Proof. apply keeps_unchanged. intros w w' o H. inversion H. reflexivity. Qed.

Lemma keeps_stat (P : Fs.store -> Prop) (p : path) : keeps P (Os.stat p).
Proof.
  apply keeps_unchanged. intros w w' o H.
  unfold Os.stat, bind, get_files, raise, ret in H.
  destruct (Fs.lookup (files w) p); inversion H; reflexivity.
Qed.

Lemma keeps_locate_sparse_dir (P : Fs.store -> Prop) (d : path) :
  keeps P (locate_sparse_dir d).
Proof.
  apply keeps_unchanged. intros w w' o H.
  unfold locate_sparse_dir, bind, get_files, ret in H.
  destruct (Seq.sorted_by_key _ _); [destruct (is_model_file_set _)|];
    inversion H; reflexivity.
Qed.

Lemma keeps_try_except {A} (P : Fs.store -> Prop) (m : M A) (handles : exn -> bool)
      (h : M A) :
  keeps P m -> keeps P h -> keeps P (try_except m handles h).
Proof.
  intros Hm Hh w w' o H HP. unfold try_except in H.
  destruct (m w) as [w1 [a|e]] eqn:E.
  - inversion H; subst. exact (Hm _ _ _ E HP).
  - destruct (handles e).
    + exact (Hh _ _ _ H (Hm _ _ _ E HP)).
    + inversion H; subst. exact (Hm _ _ _ E HP).
Qed.

Lemma keeps_for_each {A} (P : Fs.store -> Prop) (xs : list A) (body : A -> M unit) :
  (forall x, In x xs -> keeps P (body x)) -> keeps P (for_each xs body).
Proof.
  induction xs as [|x xs IH]; intros Hb.
  - apply keeps_ret.
  - cbn [for_each]. apply keeps_bind.
    + apply Hb. left; reflexivity.
    + intros _ _ _ _. apply IH. intros y Hy. apply Hb. right; exact Hy.
Qed.

(** Ancestors. *)
Lemma is_under_trans (a b c : path) :
  PurePath.is_under a b = true -> PurePath.is_under b c = true ->
  PurePath.is_under a c = true.
Proof.
  revert b c. induction a as [|x a IH]; intros [|y b] [|z c] H1 H2; simpl in *;
    try discriminate; try reflexivity.
  apply andb_true_iff in H1. destruct H1 as [E1 U1].
  apply andb_true_iff in H2. destruct H2 as [E2 U2].
  apply String.eqb_eq in E1. apply String.eqb_eq in E2. subst.
  rewrite String.eqb_refl. simpl. exact (IH _ _ U1 U2).
Qed.

Lemma is_under_app (d x : path) : x <> [] -> PurePath.is_under d (d ++ x) = true.
Proof.
  intros Hx. induction d as [|a d IH]; simpl.
  - destruct x; [congruence|reflexivity].
  - rewrite String.eqb_refl. exact IH.
Qed.

Lemma is_under_comparable (a b d : path) :
  PurePath.is_under a d = true -> PurePath.is_under b d = true ->
  a = b \/ PurePath.is_under a b = true \/ PurePath.is_under b a = true.
Proof.
  revert b d. induction a as [|x a IH]; intros [|y b] [|z d] H1 H2; simpl in *;
    try discriminate; auto.
  apply andb_true_iff in H1. destruct H1 as [E1 U1].
  apply andb_true_iff in H2. destruct H2 as [E2 U2].
  apply String.eqb_eq in E1. apply String.eqb_eq in E2. subst.
  rewrite String.eqb_refl. simpl.
  destruct (IH _ _ U1 U2) as [->|[H|H]]; auto.
Qed.

Lemma is_under_irrefl (a : path) : PurePath.is_under a a = false.
Proof.
  induction a as [|x a IH]; simpl; [reflexivity|].
  rewrite IH. apply andb_false_r.
Qed.

(** A path that is neither the root of a tree, nor inside it, nor above it
    stands in none of these relations to an entry of the tree either. *)
Lemma apart_below (r d q : path) :
  PurePath.is_under r d = true ->
  q <> r -> PurePath.is_under r q = false -> PurePath.is_under q r = false ->
  q <> d /\ PurePath.is_under d q = false /\ PurePath.is_under q d = false.
Proof.
  intros Hd Hne Hrq Hqr. split; [|split].
  - intros ->. congruence.
  - destruct (PurePath.is_under d q) eqn:E; [|reflexivity].
    rewrite (is_under_trans _ _ _ Hd E) in Hrq. discriminate.
  - destruct (PurePath.is_under q d) eqn:E; [|reflexivity].
    destruct (is_under_comparable _ _ _ E Hd) as [->|[H|H]]; congruence.
Qed.

Lemma prefix_is_above (p : path) (k : nat) :
  rev (skipn k (rev p)) = p \/ PurePath.is_under (rev (skipn k (rev p))) p = true.
Proof.
  rewrite skipn_rev, rev_involutive.
  remember (List.length p - k)%nat as m eqn:Em. clear Em.
  pose proof (firstn_skipn m p) as Hp.
  remember (firstn m p) as f eqn:Ef. clear Ef.
  destruct (skipn m p) as [|a x].
  - left. rewrite app_nil_r in Hp. exact Hp.
  - right. rewrite <- Hp. apply is_under_app. discriminate.
Qed.

(** The entries of the store that exist. *)
Section Entry.

Variable q : path.
Variable n : Fs.node.

Lemma mkdir_keeps_entry (p : path) : keeps (entry q n) (Os.mkdir p).
Proof.
  intros w w' o H HP. unfold entry in *.
  unfold Os.mkdir, bind, get_files, raise, put_files in H.
  destruct (Fs.lookup (files w) p) eqn:Ep.
  - inversion H; subst. exact HP.
  - destruct (Fs.lookup (files w) (PurePath.parent p)) as [[?|?]|];
      inversion H; subst; try exact HP.
    simpl. rewrite lookup_set_ne; [exact HP|]. intros ->. congruence.
Qed.

End Entry.

(** [mkdir(parents=True, exist_ok=True)] keeps what every [os.mkdir] of a
    prefix of the path keeps. *)
Lemma mkdir_parents_rev_keeps (P : Fs.store -> Prop) (rp : list string) :
  (forall k, keeps P (Os.mkdir (rev (skipn k rp)))) ->
  keeps P (Os.mkdir_parents_rev rp).
Proof.
  induction rp as [|a rp IH]; intros Hk w w' o H HP.
  - pose proof (Hk 0%nat) as H0. cbn [skipn] in H0.
    cbn [Os.mkdir_parents_rev] in H.
    destruct (Os.mkdir (rev []) w) as [w1 [[]|e]] eqn:E.
    + inversion H; subst. exact (H0 _ _ _ E HP).
    + pose proof (H0 _ _ _ E HP) as HP1.
      destruct (is_FileNotFoundError e).
      * inversion H; subst. exact HP1.
      * destruct (Fs.is_dir_node (Fs.lookup (files w1) (rev []))); inversion H; subst; exact HP1.
  - pose proof (Hk 0%nat) as H0. cbn [skipn] in H0.
    assert (IH' : keeps P (Os.mkdir_parents_rev rp)).
    { apply IH. intros k. exact (Hk (S k)). }
    cbn [Os.mkdir_parents_rev] in H.
    destruct (Os.mkdir (rev (a :: rp)) w) as [w1 [[]|e]] eqn:E.
    + inversion H; subst. exact (H0 _ _ _ E HP).
    + pose proof (H0 _ _ _ E HP) as HP1.
      destruct (is_FileNotFoundError e).
      * unfold bind in H.
        destruct (Os.mkdir_parents_rev rp w1) as [w2 [[]|e2]] eqn:E2.
        -- pose proof (IH' _ _ _ E2 HP1) as HP2.
           destruct (Os.mkdir (rev (a :: rp)) w2) as [w3 [[]|e3]] eqn:E3.
           ++ inversion H; subst. exact (H0 _ _ _ E3 HP2).
           ++ pose proof (H0 _ _ _ E3 HP2) as HP3.
              destruct (Fs.is_dir_node (Fs.lookup (files w3) (rev (a :: rp))));
                inversion H; subst; exact HP3.
        -- inversion H; subst. exact (IH' _ _ _ E2 HP1).
      * destruct (Fs.is_dir_node (Fs.lookup (files w1) (rev (a :: rp))));
          inversion H; subst; exact HP1.
Qed.

Lemma lookup_remove_absent (p q : path) (s : Fs.store) :
  Fs.lookup s q = None -> Fs.lookup (Fs.remove p s) q = None.
Proof.
  intros H. destruct q as [|a q]; [discriminate|]. simpl in *.
  unfold Fs.remove. induction s as [|[r x] s IH]; simpl in *; [reflexivity|].
  destruct (PurePath.eqb r (a :: q)) eqn:E; [discriminate|].
  destruct (negb (PurePath.eqb r p)); simpl; [rewrite E|]; exact (IH H).
Qed.

Lemma assoc_filter_absent (f : path * Fs.node -> bool) (q : path) (s : Fs.store) :
  Fs.assoc q s = None -> Fs.assoc q (filter f s) = None.
Proof.
  induction s as [|[r x] s IH]; simpl; [reflexivity|].
  destruct (PurePath.eqb r q) eqn:E; [discriminate|]. intros H.
  destruct (f (r, x)); simpl; [rewrite E|]; exact (IH H).
Qed.

Lemma lookup_rename_tree_absent (src dst q : path) (s : Fs.store) :
  Fs.lookup s q = None ->
  q <> dst -> PurePath.is_under dst q = false ->
  Fs.lookup (Fs.rename_tree src dst s) q = None.
Proof.
  intros Hq Hne Hu. destruct q as [|a q]; [discriminate|]. simpl in *.
  unfold Fs.rename_tree, Fs.remove_tree. rewrite assoc_app.
  rewrite assoc_filter_absent by exact Hq.
  induction (filter (fun e => PurePath.eqb (fst e) src || PurePath.is_under src (fst e)) s)
    as [|[r x] l IH]; simpl; [reflexivity|].
  destruct (PurePath.eqb (Fs.rebase src dst r) (a :: q)) eqn:E; [|exact IH].
  apply path_eqb_eq in E. unfold Fs.rebase in E.
  destruct (skipn (List.length src) r) as [|b y].
  - rewrite app_nil_r in E. congruence.
  - rewrite <- E in Hu. rewrite is_under_app in Hu by discriminate. discriminate.
Qed.

Section EntryMoves.

Variable q : path.
Variable n : Fs.node.

Lemma unlink_keeps_entry (p : path) : q <> p -> keeps (entry q n) (Os.unlink p).
Proof.
  intros Hne w w' o H HP. unfold entry in *.
  unfold Os.unlink, bind, get_files, raise, put_files in H.
  destruct (Fs.lookup (files w) p) as [[?|?]|]; inversion H; subst; try exact HP.
  simpl. rewrite lookup_remove_ne by exact Hne. exact HP.
Qed.

Lemma rename_keeps_entry (src dst : path) :
  q <> src -> PurePath.is_under src q = false -> q <> dst ->
  keeps (entry q n) (Os.rename src dst).
Proof.
  intros Hs Hu Hd w w' o H HP. unfold entry in *.
  assert (Hk : PurePath.eqb q src || PurePath.is_under src q = false).
  { rewrite Hu, path_eqb_neq by exact Hs. reflexivity. }
  unfold Os.rename, bind, get_files, raise, put_files, ret in H.
  destruct (Fs.lookup (files w) src) as [[d t|t]|].
  - destruct (Fs.lookup (files w) dst) as [[?|?]|];
      try (inversion H; subst; exact HP);
      (destruct (Fs.lookup (files w) (PurePath.parent dst)) as [[?|?]|];
       try (inversion H; subst; exact HP);
       destruct (PurePath.eqb src dst); inversion H; subst; try exact HP;
       simpl; rewrite lookup_set_ne, lookup_remove_ne by assumption; exact HP).
  - destruct (PurePath.eqb src dst); [inversion H; subst; exact HP|].
    destruct (PurePath.is_under src dst); [inversion H; subst; exact HP|].
    destruct (Fs.lookup (files w) dst) as [[?|?]|].
    + inversion H; subst; exact HP.
    + destruct (Fs.is_empty_dir (files w) dst); inversion H; subst; try exact HP.
      simpl. apply lookup_rename_tree_keep; [|exact Hk].
      rewrite lookup_remove_ne by exact Hd. exact HP.
    + destruct (Fs.lookup (files w) (PurePath.parent dst)) as [[?|?]|];
        inversion H; subst; try exact HP.
      simpl. apply lookup_rename_tree_keep; [exact HP|exact Hk].
  - inversion H; subst; exact HP.
Qed.

Lemma shutil_move_keeps_entry (src dst : path) :
  q <> src -> PurePath.is_under src q = false -> q <> dst ->
  keeps (entry q n) (Os.shutil_move src dst).
Proof.
  intros Hs Hu Hd w w' o H HP.
  unfold Os.shutil_move, Os.is_dir, Os.exists_, bind, get_files, ret in H.
  cbv beta iota in H.
  destruct (Fs.is_dir_node (Fs.lookup (files w) dst)).
  - destruct (PurePath.eqb src dst).
    + exact (@rename_keeps_entry src dst Hs Hu Hd _ _ _ H HP).
    + destruct (Fs.lookup (files w) (dst // PurePath.name src)) eqn:E.
      * unfold raise in H. inversion H; subst. exact HP.
      * refine (@rename_keeps_entry src _ Hs Hu _ _ _ _ H HP).
        intros ->. unfold entry in HP. congruence.
  - exact (@rename_keeps_entry src dst Hs Hu Hd _ _ _ H HP).
Qed.

Lemma mkdir_parents_keeps_entry (p : path) :
  keeps (entry q n) (Os.mkdir_parents_exist_ok p).
Proof.
  unfold Os.mkdir_parents_exist_ok. apply mkdir_parents_rev_keeps.
  intros k. apply mkdir_keeps_entry.
Qed.

Lemma move_file_keeps_entry (src dst : path) :
  q <> src -> PurePath.is_under src q = false -> q <> dst ->
  keeps (entry q n) (move_file src dst).
Proof.
  intros Hs Hu Hd. unfold move_file.
  apply keeps_bind; [apply mkdir_parents_keeps_entry|]. intros _ _ _ _.
  apply keeps_bind; [apply keeps_exists|]. intros e _ _ _.
  destruct e; [|apply shutil_move_keeps_entry; assumption].
  apply keeps_bind.
  - apply keeps_try_except; [|apply keeps_ret].
    apply keeps_bind; [apply keeps_stat|]. intros a _ _ _.
    apply keeps_bind; [apply keeps_stat|]. intros b _ _ _.
    destruct (Fs.st_size a =? Fs.st_size b)%Z; [|apply keeps_ret].
    apply keeps_bind; [apply unlink_keeps_entry; exact Hs|]. intros _ _ _ _.
    apply keeps_ret.
  - intros returned _ _ _. destruct returned; [apply keeps_ret|].
    apply keeps_bind; [apply unlink_keeps_entry; exact Hd|]. intros _ _ _ _.
    apply shutil_move_keeps_entry; assumption.
Qed.

Lemma dedup_sparse_zero_keeps_entry (sparse0 : path) :
  PurePath.is_under sparse0 q = false ->
  keeps (entry q n) (dedup_sparse_zero sparse0).
Proof.
  intros Hu. unfold dedup_sparse_zero.
  apply keeps_bind; [apply keeps_exists|]. intros e _ _ _.
  destruct (negb e); [apply keeps_ret|].
  apply keeps_bind; [apply keeps_glob|]. intros bins _ _ _.
  apply keeps_bind; [apply keeps_glob|]. intros txts w0 w1 Hg.
  unfold Os.glob, bind, get_files, ret in Hg. inversion Hg; subst w1 txts. clear Hg.
  apply keeps_for_each. intros txt Hin.
  destruct (mem_string (PurePath.stem txt) (map PurePath.stem bins)); [|apply keeps_ret].
  apply glob_sound in Hin. destruct Hin as [nm [-> _]].
  assert (Hne : q <> sparse0 // nm).
  { intros ->. rewrite is_under_div in Hu. discriminate. }
  intros w w' o H HP.
  destruct (Os.unlink (sparse0 // nm) w) as [w2 [[]|ex]] eqn:E;
    pose proof (@unlink_keeps_entry _ Hne _ _ _ E HP) as HP2;
    inversion H; subst; exact HP2.
Qed.

End EntryMoves.

Section AbsentMoves.

Variable q : path.

Lemma keeps_absent_root {A} (m : M A) : keeps (absent []) m.
Proof. intros w w' o _ HP. discriminate. Qed.

Lemma mkdir_keeps_absent (p : path) : q <> p -> keeps (absent q) (Os.mkdir p).
Proof.
  intros Hne w w' o H HP. unfold absent in *.
  unfold Os.mkdir, bind, get_files, raise, put_files in H.
  destruct (Fs.lookup (files w) p) eqn:Ep.
  - inversion H; subst. exact HP.
  - destruct (Fs.lookup (files w) (PurePath.parent p)) as [[?|?]|];
      inversion H; subst; try exact HP.
    simpl. rewrite lookup_set_ne by exact Hne. exact HP.
Qed.

Lemma mkdir_parents_keeps_absent (p : path) :
  q <> p -> PurePath.is_under q p = false ->
  keeps (absent q) (Os.mkdir_parents_exist_ok p).
Proof.
  intros Hne Hu. unfold Os.mkdir_parents_exist_ok. apply mkdir_parents_rev_keeps.
  intros k. apply mkdir_keeps_absent.
  destruct (prefix_is_above p k) as [E|E]; intros ->; congruence.
Qed.

Lemma unlink_keeps_absent (p : path) : keeps (absent q) (Os.unlink p).
Proof.
  intros w w' o H HP. unfold absent in *.
  unfold Os.unlink, bind, get_files, raise, put_files in H.
  destruct (Fs.lookup (files w) p) as [[?|?]|]; inversion H; subst; try exact HP.
  simpl. apply lookup_remove_absent. exact HP.
Qed.

Lemma rename_keeps_absent (src dst : path) :
  q <> dst -> PurePath.is_under dst q = false ->
  keeps (absent q) (Os.rename src dst).
Proof.
  intros Hd Hu w w' o H HP. unfold absent in *.
  unfold Os.rename, bind, get_files, raise, put_files, ret in H.
  destruct (Fs.lookup (files w) src) as [[d t|t]|].
  - destruct (Fs.lookup (files w) dst) as [[?|?]|];
      try (inversion H; subst; exact HP);
      (destruct (Fs.lookup (files w) (PurePath.parent dst)) as [[?|?]|];
       try (inversion H; subst; exact HP);
       destruct (PurePath.eqb src dst); inversion H; subst; try exact HP;
       simpl; rewrite lookup_set_ne by assumption;
       apply lookup_remove_absent; exact HP).
  - destruct (PurePath.eqb src dst); [inversion H; subst; exact HP|].
    destruct (PurePath.is_under src dst); [inversion H; subst; exact HP|].
    destruct (Fs.lookup (files w) dst) as [[?|?]|].
    + inversion H; subst; exact HP.
    + destruct (Fs.is_empty_dir (files w) dst); inversion H; subst; try exact HP.
      simpl. apply lookup_rename_tree_absent; [|exact Hd|exact Hu].
      apply lookup_remove_absent. exact HP.
    + destruct (Fs.lookup (files w) (PurePath.parent dst)) as [[?|?]|];
        inversion H; subst; try exact HP.
      simpl. apply lookup_rename_tree_absent; assumption.
  - inversion H; subst; exact HP.
Qed.

Lemma shutil_move_keeps_absent (src dst : path) :
  q <> dst -> PurePath.is_under dst q = false ->
  keeps (absent q) (Os.shutil_move src dst).
Proof.
  intros Hd Hu. unfold Os.shutil_move.
  apply keeps_bind; [apply keeps_is_dir|]. intros d _ _ _.
  destruct d; [|apply rename_keeps_absent; assumption].
  destruct (PurePath.eqb src dst); [apply rename_keeps_absent; assumption|].
  apply keeps_bind; [apply keeps_exists|]. intros e _ _ _.
  destruct e; [apply keeps_raise|].
  apply rename_keeps_absent.
  - intros ->. rewrite is_under_div in Hu. discriminate.
  - destruct (PurePath.is_under (dst // PurePath.name src) q) eqn:E; [|reflexivity].
    rewrite (is_under_trans _ _ _ (is_under_div dst (PurePath.name src)) E) in Hu.
    discriminate.
Qed.

Lemma move_file_keeps_absent (src dst : path) :
  q <> dst -> PurePath.is_under dst q = false -> PurePath.is_under q dst = false ->
  keeps (absent q) (move_file src dst).
Proof.
  intros Hd Hu Ha. unfold move_file.
  apply keeps_bind.
  { destruct dst as [|a0 d0] eqn:Edst.
    - apply mkdir_parents_keeps_absent; [exact Hd|exact Ha].
    - rewrite <- Edst in *.
      assert (Hne : dst <> []) by (rewrite Edst; discriminate).
      pose proof (parent_name Hne) as Hpn.
      apply mkdir_parents_keeps_absent.
      + intros ->. rewrite Hpn in Ha at 2. rewrite is_under_div in Ha. discriminate.
      + destruct (PurePath.is_under q (PurePath.parent dst)) eqn:E; [|reflexivity].
        apply is_under_div_r with (n := PurePath.name dst) in E.
        rewrite <- Hpn in E. congruence. }
  intros _ _ _ _.
  apply keeps_bind; [apply keeps_exists|]. intros e _ _ _.
  destruct e; [|apply shutil_move_keeps_absent; assumption].
  apply keeps_bind.
  - apply keeps_try_except; [|apply keeps_ret].
    apply keeps_bind; [apply keeps_stat|]. intros a _ _ _.
    apply keeps_bind; [apply keeps_stat|]. intros b _ _ _.
    destruct (Fs.st_size a =? Fs.st_size b)%Z; [|apply keeps_ret].
    apply keeps_bind; [apply unlink_keeps_absent|]. intros _ _ _ _.
    apply keeps_ret.
  - intros returned _ _ _. destruct returned; [apply keeps_ret|].
    apply keeps_bind; [apply unlink_keeps_absent|]. intros _ _ _ _.
    apply shutil_move_keeps_absent; assumption.
Qed.

Lemma dedup_sparse_zero_keeps_absent (sparse0 : path) :
  keeps (absent q) (dedup_sparse_zero sparse0).
Proof.
  unfold dedup_sparse_zero.
  apply keeps_bind; [apply keeps_exists|]. intros e _ _ _.
  destruct (negb e); [apply keeps_ret|].
  apply keeps_bind; [apply keeps_glob|]. intros bins _ _ _.
  apply keeps_bind; [apply keeps_glob|]. intros txts _ _ _.
  apply keeps_for_each. intros txt _.
  destruct (mem_string (PurePath.stem txt) (map PurePath.stem bins)); [|apply keeps_ret].
  intros w w' o H HP.
  destruct (Os.unlink txt w) as [w2 [[]|ex]] eqn:E;
    pose proof (@unlink_keeps_absent _ _ _ _ E HP) as HP2;
    inversion H; subst; exact HP2.
Qed.

End AbsentMoves.

End Frames.

Section FinalizeFrame.

(** What [locate_sparse_dir] returns is its argument or lies below it. *)
Lemma locate_sparse_dir_under (r d : path) (w w1 : world) :
  locate_sparse_dir r w = (w1, Ret (Some d)) ->
  d = r \/ PurePath.is_under r d = true.
Proof.
  unfold locate_sparse_dir, bind, get_files, ret.
  destruct (Seq.sorted_by_key _ (sparse_candidates (files w) r)) as [|c cs] eqn:E.
  - destruct (is_model_file_set _); intros H; inversion H. left. reflexivity.
  - intros H. inversion H; subst. right.
    apply sorted_by_key_head in E. destruct E as [Hin _].
    unfold sparse_candidates in Hin. apply filter_In in Hin. destruct Hin as [Hin _].
    apply rglob_sound in Hin. tauto.
Qed.

(** The model half of the consolidation keeps what its moves, its [mkdir]
    and its deduplication keep. *)
Lemma finalize_model_keeps (P : Fs.store -> Prop) (out work : path) :
  keeps P (Os.mkdir_parents_exist_ok (out // "sparse" // "0")) ->
  (forall p, PurePath.is_under work p = true ->
             keeps P (move_file p (out // "sparse" // "0" // PurePath.name p))) ->
  keeps P (dedup_sparse_zero (out // "sparse" // "0")) ->
  keeps P
    (found <- locate_sparse_dir (work // "sfm") ;;
     found <- match found with
              | Some d => ret (Some d)
              | None => locate_sparse_dir work
              end ;;
     match found with
     | None =>
         print ("[WARN] Could not find COLMAP sparse model under "
                ++ PurePath.str (work // "sfm") ++ ".")
     | Some sparse_src =>
         e <- Os.exists_ (out // "sparse" // "0") ;;
         (if negb e then Os.mkdir_parents_exist_ok (out // "sparse" // "0") else ret tt) ;;
         ps <- Os.rglob sparse_src "*" ;;
         for_each ps
           (fun p =>
              d <- Os.is_dir p ;;
              if d then ret tt
              else move_file p (out // "sparse" // "0" // PurePath.name p)) ;;
         dedup_sparse_zero (out // "sparse" // "0") ;;
         print ("[COLMAP] sparse -> " ++ PurePath.str (out // "sparse" // "0")
                ++ " (cleaned duplicates)")
     end).
Proof.
  intros Hmk Hmv Hdd.
  apply keeps_bind; [apply keeps_locate_sparse_dir|]. intros f1 w2 w3 Hf1.
  apply keeps_bind.
  { destruct f1; [apply keeps_ret|apply keeps_locate_sparse_dir]. }
  intros f2 w4 w5 Hf2.
  destruct f2 as [sparse_src|]; [|apply keeps_print].
  assert (Hsrc : sparse_src = work \/ PurePath.is_under work sparse_src = true).
  { destruct f1 as [d|].
    - unfold ret in Hf2. inversion Hf2; subst.
      apply locate_sparse_dir_under in Hf1. right.
      destruct Hf1 as [->|Hf1]; [apply is_under_div|].
      exact (is_under_trans _ _ _ (is_under_div work "sfm") Hf1).
    - apply locate_sparse_dir_under in Hf2. exact Hf2. }
  apply keeps_bind; [apply keeps_exists|]. intros e _ _ _.
  apply keeps_bind.
  { destruct (negb e); [exact Hmk|apply keeps_ret]. }
  intros _ _ _ _.
  apply keeps_bind; [apply keeps_rglob|]. intros ps w6 w7 Hps.
  unfold Os.rglob, bind, get_files, ret in Hps. inversion Hps; subst w7 ps. clear Hps.
  apply keeps_bind.
  { apply keeps_for_each. intros p Hin.
    apply rglob_sound in Hin. destruct Hin as [Hu _].
    assert (Hw : PurePath.is_under work p = true).
    { destruct Hsrc as [->|Hsrc]; [exact Hu|exact (is_under_trans _ _ _ Hsrc Hu)]. }
    apply keeps_bind; [apply keeps_is_dir|]. intros d _ _ _.
    destruct d; [apply keeps_ret|apply Hmv; exact Hw]. }
  intros _ _ _ _.
  apply keeps_bind; [exact Hdd|]. intros _ _ _ _. apply keeps_print.
Qed.

(** The consolidation keeps what its moves, its [mkdir] and its
    deduplication keep. *)
Lemma finalize_keeps (P : Fs.store -> Prop) (out work : path) :
  (forall src, PurePath.is_under work src = true ->
               keeps P (move_file src (out // "database.db"))) ->
  keeps P (Os.mkdir_parents_exist_ok (out // "sparse" // "0")) ->
  (forall p, PurePath.is_under work p = true ->
             keeps P (move_file p (out // "sparse" // "0" // PurePath.name p))) ->
  keeps P (dedup_sparse_zero (out // "sparse" // "0")) ->
  keeps P (finalize_to_colmap_layout out work).
Proof.
  intros Hdb Hmk Hmv Hdd. unfold finalize_to_colmap_layout.
  apply keeps_bind; [apply keeps_rglob|]. intros cands w0 w1 Hc.
  unfold Os.rglob, bind, get_files, ret in Hc. inversion Hc; subst w1 cands. clear Hc.
  apply keeps_bind; [apply keeps_get_files|]. intros s _ _ _.
  apply keeps_bind.
  { destruct (Seq.last_opt _) as [db_src|] eqn:E; [|apply keeps_print].
    apply sorted_by_key_last in E. destruct E as [Hin _].
    apply rglob_sound in Hin. destruct Hin as [Hu _].
    apply keeps_bind; [apply Hdb; exact Hu|]. intros _ _ _ _. apply keeps_print. }
  intros _ _ _ _.
  apply finalize_model_keeps; assumption.
Qed.

(** X15.  Whatever its outcome, [move_file] leaves every path as it was,
    apart from [src], the paths below [src], [dst], and paths that named
    nothing and lie above or below [dst] (missing ancestors it creates;
    the contents of a directory it moves). *)
Theorem move_file_frame (src dst : path) (w w' : world) (o : outcome unit) (q : path) :
  move_file src dst w = (w', o) ->
  q <> src -> PurePath.is_under src q = false -> q <> dst ->
  (Fs.lookup (files w) q = None ->
   PurePath.is_under dst q = false /\ PurePath.is_under q dst = false) ->
  Fs.lookup (files w') q = Fs.lookup (files w) q.
Proof.
  intros H Hs Hu Hd Habs.
  destruct (Fs.lookup (files w) q) as [n|] eqn:E.
  - exact (@move_file_keeps_entry q n src dst Hs Hu Hd _ _ _ H E).
  - destruct (Habs eq_refl) as [H1 H2].
    exact (@move_file_keeps_absent q src dst Hd H1 H2 _ _ _ H E).
Qed.

(** X16.  Whatever its outcome, the consolidation leaves alone every entry
    outside the work directory other than [database.db] of the output root
    and the contents of its [sparse/0]; and it creates nothing but these,
    what lies below them, and their missing ancestors.  In particular the
    images of a project whose outputs go to the project directory are not
    touched. *)
Theorem finalize_to_colmap_layout_frame (project_out_root work_dir : path)
        (w w' : world) (o : outcome unit) (q : path) :
  finalize_to_colmap_layout project_out_root work_dir w = (w', o) ->
  PurePath.is_under work_dir q = false ->
  q <> project_out_root // "database.db" ->
  PurePath.is_under (project_out_root // "sparse" // "0") q = false ->
  (Fs.lookup (files w) q = None ->
   PurePath.is_under (project_out_root // "database.db") q = false
   /\ PurePath.is_under q (project_out_root // "database.db") = false
   /\ q <> project_out_root // "sparse" // "0"
   /\ PurePath.is_under q (project_out_root // "sparse" // "0") = false) ->
  Fs.lookup (files w') q = Fs.lookup (files w) q.
Proof.
  intros H Hw Hdb Hs0 Habs.
  assert (Hsrc : forall p, PurePath.is_under work_dir p = true ->
                           q <> p /\ PurePath.is_under p q = false).
  { intros p Hp. split; [intros ->; congruence|].
    destruct (PurePath.is_under p q) eqn:E; [|reflexivity].
    rewrite (is_under_trans _ _ _ Hp E) in Hw. discriminate. }
  assert (Hdst : forall nm, q <> project_out_root // "sparse" // "0" // nm).
  { intros nm ->. rewrite is_under_div in Hs0. discriminate. }
  destruct (Fs.lookup (files w) q) as [n|] eqn:E.
  - refine (@finalize_keeps (entry q n) project_out_root work_dir _ _ _ _ _ _ _ H E).
    + intros src Hu. destruct (Hsrc _ Hu). apply move_file_keeps_entry; assumption.
    + apply mkdir_parents_keeps_entry.
    + intros p Hu. destruct (Hsrc _ Hu). apply move_file_keeps_entry; auto.
    + apply dedup_sparse_zero_keeps_entry. exact Hs0.
  - destruct (Habs eq_refl) as [H1 [H2 [H3 H4]]].
    refine (@finalize_keeps (absent q) project_out_root work_dir _ _ _ _ _ _ _ H E).
    + intros src _. apply move_file_keeps_absent; assumption.
    + apply mkdir_parents_keeps_absent; assumption.
    + intros p _.
      destruct (@apart_below (project_out_root // "sparse" // "0")
                  (project_out_root // "sparse" // "0" // PurePath.name p) q
                  (is_under_div _ _) H3 Hs0 H4) as [A [B C]].
      apply move_file_keeps_absent; assumption.
    + apply dedup_sparse_zero_keeps_absent.
Qed.

End FinalizeFrame.

Lemma move_file_frame_witness :
  Fs.lookup (files (fst (move_file ["out"; "hloc_work"; "cameras.bin"] ["out"; "cameras.bin"]
                           demo_world))) ["out"; "hloc_work"]
  = Fs.lookup (files demo_world) ["out"; "hloc_work"].
Proof.
  apply (@move_file_frame ["out"; "hloc_work"; "cameras.bin"] ["out"; "cameras.bin"]
           demo_world _ (snd (move_file ["out"; "hloc_work"; "cameras.bin"]
                                ["out"; "cameras.bin"] demo_world))).
  - vm_compute. reflexivity.
  - intro H; discriminate H.
  - reflexivity.
  - intro H; discriminate H.
  - intro H; discriminate H.
Defined.

Lemma finalize_to_colmap_layout_frame_witness :
  Fs.lookup (files (fst (finalize_to_colmap_layout ["proj"] ["proj"; "hloc_work"]
                           reconstructed_world))) ["proj"; "images"; "a.png"]
  = Fs.lookup (files reconstructed_world) ["proj"; "images"; "a.png"].
Proof.
  apply (@finalize_to_colmap_layout_frame ["proj"] ["proj"; "hloc_work"]
           reconstructed_world _
           (snd (finalize_to_colmap_layout ["proj"] ["proj"; "hloc_work"]
                   reconstructed_world))).
  - vm_compute. reflexivity.
  - reflexivity.
  - intro H; discriminate H.
  - reflexivity.
  - intro H; discriminate H.
Defined.

(** ** A directory in the way *)

Section DirectoryInTheWay.

(** X17.  When [dst] is a directory, [move_file] never moves anything onto
    or into it.  Either it raises and leaves the world as it was, or, when
    [src] is a regular file whose size equals the [st_size] of the
    directory, it returns after deleting [src]: the bytes of [src] are then
    nowhere. *)
Theorem move_file_onto_directory (src dst : path) (t : Z) (w w' : world)
        (o : outcome unit) :
  Fs.lookup (files w) dst = Some (Fs.Dir t) ->
  Fs.is_dir_node (Fs.lookup (files w) (PurePath.parent dst)) = true ->
  move_file src dst w = (w', o) ->
  ((exists e, o = Raise e) /\ w' = w)
  \/ (o = Ret tt
      /\ (exists d t0, Fs.lookup (files w) src = Some (Fs.File d t0)
                       /\ Fs.st_size (Fs.File d t0) = Fs.st_size (Fs.Dir t))
      /\ files w' = Fs.remove src (files w)
      /\ Fs.lookup (files w') dst = Some (Fs.Dir t)).
Proof.
  intros Hd Hp H. unfold move_file in H. unfold bind at 1 in H.
  rewrite (mkdir_parents_exist_ok_noop _ _ Hp) in H.
  cbv beta iota zeta delta [Os.no_entry Os.exists_ bind get_files ret try_except Os.stat Os.unlink
                              raise put_files] in H.
  rewrite Hd in H. cbv beta iota in H.
  destruct (Fs.lookup (files w) src) as [[d t0|t0]|] eqn:Es; cbv beta iota in H.
  - rewrite ?Hd in H. cbv beta iota in H.
    destruct (Fs.st_size (Fs.File d t0) =? Fs.st_size (Fs.Dir t))%Z eqn:Esz;
      cbv beta iota in H.
    + rewrite ?Es in H. cbv beta iota in H. inversion H; subst. right.
      split; [reflexivity|]. split.
      * exists d, t0. split; [reflexivity|]. apply Z.eqb_eq. exact Esz.
      * split; [reflexivity|]. simpl.
        rewrite lookup_remove_ne; [exact Hd|]. intros E. rewrite E, Es in Hd. discriminate.
    + rewrite ?Hd in H. inversion H; subst. left. split; [eexists; reflexivity|reflexivity].
  - rewrite ?Hd in H. cbv beta iota in H.
    destruct (Fs.st_size (Fs.Dir t0) =? Fs.st_size (Fs.Dir t))%Z; cbv beta iota in H.
    + rewrite ?Es in H. cbv beta iota in H. rewrite ?Hd in H.
      inversion H; subst. left. split; [eexists; reflexivity|reflexivity].
    + rewrite ?Hd in H. inversion H; subst. left. split; [eexists; reflexivity|reflexivity].
  - rewrite ?Hd in H. inversion H; subst. left. split; [eexists; reflexivity|reflexivity].
Qed.

End DirectoryInTheWay.

Lemma move_file_onto_directory_witness :
  ((exists e, snd (move_file ["out"; "hloc_work"; "database.db"] ["out"; "database.db"]
                     blocked_world) = Raise e)
   /\ fst (move_file ["out"; "hloc_work"; "database.db"] ["out"; "database.db"]
             blocked_world) = blocked_world)
  \/ (snd (move_file ["out"; "hloc_work"; "database.db"] ["out"; "database.db"]
             blocked_world) = Ret tt
      /\ (exists d t0, Fs.lookup (files blocked_world) ["out"; "hloc_work"; "database.db"]
                       = Some (Fs.File d t0)
                       /\ Fs.st_size (Fs.File d t0) = Fs.st_size (Fs.Dir 7))
      /\ files (fst (move_file ["out"; "hloc_work"; "database.db"] ["out"; "database.db"]
                       blocked_world))
         = Fs.remove ["out"; "hloc_work"; "database.db"] (files blocked_world)
      /\ Fs.lookup (files (fst (move_file ["out"; "hloc_work"; "database.db"]
                                  ["out"; "database.db"] blocked_world)))
                   ["out"; "database.db"] = Some (Fs.Dir 7)).
Proof.
  apply (@move_file_onto_directory ["out"; "hloc_work"; "database.db"] ["out"; "database.db"]
           7 blocked_world).
  - reflexivity.
  - reflexivity.
  - vm_compute. reflexivity.
Defined.

(** ** The database reaches the output root *)

Section Delivery.

Lemma is_under_app_cancel (d a b : path) :
  PurePath.is_under (d ++ a) (d ++ b) = PurePath.is_under a b.
Proof.
  induction d as [|x d IH]; simpl; [reflexivity|].
  rewrite String.eqb_refl. exact IH.
Qed.

Lemma assoc_rebased_root (src dst : path) (n : Fs.node) (l : Fs.store) :
  dst <> [] ->
  Fs.assoc src l = Some n ->
  Forall (fun e => PurePath.eqb (fst e) src || PurePath.is_under src (fst e) = true) l ->
  Fs.assoc dst (map (fun e => (Fs.rebase src dst (fst e), snd e)) l) = Some n.
Proof.
  intros Hne. induction l as [|[r x] l IH]; simpl; [discriminate|].
  intros Ha Hall. inversion Hall as [|? ? Hr Hl]; subst. simpl in Hr.
  destruct (PurePath.eqb r src) eqn:E.
  - apply path_eqb_eq in E. subst r. unfold Fs.rebase.
    rewrite skipn_all, app_nil_r, path_eqb_refl. exact Ha.
  - simpl in Hr.
    assert (Hk : PurePath.eqb (Fs.rebase src dst r) dst = false).
    { apply path_eqb_neq. unfold Fs.rebase. intros Eq.
      assert (Hs : skipn (List.length src) r = []).
      { apply (app_inv_head dst). rewrite app_nil_r. exact Eq. }
      clear - Hr Hs. revert r Hr Hs.
      induction src as [|a src IH]; intros [|b r] Hr Hs; simpl in *; try discriminate.
      apply andb_true_iff in Hr. destruct Hr as [_ Hr]. exact (IH _ Hr Hs). }
    rewrite Hk. exact (IH Ha Hl).
Qed.

Lemma assoc_filter_keep (f : path * Fs.node -> bool) (q : path) (s : Fs.store) :
  (forall x, f (q, x) = true) ->
  Fs.assoc q (filter f s) = Fs.assoc q s.
Proof.
  intros Hf. induction s as [|[r x] s IH]; simpl; [reflexivity|].
  destruct (PurePath.eqb r q) eqn:E.
  - apply path_eqb_eq in E. subst r. rewrite Hf. simpl. rewrite path_eqb_refl. reflexivity.
  - destruct (f (r, x)); simpl; [rewrite E|]; exact IH.
Qed.

(** Renaming a tree onto a path that names nothing puts the root of the
    tree there. *)
Lemma lookup_rename_tree_root (src dst : path) (n : Fs.node) (s : Fs.store) :
  src <> [] -> dst <> [] ->
  Fs.lookup s src = Some n ->
  Fs.lookup s dst = None ->
  Fs.lookup (Fs.rename_tree src dst s) dst = Some n.
Proof.
  intros Hs Hd Hsrc Hdst.
  destruct src as [|a0 src0] eqn:Esrc; [congruence|]. rewrite <- Esrc in *.
  destruct dst as [|b0 dst0] eqn:Edst; [congruence|]. rewrite <- Edst in *.
  assert (Ha : Fs.assoc src s = Some n) by (rewrite Esrc in *; exact Hsrc).
  assert (Hb : Fs.assoc dst s = None) by (rewrite Edst in *; exact Hdst).
  assert (Hl : Fs.lookup (Fs.rename_tree src dst s) dst
               = Fs.assoc dst (Fs.rename_tree src dst s)) by (rewrite Edst; reflexivity).
  rewrite Hl. unfold Fs.rename_tree, Fs.remove_tree.
  rewrite assoc_app, assoc_filter_absent by exact Hb.
  apply assoc_rebased_root.
  - rewrite Edst. discriminate.
  - rewrite assoc_filter_keep; [exact Ha|]. intros x. simpl.
    rewrite path_eqb_refl. reflexivity.
  - apply Forall_forall. intros e He. apply filter_In in He. tauto.
Qed.

Lemma rename_Ret_dst (src dst : path) (n : Fs.node) (w w' : world) :
  dst <> [] ->
  Fs.lookup (files w) src = Some n ->
  Fs.lookup (files w) dst = None ->
  Os.rename src dst w = (w', Ret tt) ->
  Fs.lookup (files w') dst = Some n.
Proof.
  intros Hne Hs Hd H.
  unfold Os.rename, Os.no_entry, bind, get_files, raise, put_files, ret in H.
  rewrite Hs, Hd in H. destruct n as [d t|t].
  - destruct (Fs.lookup (files w) (PurePath.parent dst)) as [[?|?]|]; try discriminate.
    destruct (PurePath.eqb src dst) eqn:E.
    + apply path_eqb_eq in E. subst. congruence.
    + inversion H; subst. simpl. apply lookup_set_eq. exact Hne.
  - destruct (PurePath.eqb src dst) eqn:E.
    + apply path_eqb_eq in E. subst. congruence.
    + destruct (PurePath.is_under src dst) eqn:Eu; [discriminate|].
      destruct (Fs.lookup (files w) (PurePath.parent dst)) as [[?|?]|]; try discriminate.
      inversion H; subst. simpl.
      apply lookup_rename_tree_root; try assumption.
      intros ->. destruct dst; [congruence|discriminate].
Qed.

Lemma shutil_move_Ret_dst (src dst : path) (n : Fs.node) (w w' : world) :
  dst <> [] ->
  Fs.lookup (files w) src = Some n ->
  Fs.lookup (files w) dst = None ->
  Os.shutil_move src dst w = (w', Ret tt) ->
  Fs.lookup (files w') dst = Some n.
Proof.
  intros Hne Hs Hd. unfold Os.shutil_move, Os.is_dir, bind, get_files, ret.
  rewrite Hd. simpl. apply rename_Ret_dst; assumption.
Qed.

(** When [move_file] returns, the destination holds what the source held,
    or what it held itself. *)
Lemma move_file_Ret_dst (src dst : path) (n : Fs.node) (w w' : world) :
  src <> dst -> dst <> [] ->
  Fs.lookup (files w) src = Some n ->
  move_file src dst w = (w', Ret tt) ->
  Fs.lookup (files w') dst = Some n
  \/ (Fs.lookup (files w) dst <> None
      /\ Fs.lookup (files w') dst = Fs.lookup (files w) dst).
Proof.
  intros Hsd Hne Hs H. unfold move_file in H.
  apply bind_Ret_inv in H. destruct H as [w1 [[] [Hmk H]]].
  pose proof (@mkdir_parents_keeps_entry src n _ _ _ _ Hmk Hs) as Hs1.
  unfold entry in Hs1.
  assert (Hd1 : forall m, Fs.lookup (files w1) dst = Some m ->
                          Fs.lookup (files w) dst = Some m
                          \/ Fs.lookup (files w) dst = None).
  { intros m Hm. destruct (Fs.lookup (files w) dst) as [m0|] eqn:E; [|right; reflexivity].
    left. pose proof (@mkdir_parents_keeps_entry dst m0 _ _ _ _ Hmk E) as K.
    unfold entry in K. congruence. }
  unfold bind at 1 in H. unfold Os.exists_ at 1 in H.
  unfold bind at 1, get_files at 1, ret at 1 in H.
  destruct (Fs.lookup (files w1) dst) as [nd|] eqn:Ed.
  - apply bind_Ret_inv in H. destruct H as [w2 [returned [Htry H]]].
    cbv beta iota zeta delta [Os.no_entry try_except Os.stat Os.unlink bind get_files raise put_files ret]
      in Htry.
    rewrite Hs1, Ed in Htry. cbv beta iota in Htry.
    destruct (Fs.st_size n =? Fs.st_size nd)%Z.
    + rewrite Hs1 in Htry. destruct n as [d t|t]; cbv beta iota in Htry.
      * inversion Htry; subst w2 returned. clear Htry.
        unfold ret in H. inversion H; subst w'. clear H. simpl.
        rewrite lookup_remove_ne by congruence. rewrite Ed.
        destruct (Hd1 nd eq_refl) as [K|K].
        -- right. rewrite K. split; [discriminate|reflexivity].
        -- exfalso.
           (* the destination was made by [mkdir]: it is then a directory
              above itself *)
           pose proof (@mkdir_parents_keeps_absent dst (PurePath.parent dst)
                         (fun E => parent_neq Hne (eq_sym E))) as A.
           assert (Hu : PurePath.is_under dst (PurePath.parent dst) = false).
           { destruct (PurePath.is_under dst (PurePath.parent dst)) eqn:Eu; [|reflexivity].
             pose proof (is_under_trans _ _ _ Eu
                           (eq_ind_r (fun p => PurePath.is_under (PurePath.parent dst) p = true)
                                     (is_under_div _ _) (parent_name Hne))) as C.
             rewrite is_under_irrefl in C. discriminate. }
           specialize (A Hu _ _ _ Hmk K). unfold absent in A. congruence.
      * inversion Htry; subst w2 returned. clear Htry.
        apply bind_Ret_inv in H. destruct H as [w3 [[] [Hun H]]].
        cbv beta iota zeta delta [Os.no_entry Os.unlink bind get_files raise put_files] in Hun.
        rewrite Ed in Hun. destruct nd as [dd td|td]; [|discriminate].
        inversion Hun; subst w3. clear Hun.
        left. refine (@shutil_move_Ret_dst src dst (Fs.Dir t) _ _ Hne _ _ H); simpl.
        -- rewrite lookup_remove_ne by exact Hsd. exact Hs1.
        -- apply lookup_remove_eq. exact Hne.
    + inversion Htry; subst w2 returned. clear Htry.
      apply bind_Ret_inv in H. destruct H as [w3 [[] [Hun H]]].
      cbv beta iota zeta delta [Os.no_entry Os.unlink bind get_files raise put_files] in Hun.
      rewrite Ed in Hun. destruct nd as [dd td|td]; [|discriminate].
      inversion Hun; subst w3. clear Hun.
      left. refine (@shutil_move_Ret_dst src dst n _ _ Hne _ _ H); simpl.
      * rewrite lookup_remove_ne by exact Hsd. exact Hs1.
      * apply lookup_remove_eq. exact Hne.
  - left. exact (@shutil_move_Ret_dst src dst n _ _ Hne Hs1 Ed H).
Qed.

(** X18.  When the consolidation returns and the work directory held a
    [database.db], the output root holds a [database.db] afterwards: the
    most recently modified one of the work directory, or the one the output
    root already had (kept when the two have the same size).  The output
    root's [database.db] must not itself lie in the work directory. *)
Theorem finalize_delivers_database (project_out_root work_dir : path) (w w' : world) :
  finalize_to_colmap_layout project_out_root work_dir w = (w', Ret tt) ->
  Fs.rglob (files w) work_dir "database.db" <> [] ->
  PurePath.is_under work_dir (project_out_root // "database.db") = false ->
  exists db_src,
    In db_src (Fs.rglob (files w) work_dir "database.db")
    /\ (forall c, In c (Fs.rglob (files w) work_dir "database.db") ->
                  (mtime_or_zero (files w) c <= mtime_or_zero (files w) db_src)%Z)
    /\ Fs.lookup (files w') (project_out_root // "database.db") <> None
    /\ (Fs.lookup (files w') (project_out_root // "database.db")
        = Fs.lookup (files w) db_src
        \/ Fs.lookup (files w') (project_out_root // "database.db")
           = Fs.lookup (files w) (project_out_root // "database.db")).
Proof.
  intros H Hne Hout. unfold finalize_to_colmap_layout in H.
  apply bind_Ret_inv in H. destruct H as [w1 [cands [Hc H]]].
  unfold Os.rglob, bind, get_files, ret in Hc. inversion Hc; subst w1 cands. clear Hc.
  apply bind_Ret_inv in H. destruct H as [w1 [s [Hg H]]].
  unfold get_files in Hg. inversion Hg; subst w1 s. clear Hg.
  apply bind_Ret_inv in H. destruct H as [w2 [[] [Hdb H]]].
  destruct (Seq.last_opt (Seq.sorted_by_key (mtime_or_zero (files w))
                            (Fs.rglob (files w) work_dir "database.db")))
    as [db_src|] eqn:E.
  2:{ unfold Seq.sorted_by_key in E. apply last_opt_sorted_none in E. congruence. }
  apply sorted_by_key_last in E. destruct E as [Hin Hmax].
  exists db_src. split; [exact Hin|]. split; [exact Hmax|].
  destruct (rglob_sound _ _ _ _ Hin) as [Hu [_ Hex]].
  destruct (Fs.lookup (files w) db_src) as [n|] eqn:Es; [|congruence].
  apply bind_Ret_inv in Hdb. destruct Hdb as [w3 [[] [Hmv Hpr]]].
  rewrite print_run in Hpr. inversion Hpr; subst w2. clear Hpr.
  assert (Hsd : db_src <> project_out_root // "database.db").
  { intros K. rewrite K in Hu. congruence. }
  apply (@move_file_Ret_dst _ _ n _ _ Hsd (@div_nonempty _ _) Es) in Hmv.
  assert (Hfin : exists m, Fs.lookup (files w3) (project_out_root // "database.db") = Some m).
  { destruct Hmv as [K|[K1 K2]].
    - exists n. exact K.
    - destruct (Fs.lookup (files w) (project_out_root // "database.db")) as [m|];
        [|congruence]. exists m. exact K2. }
  destruct Hfin as [m Hm].
  assert (Hkeep : Fs.lookup (files w') (project_out_root // "database.db") = Some m).
  { refine (@finalize_model_keeps (entry (project_out_root // "database.db") m)
              project_out_root work_dir _ _ _ _ _ _ H Hm).
    - apply mkdir_parents_keeps_entry.
    - intros p Hp. apply move_file_keeps_entry.
      + intros K. rewrite <- K in Hp. congruence.
      + destruct (PurePath.is_under p (project_out_root // "database.db")) eqn:Ep;
          [|reflexivity].
        rewrite (is_under_trans _ _ _ Hp Ep) in Hout. discriminate.
      + unfold PurePath.div. rewrite <- !app_assoc. intros K.
        apply app_inv_head in K. discriminate.
    - apply dedup_sparse_zero_keeps_entry.
      unfold PurePath.div. rewrite <- !app_assoc. rewrite is_under_app_cancel. reflexivity. }
  split; [rewrite Hkeep; discriminate|].
  rewrite Hkeep, <- Hm. destruct Hmv as [K|[_ K]]; [left|right]; congruence.
Qed.

End Delivery.

Lemma finalize_delivers_database_witness :
  exists db_src,
    In db_src (Fs.rglob (files reconstructed_world) ["proj"; "hloc_work"] "database.db")
    /\ (forall c, In c (Fs.rglob (files reconstructed_world) ["proj"; "hloc_work"]
                                 "database.db") ->
                  (mtime_or_zero (files reconstructed_world) c
                   <= mtime_or_zero (files reconstructed_world) db_src)%Z)
    /\ Fs.lookup (files (fst (finalize_to_colmap_layout ["proj"] ["proj"; "hloc_work"]
                                reconstructed_world))) (["proj"] // "database.db") <> None
    /\ (Fs.lookup (files (fst (finalize_to_colmap_layout ["proj"] ["proj"; "hloc_work"]
                                 reconstructed_world))) (["proj"] // "database.db")
        = Fs.lookup (files reconstructed_world) db_src
        \/ Fs.lookup (files (fst (finalize_to_colmap_layout ["proj"] ["proj"; "hloc_work"]
                                    reconstructed_world))) (["proj"] // "database.db")
           = Fs.lookup (files reconstructed_world) (["proj"] // "database.db")).
Proof.
  apply (@finalize_delivers_database ["proj"] ["proj"; "hloc_work"] reconstructed_world).
  - vm_compute. reflexivity.
  - intro H; discriminate H.
  - reflexivity.
Defined.

(** ** What a run has done by the time it calls the first stage *)

Section Preparation.

Variable hloc : hloc_modules.
Variable json_dumps : pyval -> string.

Lemma quiet_bind {A B} (m : M A) (k : A -> M B) :
  quiet m -> (forall a, quiet (k a)) -> quiet (bind m k).
Proof.
  intros Hm Hk w w' o H. apply bind_inv in H.
  destruct H as [[e [H _]]|[w1 [a [H1 H2]]]].
  - exact (Hm _ _ _ H).
  - rewrite (Hk a _ _ _ H2). exact (Hm _ _ _ H1).
Qed.

Lemma quiet_ret {A} (a : A) : quiet (ret a).
Proof. intros w w' o H. inversion H. reflexivity. Qed.

Lemma quiet_raise {A} (c : exn_class) (msg : string) : quiet (@raise A c msg).
Proof. intros w w' o H. inversion H. reflexivity. Qed.

Lemma quiet_print (line : string) : quiet (print line).
Proof. intros w w' o H. inversion H. reflexivity. Qed.

Lemma quiet_exists (p : path) : quiet (Os.exists_ p).
Proof. intros w w' o H. inversion H. reflexivity. Qed.

Lemma quiet_is_dir (p : path) : quiet (Os.is_dir p).
Proof. intros w w' o H. inversion H. reflexivity. Qed.

Lemma quiet_rglob (p : path) (pat : string) : quiet (Os.rglob p pat).
Proof. intros w w' o H. inversion H. reflexivity. Qed.

Lemma quiet_mkdir (p : path) : quiet (Os.mkdir p).
Proof.
  intros w w' o H. unfold Os.mkdir, Os.no_entry, bind, get_files, raise, put_files in H.
  destruct (Fs.lookup (files w) p); [inversion H; reflexivity|].
  destruct (Fs.lookup (files w) (PurePath.parent p)) as [[?|?]|]; inversion H; reflexivity.
Qed.

Lemma quiet_mkdir_parents (p : path) : quiet (Os.mkdir_parents_exist_ok p).
Proof.
  unfold Os.mkdir_parents_exist_ok. generalize (rev p). intros rp.
  induction rp as [|a rp IH]; intros w w' o H; cbn [Os.mkdir_parents_rev] in H.
  - destruct (Os.mkdir (rev []) w) as [w1 [[]|e]] eqn:E;
      pose proof (quiet_mkdir _ _ E) as Q.
    + inversion H; subst. exact Q.
    + destruct (is_FileNotFoundError e); [inversion H; subst; exact Q|].
      destruct (Fs.is_dir_node (Fs.lookup (files w1) (rev []))); inversion H; subst; exact Q.
  - destruct (Os.mkdir (rev (a :: rp)) w) as [w1 [[]|e]] eqn:E;
      pose proof (quiet_mkdir _ _ E) as Q.
    + inversion H; subst. exact Q.
    + destruct (is_FileNotFoundError e).
      * unfold bind in H.
        destruct (Os.mkdir_parents_rev rp w1) as [w2 [[]|e2]] eqn:E2;
          pose proof (IH _ _ _ E2) as Q2.
        -- destruct (Os.mkdir (rev (a :: rp)) w2) as [w3 [[]|e3]] eqn:E3;
             pose proof (quiet_mkdir _ _ E3) as Q3.
           ++ inversion H; subst. congruence.
           ++ destruct (Fs.is_dir_node (Fs.lookup (files w3) (rev (a :: rp))));
                inversion H; subst; congruence.
        -- inversion H; subst. congruence.
      * destruct (Fs.is_dir_node (Fs.lookup (files w1) (rev (a :: rp))));
          inversion H; subst; exact Q.
Qed.

Lemma quiet_write_text (p : path) (data : string) : quiet (Os.write_text p data).
Proof.
  intros w w' o H. unfold Os.write_text, Os.no_entry, bind, get_files, raise, put_files in H.
  destruct (Fs.lookup (files w) p) as [[?|?]|];
    try (inversion H; reflexivity);
    destruct (Fs.lookup (files w) (PurePath.parent p)) as [[?|?]|];
    try destruct (Str.valid_utf8 data); inversion H; reflexivity.
Qed.

Lemma quiet_rmtree (p : path) : quiet (Os.rmtree p).
Proof.
  intros w w' o H. unfold Os.rmtree, Os.no_entry, bind, get_files, raise, put_files in H.
  destruct (Fs.lookup (files w) p) as [[?|?]|]; inversion H; reflexivity.
Qed.

Lemma quiet_ensure_images_dir (project_dir : path) : quiet (ensure_images_dir project_dir).
Proof.
  unfold ensure_images_dir.
  apply quiet_bind; [apply quiet_exists|]. intros e.
  apply quiet_bind; [apply quiet_is_dir|]. intros d.
  destruct (negb e || negb d); [apply quiet_raise|].
  apply quiet_bind; [apply quiet_rglob|]. intros all.
  destruct (filter has_image_ext all); [apply quiet_raise|apply quiet_ret].
Qed.

Lemma quiet_make_image_list_file (images_dir out_dir : path) :
  quiet (make_image_list_file images_dir out_dir).
Proof.
  unfold make_image_list_file.
  apply quiet_bind; [apply quiet_rglob|]. intros all.
  apply quiet_bind; [apply quiet_write_text|]. intros _. apply quiet_ret.
Qed.

(** A stage that raises without writing makes every call of it raise
    without writing. *)
Lemma py_call_failing (f : callable) (args : list pyval) (kwargs : list (string * pyval)) :
  (forall a k w0, exists w1 e, fn_body f a k w0 = (w1, Raise e) /\ files w1 = files w0) ->
  forall w, exists w1 e, py_call f args kwargs w = (w1, Raise e) /\ files w1 = files w.
Proof.
  intros Hf w. unfold py_call.
  destruct (binds (parameters f) (List.length args) (map fst kwargs)).
  - destruct (Hf args kwargs (log_call (mk_call (fn_name f) args kwargs) w))
      as [w1 [e [H1 H2]]].
    exists w1, e. split; [exact H1|exact H2].
  - eexists. eexists. split; reflexivity.
Qed.

Lemma try_except_failing {A} (m h : M A) (handles : exn -> bool) :
  (forall w, exists w1 e, m w = (w1, Raise e) /\ files w1 = files w) ->
  (forall w, exists w1 e, h w = (w1, Raise e) /\ files w1 = files w) ->
  forall w, exists w1 e, try_except m handles h w = (w1, Raise e) /\ files w1 = files w.
Proof.
  intros Hm Hh w. unfold try_except.
  destruct (Hm w) as [w1 [e [H1 H2]]]. rewrite H1.
  destruct (handles e).
  - destruct (Hh w1) as [w2 [e2 [H3 H4]]]. exists w2, e2. split; [exact H3|congruence].
  - exists w1, e. split; [reflexivity|exact H2].
Qed.

Lemma call_pairs_exhaustive_failing (images_dir output_pairs image_list_path : path) :
  (forall a k w0, exists w1 e,
      fn_body (pairs_from_exhaustive_main hloc) a k w0 = (w1, Raise e)
      /\ files w1 = files w0) ->
  forall w, exists w1 e,
    call_pairs_exhaustive hloc images_dir output_pairs image_list_path w = (w1, Raise e)
    /\ files w1 = files w.
Proof.
  intros Hf. unfold call_pairs_exhaustive.
  apply try_except_failing.
  - destruct (mem_string "image_dir" _); [apply py_call_failing; exact Hf|].
    destruct (mem_string "image_list" _); [apply py_call_failing; exact Hf|].
    destruct (Str.contains "list" _); apply py_call_failing; exact Hf.
  - apply try_except_failing; apply py_call_failing; exact Hf.
Qed.

Lemma no_entry_below_empty (s : Fs.store) (p : path) :
  (forall q, PurePath.is_under p q = true -> Fs.lookup s q = None) ->
  Fs.is_empty_dir s p = true.
Proof.
  intros H. unfold Fs.is_empty_dir. apply negb_true_iff.
  destruct (existsb (fun e => PurePath.is_under p (fst e)) s) eqn:E; [|reflexivity].
  apply existsb_exists in E. destruct E as [[k x] [Hin Hu]]. simpl in Hu.
  specialize (H k Hu). destruct (In_assoc _ _ _ Hin) as [m Hm].
  pose proof (@is_under_nonempty _ _ Hu) as Hne.
  destruct k; [congruence|]. simpl in H. congruence.
Qed.

Lemma lookup_remove_tree_below (p q : path) (s : Fs.store) :
  PurePath.is_under p q = true -> Fs.lookup (Fs.remove_tree p s) q = None.
Proof.
  intros Hu. pose proof (@is_under_nonempty _ _ Hu) as Hne.
  destruct q as [|a q]; [congruence|]. simpl. unfold Fs.remove_tree.
  induction s as [|[r x] s IH]; simpl; [reflexivity|].
  destruct (PurePath.eqb r p || PurePath.is_under p r) eqn:E; simpl; [exact IH|].
  destruct (PurePath.eqb r (a :: q)) eqn:Er; [|exact IH].
  apply path_eqb_eq in Er. subst r. rewrite Hu, orb_true_r in E. discriminate.
Qed.

Lemma lookup_remove_tree_keep (p q : path) (s : Fs.store) :
  PurePath.eqb q p || PurePath.is_under p q = false ->
  Fs.lookup (Fs.remove_tree p s) q = Fs.lookup s q.
Proof.
  intros H. destruct q as [|a q]; [reflexivity|]. simpl.
  apply assoc_remove_tree_keep. exact H.
Qed.

Lemma div_inj (p : path) (a b : string) : a <> b -> p // a <> p // b.
Proof.
  intros Hab E. unfold PurePath.div in E. apply app_inv_head in E. congruence.
Qed.

Lemma not_under_sibling (p : path) (a b : string) :
  PurePath.is_under (p // a) (p // b) = false.
Proof.
  unfold PurePath.div. rewrite is_under_app_cancel. simpl. apply andb_false_r.
Qed.

Lemma quiet_run {A} (m : M A) (w w' : world) (o : outcome A) :
  quiet m -> m w = (w', o) -> calls w' = calls w.
Proof. intros Hq H. exact (Hq _ _ _ H). Qed.

Lemma ensure_images_dir_Ret (project_dir images : path) (w w1 : world) :
  ensure_images_dir project_dir w = (w1, Ret images) ->
  w1 = w /\ images = project_dir // "images".
Proof.
  unfold ensure_images_dir, Os.exists_, Os.is_dir, Os.rglob, bind, get_files, ret, raise.
  destruct (negb _ || negb _); [discriminate|].
  destruct (filter has_image_ext _); [discriminate|].
  intros H. inversion H. split; reflexivity.
Qed.

Lemma write_text_Ret (p : path) (data : string) (w w' : world) :
  Os.write_text p data w = (w', Ret tt) ->
  files w' = Fs.set p (Fs.File data (clock w)) (files w).
Proof.
  unfold Os.write_text, Os.no_entry, bind, get_files, raise, put_files. intros H.
  destruct (Fs.lookup (files w) p) as [[?|?]|]; try discriminate;
    destruct (Fs.lookup (files w) (PurePath.parent p)) as [[?|?]|]; try discriminate;
    destruct (Str.valid_utf8 data); try discriminate;
    inversion H; reflexivity.
Qed.

Lemma rmtree_Ret (p : path) (w w' : world) :
  Os.rmtree p w = (w', Ret tt) -> files w' = Fs.remove_tree p (files w).
Proof.
  unfold Os.rmtree, Os.no_entry, bind, get_files, raise, put_files. intros H.
  destruct (Fs.lookup (files w) p) as [[?|?]|]; try discriminate.
  inversion H; reflexivity.
Qed.

Lemma make_image_list_file_Ret (images_dir out_dir lp : path) (w w' : world) :
  make_image_list_file images_dir out_dir w = (w', Ret lp) ->
  exists data, files w' = Fs.set (out_dir // "images.txt") (Fs.File data (clock w)) (files w).
Proof.
  unfold make_image_list_file. intros H.
  apply bind_Ret_inv in H. destruct H as [w1 [all [Hr H]]].
  unfold Os.rglob, bind, get_files, ret in Hr. inversion Hr; subst w1 all. clear Hr.
  apply bind_Ret_inv in H. destruct H as [w2 [[] [Hw H]]].
  unfold ret in H. inversion H; subst w' lp. clear H.
  eexists. apply write_text_Ret. exact Hw.
Qed.

(** X19.  What a run has done by the time it calls the pairing stage.  If
    that stage fails without writing, and the record of calls shows that
    the run got as far as calling it, the run raises and leaves: the
    reconstruction directory [hloc_work/sfm] as a directory, emptied of
    whatever it held before the run; the manifest, holding the dump of the
    run's settings; and the image list. *)
Theorem run_prepares_before_pairing (project_dir : path) (output_root : option path)
        (max_keypoints : Z) (w w' : world) (o : outcome unit) :
  let out_root := match output_root with Some r => r | None => project_dir end in
  let work_dir := out_root // "hloc_work" in
  (forall a k w0, exists w1 e,
      fn_body (pairs_from_exhaustive_main hloc) a k w0 = (w1, Raise e)
      /\ files w1 = files w0) ->
  run_sfm_for_project hloc json_dumps project_dir output_root max_keypoints w = (w', o) ->
  calls w' <> calls w ->
  (exists e, o = Raise e)
  /\ Fs.is_dir_node (Fs.lookup (files w') (work_dir // "sfm")) = true
  /\ (Fs.lookup (files w) (work_dir // "sfm") <> None ->
      Fs.is_empty_dir (files w') (work_dir // "sfm") = true)
  /\ content (files w') (work_dir // "run_manifest.json")
     = Some (json_dumps
               (VDict [("project_dir", VStr (PurePath.str project_dir));
                       ("images_dir", VStr (PurePath.str (project_dir // "images")));
                       ("output_root", VStr (PurePath.str out_root));
                       ("work_dir", VStr (PurePath.str work_dir));
                       ("settings", VDict [("max_keypoints", VInt max_keypoints);
                                           ("matching", VStr "lightglue");
                                           ("features", VStr "superpoint");
                                           ("pairing", VStr "exhaustive")])]))
  /\ Fs.is_file_node (Fs.lookup (files w') (work_dir // "images.txt")) = true.
Proof.
  intros out_root work_dir Hf H Hc.
  unfold run_sfm_for_project in H. cbv zeta in H.
  fold out_root in H. fold work_dir in H.
  (* validation *)
  apply bind_inv in H. destruct H as [[e [H _]]|[w1 [images [H1 H]]]].
  { exfalso. apply Hc. exact (@quiet_run _ _ _ _ _ (@quiet_ensure_images_dir _) H). }
  apply ensure_images_dir_Ret in H1. destruct H1 as [-> ->].
  (* the work directory *)
  apply bind_inv in H. destruct H as [[e [H _]]|[w2 [[] [H2 H]]]].
  { exfalso. apply Hc. exact (@quiet_run _ _ _ _ _ (@quiet_mkdir_parents _) H). }
  pose proof (@quiet_run _ _ _ _ _ (@quiet_mkdir_parents _) H2) as Q2.
  (* the manifest *)
  apply bind_inv in H. destruct H as [[e [H _]]|[w3 [[] [H3 H]]]].
  { exfalso. apply Hc. rewrite (@quiet_run _ _ _ _ _ (@quiet_write_text _ _) H). exact Q2. }
  pose proof (@quiet_run _ _ _ _ _ (@quiet_write_text _ _) H3) as Q3.
  apply write_text_Ret in H3.
  (* the reconstruction directory *)
  apply bind_inv in H. destruct H as [[e [H _]]|[w4 [ex [H4 H]]]].
  { inversion H. }
  unfold Os.exists_, bind, get_files, ret in H4. inversion H4; subst w4 ex. clear H4.
  apply bind_inv in H. destruct H as [[e [H _]]|[w4 [[] [H4 H]]]].
  { exfalso. apply Hc.
    destruct (Fs.lookup (files w3) (work_dir // "sfm"));
      [rewrite (@quiet_run _ _ _ _ _ (@quiet_rmtree _) H)|rewrite (@quiet_run _ _ _ _ _ (@quiet_ret _ _) H)]; congruence. }
  assert (Q4 : calls w4 = calls w3).
  { destruct (Fs.lookup (files w3) (work_dir // "sfm"));
      [exact (@quiet_run _ _ _ _ _ (@quiet_rmtree _) H4)|exact (@quiet_run _ _ _ _ _ (@quiet_ret _ _) H4)]. }
  apply bind_inv in H. destruct H as [[e [H _]]|[w5 [[] [H5 H]]]].
  { exfalso. apply Hc. rewrite (@quiet_run _ _ _ _ _ (@quiet_mkdir_parents _) H). congruence. }
  pose proof (@quiet_run _ _ _ _ _ (@quiet_mkdir_parents _) H5) as Q5.
  (* the image list *)
  apply bind_inv in H. destruct H as [[e [H _]]|[w6 [lp [H6 H]]]].
  { exfalso. apply Hc. rewrite (@quiet_run _ _ _ _ _ (@quiet_make_image_list_file _ _) H). congruence. }
  apply make_image_list_file_Ret in H6. destruct H6 as [data H6].
  (* the stage *)
  apply bind_inv in H. destruct H as [[e [H _]]|[w7 [[] [H7 H]]]].
  { inversion H. }
  rewrite print_run in H7. inversion H7; subst w7. clear H7.
  unfold bind at 1 in H.
  match type of H with
  | context [call_pairs_exhaustive hloc ?a ?b ?c ?w0] =>
      destruct (@call_pairs_exhaustive_failing a b c Hf w0) as [w8 [e8 [H8 F8]]]
  end.
  rewrite H8 in H. inversion H; subst w' o. clear H. simpl in F8.
  split; [exists e8; reflexivity|].
  rewrite F8, H6.
  assert (Hdir5 : Fs.is_dir_node (Fs.lookup (files w5) (work_dir // "sfm")) = true).
  { unfold Os.mkdir_parents_exist_ok in H5. apply mkdir_parents_rev_dir in H5.
    rewrite rev_involutive in H5. exact H5. }
  split; [|split; [|split]].
  - rewrite lookup_set_ne by (apply div_inj; discriminate). exact Hdir5.
  - intros Hold. apply no_entry_below_empty. intros q Hq.
    assert (Hq1 : q <> work_dir // "images.txt").
    { intros ->. rewrite not_under_sibling in Hq. discriminate. }
    rewrite lookup_set_ne by exact Hq1.
    assert (Hq2 : q <> work_dir // "sfm").
    { intros ->. rewrite is_under_irrefl in Hq. discriminate. }
    assert (Hq3 : PurePath.is_under q (work_dir // "sfm") = false).
    { destruct (PurePath.is_under q (work_dir // "sfm")) eqn:E; [|reflexivity].
      pose proof (is_under_trans _ _ _ Hq E) as C. rewrite is_under_irrefl in C.
      discriminate. }
    refine (@mkdir_parents_keeps_absent q _ Hq2 Hq3 _ _ _ H5 _). unfold absent.
    destruct (Fs.lookup (files w) (work_dir // "sfm")) as [n0|] eqn:E0; [|congruence].
    pose proof (@mkdir_parents_keeps_entry _ n0 _ _ _ _ H2 E0) as E2. unfold entry in E2.
    assert (E3 : Fs.lookup (files w3) (work_dir // "sfm") = Some n0).
    { rewrite H3, lookup_set_ne by (apply div_inj; discriminate). exact E2. }
    rewrite E3 in H4. apply rmtree_Ret in H4. rewrite H4.
    apply lookup_remove_tree_below. exact Hq.
  - unfold content.
    rewrite lookup_set_ne by (apply div_inj; discriminate).
    assert (E3 : Fs.lookup (files w3) (work_dir // "run_manifest.json")
                 = Some (Fs.File (json_dumps
               (VDict [("project_dir", VStr (PurePath.str project_dir));
                       ("images_dir", VStr (PurePath.str (project_dir // "images")));
                       ("output_root", VStr (PurePath.str out_root));
                       ("work_dir", VStr (PurePath.str work_dir));
                       ("settings", VDict [("max_keypoints", VInt max_keypoints);
                                           ("matching", VStr "lightglue");
                                           ("features", VStr "superpoint");
                                           ("pairing", VStr "exhaustive")])])) (clock w2))).
    { rewrite H3. apply lookup_set_eq. apply div_nonempty. }
    assert (E4 : Fs.lookup (files w4) (work_dir // "run_manifest.json")
                 = Fs.lookup (files w3) (work_dir // "run_manifest.json")).
    { destruct (Fs.lookup (files w3) (work_dir // "sfm")).
      - apply rmtree_Ret in H4. rewrite H4.
        apply lookup_remove_tree_keep.
        rewrite not_under_sibling, path_eqb_neq by (apply div_inj; discriminate).
        reflexivity.
      - unfold ret in H4. inversion H4. reflexivity. }
    rewrite E3 in E4.
    pose proof (@mkdir_parents_keeps_entry _ _ _ _ _ _ H5 E4) as E5. unfold entry in E5.
    rewrite E5. reflexivity.
  - rewrite lookup_set_eq by apply div_nonempty. reflexivity.
Qed.

End Preparation.

Lemma run_prepares_before_pairing_witness :
  (exists e, snd (run_sfm_for_project demo_hloc_failing demo_json_dumps ["proj"] None 4096
                    reconstructed_world) = Raise e)
  /\ Fs.is_dir_node
       (Fs.lookup (files (fst (run_sfm_for_project demo_hloc_failing demo_json_dumps ["proj"]
                                 None 4096 reconstructed_world)))
                  (["proj"] // "hloc_work" // "sfm")) = true
  /\ (Fs.lookup (files reconstructed_world) (["proj"] // "hloc_work" // "sfm") <> None ->
      Fs.is_empty_dir
        (files (fst (run_sfm_for_project demo_hloc_failing demo_json_dumps ["proj"]
                       None 4096 reconstructed_world)))
        (["proj"] // "hloc_work" // "sfm") = true)
  /\ content (files (fst (run_sfm_for_project demo_hloc_failing demo_json_dumps ["proj"]
                            None 4096 reconstructed_world)))
             (["proj"] // "hloc_work" // "run_manifest.json")
     = Some (demo_json_dumps
               (VDict [("project_dir", VStr (PurePath.str ["proj"]));
                       ("images_dir", VStr (PurePath.str (["proj"] // "images")));
                       ("output_root", VStr (PurePath.str ["proj"]));
                       ("work_dir", VStr (PurePath.str (["proj"] // "hloc_work")));
                       ("settings", VDict [("max_keypoints", VInt 4096);
                                           ("matching", VStr "lightglue");
                                           ("features", VStr "superpoint");
                                           ("pairing", VStr "exhaustive")])]))
  /\ Fs.is_file_node
       (Fs.lookup (files (fst (run_sfm_for_project demo_hloc_failing demo_json_dumps ["proj"]
                                 None 4096 reconstructed_world)))
                  (["proj"] // "hloc_work" // "images.txt")) = true.
Proof.
  apply (@run_prepares_before_pairing demo_hloc_failing demo_json_dumps ["proj"] None 4096
           reconstructed_world).
  - intros a k w0. exists w0. eexists. split; reflexivity.
  - vm_compute. reflexivity.
  - vm_compute. intro H; discriminate H.
Defined.

(** ** When the image list cannot be written *)

Section ImageListErrors.

Lemma forallb_false_exists {A} (f : A -> bool) (l : list A) :
  forallb f l = false <-> exists x, In x l /\ f x = false.
Proof.
  induction l as [|a l IH]; simpl.
  - split; [discriminate|]. intros [x [[] _]].
  - rewrite andb_false_iff, IH. split.
    + intros [H|[x [H1 H2]]]; [exists a; auto|exists x; auto].
    + intros [x [[<-|H1] H2]]; [left; exact H2|right; exists x; auto].
Qed.

(** The text of the image list does not encode exactly when some listed
    path is not well-formed UTF-8. *)
Lemma image_list_text_undecodable (s : Fs.store) (images_dir : path) :
  Str.valid_utf8 (Str.join newline (Seq.sorted Str.leb (image_rels s images_dir))) = false
  <-> exists p, In p (Fs.rglob s images_dir "*") /\ has_image_ext p = true
                /\ Str.valid_utf8 (PurePath.str_rel (PurePath.relative_to images_dir p))
                   = false.
Proof.
  rewrite image_list_text_valid, forallb_false_exists. split.
  - intros [p [Hin Hv]]. apply filter_In in Hin. exists p. tauto.
  - intros [p [Hin [Hext Hv]]]. exists p. split; [|exact Hv].
    apply filter_In. tauto.
Qed.

(** X20.  [make_image_list_file] raises in exactly two situations.  When
    the output directory is not a directory or [images.txt] in it is a
    directory, it raises and leaves the world as it was.  Otherwise, when
    the path of some listed entry is not well-formed UTF-8, it raises
    [UnicodeEncodeError] and leaves [images.txt] empty, every other path
    as it was.  It does not create the output directory, and whether the
    images directory exists or holds any image plays no part. *)
Theorem make_image_list_file_raises_iff (images_dir out_dir : path) (w : world) :
  let blocked :=
    Fs.is_dir_node (Fs.lookup (files w) out_dir) = false
    \/ Fs.is_dir_node (Fs.lookup (files w) (out_dir // "images.txt")) = true in
  let undecodable :=
    exists p, In p (Fs.rglob (files w) images_dir "*") /\ has_image_ext p = true
              /\ Str.valid_utf8 (PurePath.str_rel (PurePath.relative_to images_dir p))
                 = false in
  (blocked -> exists e, make_image_list_file images_dir out_dir w = (w, Raise e))
  /\ (~ blocked -> undecodable ->
      exists w' e,
        make_image_list_file images_dir out_dir w = (w', Raise e)
        /\ exn_cls e = UnicodeEncodeError
        /\ content (files w') (out_dir // "images.txt") = Some ""
        /\ (forall q, q <> out_dir // "images.txt" ->
                      Fs.lookup (files w') q = Fs.lookup (files w) q))
  /\ ((exists w' e, make_image_list_file images_dir out_dir w = (w', Raise e)) ->
      blocked \/ undecodable).
Proof.
  intros blocked undecodable.
  pose proof (image_list_text_undecodable (files w) images_dir) as Hund.
  fold undecodable in Hund.
  unfold make_image_list_file, Os.rglob, Os.write_text, Os.no_entry, bind, get_files, ret,
    raise, put_files.
  fold (image_rels (files w) images_dir). fold newline.
  rewrite parent_div. subst blocked.
  destruct (Str.valid_utf8
              (Str.join newline (Seq.sorted Str.leb (image_rels (files w) images_dir))))
    eqn:Ev;
    destruct (Fs.lookup (files w) (out_dir // "images.txt")) as [[d t|t]|];
    destruct (Fs.lookup (files w) out_dir) as [[d' t'|t']|]; cbn [Fs.is_dir_node];
    (split; [|split]);
    try (intros _; eexists; reflexivity);
    try (intros [H|H]; discriminate H);
    try (intros [w' [e H]]; discriminate H);
    try (intros Hnb; exfalso; apply Hnb; auto; fail);
    try (intros _; left; left; reflexivity);
    try (intros _; left; right; reflexivity);
    try (intros _ Hu; apply Hund in Hu; discriminate Hu);
    try (intros _; right; apply Hund; reflexivity);
    try (intros _ _; do 2 eexists; split; [reflexivity|]; split; [reflexivity|];
         cbn [files]; split;
         [unfold content; rewrite lookup_set_eq by apply div_nonempty; reflexivity
         |intros q Hq; apply lookup_set_ne; exact Hq]).
Qed.

End ImageListErrors.

(** ** What the extraction and matching stages are handed and hand on *)

Section StageResults.

Variable hloc : hloc_modules.

(** A call of a stage whose body leaves the record of calls alone adds
    exactly that call to the record, whether it binds or not and whatever
    the body does. *)
Lemma py_call_calls (f : callable) (args : list pyval) (kwargs : list (string * pyval))
      (w w1 : world) (o : outcome pyval) :
  quiet (fn_body f args kwargs) ->
  py_call f args kwargs w = (w1, o) ->
  calls w1 = calls w ++ [mk_call (fn_name f) args kwargs].
Proof.
  intros Hq H. unfold py_call in H.
  destruct (binds (parameters f) (List.length args) (map fst kwargs)).
  - rewrite (Hq _ _ _ H). reflexivity.
  - inversion H. reflexivity.
Qed.

Lemma attempt_calls (f : callable) (args : list pyval) (kwargs : list (string * pyval))
      (w w1 : world) (o : outcome unit) :
  quiet (fn_body f args kwargs) ->
  (py_call f args kwargs ;; ret tt) w = (w1, o) ->
  calls w1 = calls w ++ [mk_call (fn_name f) args kwargs].
Proof.
  intros Hq H. apply bind_inv in H. destruct H as [[e [H _]]|[w2 [v [H1 H2]]]].
  - exact (@py_call_calls _ _ _ _ _ _ Hq H).
  - unfold ret in H2. inversion H2; subst. exact (@py_call_calls _ _ _ _ _ _ Hq H1).
Qed.

(** The retry chain of an invoker adds the first call, or the first two,
    or all three, in that order. *)
Lemma retry_chain_calls (a1 a2 a3 : M unit) (c1 c2 c3 : call) :
  (forall w w1 o, a1 w = (w1, o) -> calls w1 = calls w ++ [c1]) ->
  (forall w w1 o, a2 w = (w1, o) -> calls w1 = calls w ++ [c2]) ->
  (forall w w1 o, a3 w = (w1, o) -> calls w1 = calls w \/ calls w1 = calls w ++ [c3]) ->
  forall w w1 o,
    try_except a1 is_TypeError (try_except a2 is_TypeError a3) w = (w1, o) ->
    exists n, (1 <= n <= 3)%nat /\ calls w1 = calls w ++ firstn n [c1; c2; c3].
Proof.
  intros H1 H2 H3 w w1 o H. unfold try_except in H.
  destruct (a1 w) as [wa [[]|e1]] eqn:E1; pose proof (H1 _ _ _ E1) as Q1.
  - inversion H; subst. exists 1%nat. split; [lia|exact Q1].
  - destruct (is_TypeError e1).
    + destruct (a2 wa) as [wb [[]|e2]] eqn:E2; pose proof (H2 _ _ _ E2) as Q2.
      * inversion H; subst. exists 2%nat. split; [lia|].
        rewrite Q2, Q1, <- app_assoc. reflexivity.
      * destruct (is_TypeError e2).
        -- destruct (H3 _ _ _ H) as [Q3|Q3].
           ++ exists 2%nat. split; [lia|]. rewrite Q3, Q2, Q1, <- app_assoc. reflexivity.
           ++ exists 3%nat. split; [lia|].
              rewrite Q3, Q2, Q1, <- !app_assoc. reflexivity.
        -- inversion H; subst. exists 2%nat. split; [lia|].
           rewrite Q2, Q1, <- app_assoc. reflexivity.
    + inversion H; subst. exists 1%nat. split; [lia|exact Q1].
Qed.

(** X13.  Feature-store resolution.  When [call_extract_features] returns,
    the conf it returns is the library's ["superpoint_aachen"] entry (or
    the built-in default) with the keypoint cap written in, the features
    name is the stem of the returned path, and that path is the most
    recently modified [feats-*.h5] entry directly in the export directory,
    or, when there is none, the file name derived from the conf's
    ["output"] (default ["feats-superpoint"]) whether or not such a file
    exists.  The conf returned is the one the stage was handed: for a stage
    that leaves the record of calls alone, the calls added are the first,
    the first two or all three of the bindings of the invoker, each with
    that conf. *)
Theorem call_extract_features_result (images_dir export_dir : path) (max_keypoints : Z)
        (w w' : world) (feature_path : path) (features_name : string) (conf : pyval) :
  call_extract_features hloc images_dir export_dir max_keypoints w
    = (w', Ret (feature_path, features_name, conf)) ->
  conf = superpoint_conf hloc max_keypoints
  /\ features_name = PurePath.stem feature_path
  /\ ((In feature_path (Fs.glob (files w') export_dir "feats-*.h5")
       /\ forall q, In q (Fs.glob (files w') export_dir "feats-*.h5") ->
                    (mtime_or_zero (files w') q <= mtime_or_zero (files w') feature_path)%Z)
      \/ (Fs.glob (files w') export_dir "feats-*.h5" = []
          /\ exists items base,
               conf = VDict items
               /\ (dict_get "output" items = Some (VStr base)
                   \/ (dict_get "output" items = None /\ base = "feats-superpoint"))
               /\ feature_path = export_dir // (base ++ ".h5")))
  /\ ((forall args kwargs, quiet (fn_body (extract_features_main hloc) args kwargs)) ->
      exists n,
        (1 <= n <= 3)%nat
        /\ calls w'
           = calls w
             ++ firstn n
                  [mk_call (fn_name (extract_features_main hloc))
                           [conf; VPath images_dir; VPath export_dir] [];
                   mk_call (fn_name (extract_features_main hloc)) []
                           [("conf", conf); ("image_dir", VPath images_dir);
                            ("export_dir", VPath export_dir)];
                   mk_call (fn_name (extract_features_main hloc))
                           [conf; VPath (export_dir // "images.txt"); VPath export_dir] []]).
Proof.
  intros H. unfold call_extract_features in H.
  fold (superpoint_conf hloc max_keypoints) in H.
  apply bind_Ret_inv in H. destruct H as [w1 [u [Htry H]]].
  apply bind_Ret_inv in H. destruct H as [w2 [found [Hg H]]].
  unfold Os.glob, bind, get_files, ret in Hg. inversion Hg; subst w2 found. clear Hg.
  apply bind_Ret_inv in H. destruct H as [w3 [s [Hs H]]].
  unfold get_files in Hs. inversion Hs; subst w3 s. clear Hs.
  apply bind_Ret_inv in H. destruct H as [w4 [fp [Hfp H]]].
  unfold ret in H. inversion H; subst w4 feature_path features_name conf. clear H.
  assert (Hw : w' = w1).
  { destruct (Seq.last_opt _) as [c|].
    - unfold ret in Hfp. inversion Hfp. reflexivity.
    - apply bind_Ret_inv in Hfp. destruct Hfp as [w5 [out [Hout Hfp]]].
      apply bind_Ret_inv in Hfp. destruct Hfp as [w6 [base [Hbase Hfp]]].
      unfold ret in Hfp. inversion Hfp; subst w6. clear Hfp.
      unfold conf_get in Hout.
      destruct (superpoint_conf hloc max_keypoints); unfold raise, ret in Hout;
        inversion Hout; subst w5.
      unfold as_str in Hbase.
      destruct out; unfold raise, ret in Hbase; inversion Hbase; reflexivity. }
  subst w1.
  split; [reflexivity|]. split; [reflexivity|]. split.
  - destruct (Seq.last_opt (Seq.sorted_by_key (mtime_or_zero (files w'))
                              (Fs.glob (files w') export_dir "feats-*.h5"))) as [c|] eqn:E.
    + unfold ret in Hfp. inversion Hfp; subst fp. left.
      apply sorted_by_key_last in E. exact E.
    + unfold Seq.sorted_by_key in E. apply last_opt_sorted_none in E.
      apply bind_Ret_inv in Hfp. destruct Hfp as [w5 [out [Hout Hfp]]].
      apply bind_Ret_inv in Hfp. destruct Hfp as [w6 [base [Hbase Hfp]]].
      unfold ret in Hfp. inversion Hfp; subst fp w6. clear Hfp.
      unfold conf_get in Hout.
      destruct (superpoint_conf hloc max_keypoints) as [| | | | |items] eqn:Ec;
        try (unfold raise in Hout; discriminate).
      unfold ret in Hout. inversion Hout; subst out w5. clear Hout.
      unfold as_str in Hbase.
      right. split; [exact E|].
      exists items, base. split; [reflexivity|].
      destruct (dict_get "output" items) as [[| | |b| |]|];
        unfold raise, ret in Hbase; inversion Hbase; subst; split; auto.
  - intros Hq. refine (@retry_chain_calls _ _ _ _ _ _ _ _ _ _ _ _ Htry).
    + intros v v1 o Ha. exact (@attempt_calls _ _ _ _ _ _ (Hq _ _) Ha).
    + intros v v1 o Ha. exact (@attempt_calls _ _ _ _ _ _ (Hq _ _) Ha).
    + intros v v1 o Ha.
      apply bind_inv in Ha. destruct Ha as [[e [Ha _]]|[v2 [ex [Ha1 Ha]]]];
        [inversion Ha|].
      unfold Os.exists_, bind, get_files, ret in Ha1. inversion Ha1; subst v2 ex. clear Ha1.
      apply bind_inv in Ha. destruct Ha as [[e [Ha _]]|[v3 [[] [Ha2 Ha]]]].
      * left. destruct (Fs.lookup (files v) (export_dir // "images.txt"));
          [inversion Ha|exact (@quiet_run _ _ _ _ _ (@quiet_write_text _ _) Ha)].
      * right. rewrite (@attempt_calls _ _ _ _ _ _ (Hq _ _) Ha). f_equal.
        destruct (Fs.lookup (files v) (export_dir // "images.txt"));
          [unfold ret in Ha2; inversion Ha2; reflexivity
          |exact (@quiet_run _ _ _ _ _ (@quiet_write_text _ _) Ha2)].
Qed.

(** X14.  When [call_match_features] returns, the path it returns names an
    entry of the store it leaves, and the conf it returns is the library's
    ["lightglue"] entry (or the built-in default): a stage that ran without
    writing a match store makes the call raise, not return a path to
    nothing.  The conf returned is the one the stage was handed: for a
    stage that leaves the record of calls alone, the calls added are the
    first, the first two or all three of the bindings of the invoker, each
    with that conf. *)
Theorem call_match_features_result (pairs_path : path) (features_name : string)
        (export_dir : path) (w w' : world) (match_path : path) (conf : pyval) :
  call_match_features hloc pairs_path features_name export_dir w
    = (w', Ret (match_path, conf)) ->
  conf = lightglue_conf hloc
  /\ Fs.lookup (files w') match_path <> None
  /\ ((forall args kwargs, quiet (fn_body (match_features_main hloc) args kwargs)) ->
      exists n,
        (1 <= n <= 3)%nat
        /\ calls w'
           = calls w
             ++ firstn n
                  [mk_call (fn_name (match_features_main hloc))
                           [conf; VPath pairs_path; VStr features_name; VPath export_dir] [];
                   mk_call (fn_name (match_features_main hloc)) []
                           [("conf", conf); ("pairs", VPath pairs_path);
                            ("features", VStr features_name);
                            ("export_dir", VPath export_dir)];
                   mk_call (fn_name (match_features_main hloc))
                           [conf; VPath pairs_path; VPath export_dir]
                           [("features", VStr features_name)]]).
Proof.
  intros H. unfold call_match_features in H. fold (lightglue_conf hloc) in H.
  apply bind_Ret_inv in H. destruct H as [w0 [t0 [Ht H]]].
  unfold time_time in Ht. inversion Ht; subst w0 t0. clear Ht.
  apply bind_Ret_inv in H. destruct H as [w1 [u [Htry H]]].
  apply bind_Ret_inv in H. destruct H as [w2 [out [Hout H]]].
  apply bind_Ret_inv in H. destruct H as [w3 [base [Hbase H]]].
  apply bind_Ret_inv in H. destruct H as [w4 [mp [Hf H]]].
  unfold ret in H. inversion H; subst w4 match_path conf. clear H.
  apply find_matches_file_Ret_inv in Hf. destruct Hf as [Hf Hl]. subst w3.
  assert (Hw : w' = w1).
  { unfold conf_get in Hout.
    destruct (lightglue_conf hloc); unfold raise, ret in Hout; inversion Hout; subst w2.
    unfold as_str in Hbase.
    destruct out; unfold raise, ret in Hbase; inversion Hbase; reflexivity. }
  subst w1.
  split; [reflexivity|]. split; [exact Hl|].
  intros Hq. refine (@retry_chain_calls _ _ _ _ _ _ _ _ _ _ _ _ Htry).
  - intros v v1 o Ha. exact (@attempt_calls _ _ _ _ _ _ (Hq _ _) Ha).
  - intros v v1 o Ha. exact (@attempt_calls _ _ _ _ _ _ (Hq _ _) Ha).
  - intros v v1 o Ha. right. exact (@attempt_calls _ _ _ _ _ _ (Hq _ _) Ha).
Qed.

End StageResults.

(** The example stages leave the record of calls alone. *)
Lemma demo_extract_quiet (args : list pyval) (kwargs : list (string * pyval)) :
  quiet (fn_body (extract_features_main demo_hloc) args kwargs).
Proof.
  cbn [fn_body extract_features_main demo_hloc demo_extract].
  destruct (arg_path "export_dir" 2 args kwargs).
  - apply quiet_bind; [apply quiet_write_text|intros _; apply quiet_ret].
  - apply quiet_raise.
Qed.

Lemma demo_match_quiet (args : list pyval) (kwargs : list (string * pyval)) :
  quiet (fn_body (match_features_main demo_hloc) args kwargs).
Proof.
  cbn [fn_body match_features_main demo_hloc demo_match].
  destruct (arg_path "export_dir" 3 args kwargs).
  - apply quiet_bind; [apply quiet_write_text|intros _; apply quiet_ret].
  - apply quiet_raise.
Qed.

Lemma call_extract_features_result_witness :
  superpoint_conf demo_hloc 4096 = superpoint_conf demo_hloc 4096
  /\ "feats-superpoint" = PurePath.stem ["proj"; "hloc_work"; "feats-superpoint.h5"]
  /\ ((In ["proj"; "hloc_work"; "feats-superpoint.h5"]
          (Fs.glob (files (fst (call_extract_features demo_hloc ["proj"; "images"]
                                  ["proj"; "hloc_work"] 4096 project_world)))
                   ["proj"; "hloc_work"] "feats-*.h5")
       /\ forall q,
            In q (Fs.glob (files (fst (call_extract_features demo_hloc ["proj"; "images"]
                                         ["proj"; "hloc_work"] 4096 project_world)))
                          ["proj"; "hloc_work"] "feats-*.h5") ->
            (mtime_or_zero (files (fst (call_extract_features demo_hloc ["proj"; "images"]
                                          ["proj"; "hloc_work"] 4096 project_world))) q
             <= mtime_or_zero (files (fst (call_extract_features demo_hloc ["proj"; "images"]
                                             ["proj"; "hloc_work"] 4096 project_world)))
                              ["proj"; "hloc_work"; "feats-superpoint.h5"])%Z)
      \/ (Fs.glob (files (fst (call_extract_features demo_hloc ["proj"; "images"]
                                 ["proj"; "hloc_work"] 4096 project_world)))
                  ["proj"; "hloc_work"] "feats-*.h5" = []
          /\ exists items base,
               superpoint_conf demo_hloc 4096 = VDict items
               /\ (dict_get "output" items = Some (VStr base)
                   \/ (dict_get "output" items = None /\ base = "feats-superpoint"))
               /\ ["proj"; "hloc_work"; "feats-superpoint.h5"]
                  = ["proj"; "hloc_work"] // (base ++ ".h5")))
  /\ exists n,
       (1 <= n <= 3)%nat
       /\ calls (fst (call_extract_features demo_hloc ["proj"; "images"]
                        ["proj"; "hloc_work"] 4096 project_world))
          = calls project_world
            ++ firstn n
                 [mk_call "extract_features.main"
                          [superpoint_conf demo_hloc 4096; VPath ["proj"; "images"];
                           VPath ["proj"; "hloc_work"]] [];
                  mk_call "extract_features.main" []
                          [("conf", superpoint_conf demo_hloc 4096);
                           ("image_dir", VPath ["proj"; "images"]);
                           ("export_dir", VPath ["proj"; "hloc_work"])];
                  mk_call "extract_features.main"
                          [superpoint_conf demo_hloc 4096;
                           VPath (["proj"; "hloc_work"] // "images.txt");
                           VPath ["proj"; "hloc_work"]] []].
Proof.
  assert (Hrun : call_extract_features demo_hloc ["proj"; "images"] ["proj"; "hloc_work"] 4096
                   project_world
                 = (fst (call_extract_features demo_hloc ["proj"; "images"]
                           ["proj"; "hloc_work"] 4096 project_world),
                    Ret (["proj"; "hloc_work"; "feats-superpoint.h5"], "feats-superpoint",
                         superpoint_conf demo_hloc 4096))).
  { vm_compute. reflexivity. }
  destruct (@call_extract_features_result _ _ _ _ _ _ _ _ _ Hrun) as [H1 [H2 [H3 H4]]].
  split; [exact H1|]. split; [exact H2|]. split; [exact H3|].
  exact (H4 demo_extract_quiet).
Defined.

Lemma call_match_features_result_witness :
  lightglue_conf demo_hloc = lightglue_conf demo_hloc
  /\ Fs.lookup (files (fst (call_match_features demo_hloc
                              ["proj"; "hloc_work"; "pairs-exhaustive.txt"]
                              "feats-superpoint" ["proj"; "hloc_work"] project_world)))
               ["proj"; "hloc_work"; "matches-superpoint-lightglue.h5"] <> None
  /\ exists n,
       (1 <= n <= 3)%nat
       /\ calls (fst (call_match_features demo_hloc
                        ["proj"; "hloc_work"; "pairs-exhaustive.txt"]
                        "feats-superpoint" ["proj"; "hloc_work"] project_world))
          = calls project_world
            ++ firstn n
                 [mk_call "match_features.main"
                          [lightglue_conf demo_hloc;
                           VPath ["proj"; "hloc_work"; "pairs-exhaustive.txt"];
                           VStr "feats-superpoint"; VPath ["proj"; "hloc_work"]] [];
                  mk_call "match_features.main" []
                          [("conf", lightglue_conf demo_hloc);
                           ("pairs", VPath ["proj"; "hloc_work"; "pairs-exhaustive.txt"]);
                           ("features", VStr "feats-superpoint");
                           ("export_dir", VPath ["proj"; "hloc_work"])];
                  mk_call "match_features.main"
                          [lightglue_conf demo_hloc;
                           VPath ["proj"; "hloc_work"; "pairs-exhaustive.txt"];
                           VPath ["proj"; "hloc_work"]]
                          [("features", VStr "feats-superpoint")]].
Proof.
  assert (Hrun : call_match_features demo_hloc ["proj"; "hloc_work"; "pairs-exhaustive.txt"]
                   "feats-superpoint" ["proj"; "hloc_work"] project_world
                 = (fst (call_match_features demo_hloc
                           ["proj"; "hloc_work"; "pairs-exhaustive.txt"]
                           "feats-superpoint" ["proj"; "hloc_work"] project_world),
                    Ret (["proj"; "hloc_work"; "matches-superpoint-lightglue.h5"],
                         lightglue_conf demo_hloc))).
  { vm_compute. reflexivity. }
  destruct (@call_match_features_result _ _ _ _ _ _ _ _ Hrun) as [H1 [H2 H3]].
  split; [exact H1|]. split; [exact H2|].
  exact (H3 demo_match_quiet).
Defined.

(** The record of calls in the two examples: the extraction stage binds at
    the first attempt; the matching stage, keyword-only, at the second. *)
Example stage_calls_examples :
  calls (fst (call_extract_features demo_hloc ["proj"; "images"] ["proj"; "hloc_work"] 4096
                project_world))
  = [mk_call "extract_features.main"
             [superpoint_conf demo_hloc 4096; VPath ["proj"; "images"];
              VPath ["proj"; "hloc_work"]] []]
  /\ List.length (calls (fst (call_match_features demo_hloc
                                ["proj"; "hloc_work"; "pairs-exhaustive.txt"]
                                "feats-superpoint" ["proj"; "hloc_work"] project_world)))
     = 2%nat.
Proof. split; vm_compute; reflexivity. Qed.
